(** * Item-sync core of the syncing server: ItemService and the transition runner

    A shallow embedding of

      - [packages/syncing-server/src/Domain/Item/ItemService.ts]
      - [packages/syncing-server/src/Domain/UseCase/Transition/
         TransitionItemsFromPrimaryToSecondaryDatabaseForUser/
         TransitionItemsFromPrimaryToSecondaryDatabaseForUser.ts]

    Both classes are orchestration code: they call injected collaborators
    (repositories, a timer, a validator, an event publisher) and react to
    what comes back, including exceptions.  A method is therefore embedded
    as a finite tree of collaborator calls (module [Effects]); a handler
    gives the calls a meaning over some world, and a logging wrapper
    records every call together with its answer.  Properties that hold for
    every implementation of the collaborators quantify over the handler;
    concrete runs use the in-memory collaborators defined further down.

    JavaScript numbers are modelled as [Z] (timestamps are integral
    microseconds), [undefined] and [null] as [None]. *)

From Stdlib Require Import ZArith List String Ascii Lia Bool DecimalString.
From Stdlib Require Import Permutation Sorted.
Import ListNotations.
Open Scope string_scope.
Open Scope list_scope.
Open Scope Z_scope.

(** String concatenation, as in a template literal. *)
Infix "+++" := String.append (right associativity, at level 60).

(** ** JavaScript helpers *)

Module JS.

(** Truthiness of [string | null | undefined]: the empty string is falsy. *)
Definition truthy_string (s : option string) : bool :=
  match s with
  | Some s => negb (s =? "")%string
  | None => false
  end.

(** Truthiness of [number | undefined]: zero is falsy. *)
Definition truthy_number (n : option Z) : bool :=
  match n with
  | Some n => negb (n =? 0)
  | None => false
  end.

Definition is_some {A} (o : option A) : bool :=
  match o with Some _ => true | None => false end.

(** The value behind a truthiness guard. *)
Definition the_string (s : option string) : string :=
  match s with Some s => s | None => "" end.

Definition the_number (n : option Z) : Z :=
  match n with Some n => n | None => 0 end.

(** [a[a.length - 1]]: [None] stands for the [undefined] read off an empty
    array. *)
Definition last_element {A} (l : list A) : option A :=
  match rev l with
  | [] => None
  | x :: _ => Some x
  end.

(** [Array.prototype.sort(comparefn)].  The array is sorted in place; the
    model returns the new contents.  Elements are inserted one by one into
    the sorted prefix, in front of the first element [e] with
    [comparefn(p, e) < 0].  Where [comparefn] never answers [0] the order
    of elements that compare equal is engine specific; nothing below
    depends on it. *)
Fixpoint sort_insert {A} (comparefn : A -> A -> Z) (p : A) (l : list A)
  : list A :=
  match l with
  | [] => [p]
  | e :: l' =>
      if comparefn p e <? 0 then p :: e :: l'
      else e :: sort_insert comparefn p l'
  end.

Definition sort {A} (comparefn : A -> A -> Z) (l : list A) : list A :=
  fold_left (fun sorted p => sort_insert comparefn p sorted) l [].

(** [String(n)] for an integral number. *)
Definition decimal (z : Z) : string := NilZero.string_of_int (Z.to_int z).

Fixpoint strip_trailing_zeros_rev (digits : list ascii) : list ascii :=
  match digits with
  | "0"%char :: rest => strip_trailing_zeros_rev rest
  | _ => digits
  end.

Definition strip_trailing_zeros (s : string) : string :=
  string_of_list_ascii
    (rev (strip_trailing_zeros_rev (rev (list_ascii_of_string s)))).

Fixpoint zeros (n : nat) : string :=
  match n with
  | O => ""
  | S n' => "0" +++ zeros n'
  end.

Definition pad_left (width : nat) (s : string) : string :=
  zeros (width - String.length s) +++ s.

(** [`${micros / Time.MicrosecondsInASecond}`] with
    [Time.MicrosecondsInASecond = 1_000_000]: the decimal expansion of
    [micros / 10^6] with at most six fractional digits and no trailing
    zeros.  For the microsecond timestamps of this era (below [2^33 * 10^6])
    the double nearest to the quotient prints as exactly this text;
    rounding of larger values is not modelled. *)
Definition MicrosecondsInASecond : Z := 1000000.

Definition seconds_text (micros : Z) : string :=
  let a := Z.abs micros in
  let whole := decimal (a / MicrosecondsInASecond) in
  let frac := a mod MicrosecondsInASecond in
  let unsigned :=
    if frac =? 0 then whole
    else whole +++ "." +++ strip_trailing_zeros (pad_left 6 (decimal frac)) in
  if micros <? 0 then "-" +++ unsigned else unsigned.

(** [Buffer.from(text, 'utf-8').toString('base64')] for ASCII text. *)
Definition base64_alphabet : list ascii :=
  list_ascii_of_string
    "ABCDEFGHIJKLMNOPQRSTUVWXYZabcdefghijklmnopqrstuvwxyz0123456789+/".

Definition base64_char (sextet : N) : ascii :=
  nth (N.to_nat sextet) base64_alphabet "="%char.

Fixpoint base64_encode_bytes (bytes : list N) : list ascii :=
  match bytes with
  | [] => []
  | [a] =>
      let n := N.shiftl a 16 in
      [base64_char (N.shiftr n 18);
       base64_char (N.land (N.shiftr n 12) 63);
       "="%char; "="%char]
  | [a; b] =>
      let n := N.lor (N.shiftl a 16) (N.shiftl b 8) in
      [base64_char (N.shiftr n 18);
       base64_char (N.land (N.shiftr n 12) 63);
       base64_char (N.land (N.shiftr n 6) 63);
       "="%char]
  | a :: b :: c :: rest =>
      let n := N.lor (N.lor (N.shiftl a 16) (N.shiftl b 8)) c in
      base64_char (N.shiftr n 18)
      :: base64_char (N.land (N.shiftr n 12) 63)
      :: base64_char (N.land (N.shiftr n 6) 63)
      :: base64_char (N.land n 63)
      :: base64_encode_bytes rest
  end.

Definition base64_encode (text : string) : string :=
  string_of_list_ascii
    (base64_encode_bytes (map N_of_ascii (list_ascii_of_string text))).

(** [s.split(':')]: always at least one part. *)
Fixpoint split_colon (s : string) : list string :=
  match s with
  | EmptyString => [""]
  | String c rest =>
      if Ascii.eqb c ":"%char then "" :: split_colon rest
      else
        match split_colon rest with
        | [] => [String c ""]
        | part :: parts => String c part :: parts
        end
  end.

(** [Buffer.from(token, 'base64').toString('utf-8')] on well-formed input;
    decoding stops at the padding or at the first foreign character. *)
Definition base64_index (c : ascii) : option N :=
  (fix position (alphabet : list ascii) (i : N) : option N :=
     match alphabet with
     | [] => None
     | x :: rest => if Ascii.eqb x c then Some i else position rest (i + 1)%N
     end) base64_alphabet 0%N.

Fixpoint base64_decode_chars (chars : list ascii) : list N :=
  match chars with
  | a :: b :: c :: d :: rest =>
      match base64_index a, base64_index b with
      | Some x, Some y =>
          let byte1 := (x * 4 + y / 16)%N in
          match base64_index c with
          | None => [byte1]
          | Some z =>
              let byte2 := ((y mod 16) * 16 + z / 4)%N in
              match base64_index d with
              | None => [byte1; byte2]
              | Some u =>
                  byte1 :: byte2 :: ((z mod 4) * 64 + u)%N
                  :: base64_decode_chars rest
              end
          end
      | _, _ => []
      end
  | _ => []
  end.

Definition base64_decode (token : string) : string :=
  string_of_list_ascii
    (map ascii_of_N (base64_decode_chars (list_ascii_of_string token))).

(** [+text * Time.MicrosecondsInASecond] for decimal text with at most six
    fractional digits; [None] is [NaN]. *)
Fixpoint split_dot (s : string) : string * string :=
  match s with
  | EmptyString => ("", "")
  | String c rest =>
      if Ascii.eqb c "."%char then ("", rest)
      else let '(whole, frac) := split_dot rest in (String c whole, frac)
  end.

Definition digits_value (s : string) : option Z :=
  match NilZero.uint_of_string s with
  | Some u => Some (Z.of_uint u)
  | None => None
  end.

Definition seconds_to_microseconds (text : option string) : option Z :=
  match text with
  | None => None
  | Some "" => Some 0
  | Some text =>
      let '(negative, unsigned) :=
        match text with
        | String "-" rest => (true, rest)
        | _ => (false, text)
        end in
      let '(whole, frac) := split_dot unsigned in
      match digits_value whole, digits_value (substring 0 6 (frac +++ "000000"))
      with
      | Some w, Some f =>
          let micros := w * MicrosecondsInASecond + f in
          Some (if negative : bool then - micros else micros)
      | _, _ => None
      end
  end.

End JS.

(** ** Collaborator calls, exceptions and [try]/[catch] *)

Module Effects.

(** What a call or a whole method comes back with: a value or an
    exception (its message). *)
Inductive Outcome (A : Type) : Type :=
| Returned (a : A)
| Thrown (message : string).
Arguments Returned {A} a.
Arguments Thrown {A} message.

Section Programs.
Context {Cmd : Type -> Type}.

(** A method body: it returns, throws, awaits a collaborator (an
    exception of the collaborator propagates unless caught), or runs a
    [try] block with its [catch] handler and the code after it. *)
Inductive Prog (A : Type) : Type :=
| Ret (a : A)
| Throw (message : string)
| Call (X : Type) (c : Cmd X) (k : X -> Prog A)
| TryCatch (B : Type) (body : Prog B) (handler : string -> Prog A)
           (k : B -> Prog A).
Arguments Ret {A} a.
Arguments Throw {A} message.
Arguments Call {A X} c k.
Arguments TryCatch {A B} body handler k.

Fixpoint bind {A B} (p : Prog A) (f : A -> Prog B) : Prog B :=
  match p with
  | Ret a => f a
  | Throw e => Throw e
  | Call c k => Call c (fun x => bind (k x) f)
  | TryCatch body handler k =>
      TryCatch body (fun e => bind (handler e) f) (fun b => bind (k b) f)
  end.

Definition call {X} (c : Cmd X) : Prog X := Call c Ret.

Definition lift {A} (o : Outcome A) : Prog A :=
  match o with
  | Returned a => Ret a
  | Thrown e => Throw e
  end.

(** [for (const x of xs) { body }] threading the loop's variables. *)
Fixpoint for_of {A S} (xs : list A) (body : A -> S -> Prog S) (s : S)
  : Prog S :=
  match xs with
  | [] => Ret s
  | x :: xs' => bind (body x s) (for_of xs' body)
  end.

(** A [for ... of] loop whose body may [return v] from the enclosing
    function: [Some v] leaves the loop, [None] goes on. *)
Fixpoint for_of_return {A R} (xs : list A) (body : A -> Prog (option R))
  : Prog (option R) :=
  match xs with
  | [] => Ret None
  | x :: xs' =>
      bind (body x)
        (fun returned =>
           match returned with
           | Some v => Ret (Some v)
           | None => for_of_return xs' body
           end)
  end.

(** A handler answers every call in a world [W]. *)
Definition Handler (W : Type) : Type :=
  forall X, Cmd X -> W -> Outcome X * W.

Fixpoint run {W A} (H : Handler W) (p : Prog A) (w : W)
  : Outcome A * W :=
  match p with
  | Ret a => (Returned a, w)
  | Throw e => (Thrown e, w)
  | Call c k =>
      match H _ c w with
      | (Returned x, w') => run H (k x) w'
      | (Thrown e, w') => (Thrown e, w')
      end
  | TryCatch body handler k =>
      match run H body w with
      | (Returned b, w') => run H (k b) w'
      | (Thrown e, w') => run H (handler e) w'
      end
  end.

(** One line of the call log: the call and its answer. *)
Record Entry : Type := entry {
  entry_type : Type;
  entry_cmd : Cmd entry_type;
  entry_outcome : Outcome entry_type
}.

(** The same handler, writing the log. *)
Definition logging {W} (H : Handler W) : Handler (W * list Entry) :=
  fun X c wl =>
    let '(o, w') := H X c (fst wl) in
    (o, (w', snd wl ++ [entry X c o])).

Definition exec {W A} (H : Handler W) (p : Prog A) (w : W)
  : Outcome A * (W * list Entry) :=
  run (logging H) p (w, []).

End Programs.

Arguments Prog Cmd A : clear implicits.
Arguments Entry Cmd : clear implicits.
Arguments Handler Cmd W : clear implicits.
Arguments Ret {Cmd A} a.
Arguments Throw {Cmd A} message.
Arguments Call {Cmd A X} c k.
Arguments TryCatch {Cmd A B} body handler k.

Declare Scope prog_scope.
Delimit Scope prog_scope with prog.
Notation "x <- p ;; q" := (bind p (fun x => q))
  (at level 61, p at next level, right associativity) : prog_scope.
Notation "p ;; q" := (bind p (fun _ => q))
  (at level 61, right associativity) : prog_scope.

End Effects.

(** ** Reading call logs *)

Module Logs.
Import Effects.

(** The entries of a log that [f] recognises, in order. *)
Definition collect {Cmd : Type -> Type} {A : Type}
  (f : Entry Cmd -> option A) (log : list (Entry Cmd)) : list A :=
  flat_map (fun e => match f e with Some a => [a] | None => [] end) log.

(** [p] issues no call outside [Q], whatever the collaborators answer. *)
Fixpoint issuesOnly {Cmd : Type -> Type} (Q : forall X, Cmd X -> Prop)
  {A : Type} (p : Prog Cmd A) : Prop :=
  match p with
  | Ret _ => True
  | Throw _ => True
  | Call c k => Q _ c /\ forall x, issuesOnly Q (k x)
  | TryCatch body handler k =>
      issuesOnly Q body
      /\ (forall e, issuesOnly Q (handler e))
      /\ (forall b, issuesOnly Q (k b))
  end.

(** Every call of the log is within [Q]. *)
Definition within {Cmd : Type -> Type} (Q : forall X, Cmd X -> Prop)
  (log : list (Entry Cmd)) : Prop :=
  Forall (fun e => Q (entry_type e) (entry_cmd e)) log.

End Logs.

(** ** ItemService *)

Module ItemService.
Import Effects.
Local Open Scope prog_scope.

(** *** Data model *)

(** The item entity, with the properties [ItemService] reads and writes.
    Dates ([createdAt], [updatedAt]) are the milliseconds a [Date] holds. *)
Module Item.
Record t : Type := make {
  uuid : string;
  userUuid : option string;
  content : option string;
  contentType : option string;
  contentSize : Z;
  encItemKey : option string;
  authHash : option string;
  itemsKeyId : option string;
  deleted : bool;
  duplicateOf : option string;
  lastEditedByUuid : option string;
  updatedWithSession : option string;
  sharedVaultUuid : option string;
  keySystemIdentifier : option string;
  createdAtTimestamp : Z;
  createdAt : Z;
  updatedAtTimestamp : Z;
  updatedAt : Z
}.

(** Assignments [item.field = v]. *)
Definition set_content (v : option string) (i : t) : t :=
  make (uuid i) (userUuid i) v (contentType i) (contentSize i)
    (encItemKey i) (authHash i) (itemsKeyId i) (deleted i)
    (duplicateOf i) (lastEditedByUuid i) (updatedWithSession i)
    (sharedVaultUuid i) (keySystemIdentifier i)
    (createdAtTimestamp i) (createdAt i) (updatedAtTimestamp i)
    (updatedAt i).
Definition set_contentType (v : option string) (i : t) : t :=
  make (uuid i) (userUuid i) (content i) v (contentSize i)
    (encItemKey i) (authHash i) (itemsKeyId i) (deleted i)
    (duplicateOf i) (lastEditedByUuid i) (updatedWithSession i)
    (sharedVaultUuid i) (keySystemIdentifier i)
    (createdAtTimestamp i) (createdAt i) (updatedAtTimestamp i)
    (updatedAt i).
Definition set_contentSize (v : Z) (i : t) : t :=
  make (uuid i) (userUuid i) (content i) (contentType i) v
    (encItemKey i) (authHash i) (itemsKeyId i) (deleted i)
    (duplicateOf i) (lastEditedByUuid i) (updatedWithSession i)
    (sharedVaultUuid i) (keySystemIdentifier i)
    (createdAtTimestamp i) (createdAt i) (updatedAtTimestamp i)
    (updatedAt i).
Definition set_encItemKey (v : option string) (i : t) : t :=
  make (uuid i) (userUuid i) (content i) (contentType i)
    (contentSize i) v (authHash i) (itemsKeyId i) (deleted i)
    (duplicateOf i) (lastEditedByUuid i) (updatedWithSession i)
    (sharedVaultUuid i) (keySystemIdentifier i)
    (createdAtTimestamp i) (createdAt i) (updatedAtTimestamp i)
    (updatedAt i).
Definition set_authHash (v : option string) (i : t) : t :=
  make (uuid i) (userUuid i) (content i) (contentType i)
    (contentSize i) (encItemKey i) v (itemsKeyId i) (deleted i)
    (duplicateOf i) (lastEditedByUuid i) (updatedWithSession i)
    (sharedVaultUuid i) (keySystemIdentifier i)
    (createdAtTimestamp i) (createdAt i) (updatedAtTimestamp i)
    (updatedAt i).
Definition set_itemsKeyId (v : option string) (i : t) : t :=
  make (uuid i) (userUuid i) (content i) (contentType i)
    (contentSize i) (encItemKey i) (authHash i) v (deleted i)
    (duplicateOf i) (lastEditedByUuid i) (updatedWithSession i)
    (sharedVaultUuid i) (keySystemIdentifier i)
    (createdAtTimestamp i) (createdAt i) (updatedAtTimestamp i)
    (updatedAt i).
Definition set_deleted (v : bool) (i : t) : t :=
  make (uuid i) (userUuid i) (content i) (contentType i)
    (contentSize i) (encItemKey i) (authHash i) (itemsKeyId i) v
    (duplicateOf i) (lastEditedByUuid i) (updatedWithSession i)
    (sharedVaultUuid i) (keySystemIdentifier i)
    (createdAtTimestamp i) (createdAt i) (updatedAtTimestamp i)
    (updatedAt i).
Definition set_duplicateOf (v : option string) (i : t) : t :=
  make (uuid i) (userUuid i) (content i) (contentType i)
    (contentSize i) (encItemKey i) (authHash i) (itemsKeyId i)
    (deleted i) v (lastEditedByUuid i) (updatedWithSession i)
    (sharedVaultUuid i) (keySystemIdentifier i)
    (createdAtTimestamp i) (createdAt i) (updatedAtTimestamp i)
    (updatedAt i).
Definition set_lastEditedByUuid (v : option string) (i : t) : t :=
  make (uuid i) (userUuid i) (content i) (contentType i)
    (contentSize i) (encItemKey i) (authHash i) (itemsKeyId i)
    (deleted i) (duplicateOf i) v (updatedWithSession i)
    (sharedVaultUuid i) (keySystemIdentifier i)
    (createdAtTimestamp i) (createdAt i) (updatedAtTimestamp i)
    (updatedAt i).
Definition set_updatedWithSession (v : option string) (i : t) : t :=
  make (uuid i) (userUuid i) (content i) (contentType i)
    (contentSize i) (encItemKey i) (authHash i) (itemsKeyId i)
    (deleted i) (duplicateOf i) (lastEditedByUuid i) v
    (sharedVaultUuid i) (keySystemIdentifier i)
    (createdAtTimestamp i) (createdAt i) (updatedAtTimestamp i)
    (updatedAt i).
Definition set_sharedVaultUuid (v : option string) (i : t) : t :=
  make (uuid i) (userUuid i) (content i) (contentType i)
    (contentSize i) (encItemKey i) (authHash i) (itemsKeyId i)
    (deleted i) (duplicateOf i) (lastEditedByUuid i)
    (updatedWithSession i) v (keySystemIdentifier i)
    (createdAtTimestamp i) (createdAt i) (updatedAtTimestamp i)
    (updatedAt i).
Definition set_keySystemIdentifier (v : option string) (i : t) : t :=
  make (uuid i) (userUuid i) (content i) (contentType i)
    (contentSize i) (encItemKey i) (authHash i) (itemsKeyId i)
    (deleted i) (duplicateOf i) (lastEditedByUuid i)
    (updatedWithSession i) (sharedVaultUuid i) v
    (createdAtTimestamp i) (createdAt i) (updatedAtTimestamp i)
    (updatedAt i).
Definition set_createdAtTimestamp (v : Z) (i : t) : t :=
  make (uuid i) (userUuid i) (content i) (contentType i)
    (contentSize i) (encItemKey i) (authHash i) (itemsKeyId i)
    (deleted i) (duplicateOf i) (lastEditedByUuid i)
    (updatedWithSession i) (sharedVaultUuid i)
    (keySystemIdentifier i) v (createdAt i) (updatedAtTimestamp i)
    (updatedAt i).
Definition set_createdAt (v : Z) (i : t) : t :=
  make (uuid i) (userUuid i) (content i) (contentType i)
    (contentSize i) (encItemKey i) (authHash i) (itemsKeyId i)
    (deleted i) (duplicateOf i) (lastEditedByUuid i)
    (updatedWithSession i) (sharedVaultUuid i)
    (keySystemIdentifier i) (createdAtTimestamp i) v
    (updatedAtTimestamp i) (updatedAt i).
Definition set_updatedAtTimestamp (v : Z) (i : t) : t :=
  make (uuid i) (userUuid i) (content i) (contentType i)
    (contentSize i) (encItemKey i) (authHash i) (itemsKeyId i)
    (deleted i) (duplicateOf i) (lastEditedByUuid i)
    (updatedWithSession i) (sharedVaultUuid i)
    (keySystemIdentifier i) (createdAtTimestamp i) (createdAt i) v
    (updatedAt i).
Definition set_updatedAt (v : Z) (i : t) : t :=
  make (uuid i) (userUuid i) (content i) (contentType i)
    (contentSize i) (encItemKey i) (authHash i) (itemsKeyId i)
    (deleted i) (duplicateOf i) (lastEditedByUuid i)
    (updatedWithSession i) (sharedVaultUuid i)
    (keySystemIdentifier i) (createdAtTimestamp i) (createdAt i)
    (updatedAtTimestamp i) v.
End Item.
Abbreviation Item := Item.t.

(** The client's upload shape.  A property the client left out is [None]. *)
Module ItemHash.
Record t : Type := make {
  uuid : string;
  content : option string;
  content_type : option string;
  deleted : option bool;
  duplicate_of : option string;
  auth_hash : option string;
  enc_item_key : option string;
  items_key_id : option string;
  key_system_identifier : option string;
  shared_vault_uuid : option string;
  created_at : option string;
  created_at_timestamp : option Z;
  updated_at : option string;
  updated_at_timestamp : option Z
}.
End ItemHash.
Abbreviation ItemHash := ItemHash.t.

Module ConflictType.
Inductive t : Type :=
| ConflictingData
| UuidConflict
| ContentTypeError
| ContentError
| ReadOnlyError
| UuidError
| SharedVaultPermissionError.
End ConflictType.

Record ItemConflict : Type := {
  unsavedItem : option ItemHash;
  serverItem : option Item;
  type : ConflictType.t
}.

Record ItemQuery : Type := {
  q_userUuid : option string;
  q_includeSharedVaultUuids : option (list string);
  q_exclusiveSharedVaultUuids : option (list string);
  q_lastSyncTime : option Z;
  q_syncTimeComparison : option string;
  q_contentType : option string;
  q_deleted : option bool;
  q_sortBy : option string;
  q_sortOrder : option string;
  q_offset : option Z;
  q_limit : option Z;
  q_uuids : option (list string)
}.

Record GetItemsDTO : Type := {
  g_userUuid : string;
  g_syncToken : option string;
  g_cursorToken : option string;
  g_limit : option Z;
  g_contentType : option string;
  g_sharedVaultUuids : option (list string)
}.

Record GetItemsResult : Type := {
  items : list Item;
  cursorToken : option string
}.

Record SaveItemsDTO : Type := {
  itemHashes : list ItemHash;
  s_userUuid : string;
  apiVersion : string;
  readOnlyAccess : bool;
  sessionUuid : option string;
  snjsVersion : string
}.

Record SaveItemsResult : Type := {
  savedItems : list Item;
  conflicts : list ItemConflict;
  syncToken : string
}.

Record ValidationDTO : Type := {
  v_userUuid : string;
  v_apiVersion : string;
  v_snjsVersion : string;
  v_itemHash : ItemHash;
  v_existingItem : option Item
}.

Record ItemSaveValidationResult : Type := {
  passed : bool;
  conflict : option ItemConflict;
  skipped : option Item
}.

Record SharedVaultUser : Type := {
  sv_userUuid : string;
  sv_sharedVaultUuid : string
}.

(** What [GetSaveOperation] answers: its [type] and, for the vault
    operations, the vault concerned. *)
Record SaveOperation : Type := {
  op_type : string;
  op_sharedVaultUuid : option string
}.

Inductive DomainEvent : Type :=
| ItemRevisionCreationRequested (itemUuid userUuid : string)
| DuplicateItemSynced (itemUuid userUuid : string).

Record NewItemDTO : Type := {
  n_userUuid : string;
  n_itemHash : ItemHash;
  n_sessionUuid : option string
}.

Record UserEventDTO : Type := {
  ue_userUuid : string;
  ue_itemUuid : string;
  ue_sharedVaultUuid : option string
}.

(** *** Collaborators *)

(** The awaited (or throwing) calls on injected collaborators. *)
Inductive Cmd : Type -> Type :=
| TimerGetTimestampInMicroseconds : Cmd Z
| ItemRepositoryFindByUuid (uuid : string) : Cmd (option Item)
| ItemRepositorySave (item : Item) : Cmd Item
| ItemRepositoryFindAll (query : ItemQuery) : Cmd (list Item)
| ItemRepositoryCountAll (query : ItemQuery) : Cmd Z
| ItemSaveValidatorValidate (dto : ValidationDTO)
  : Cmd ItemSaveValidationResult
| ItemFactoryCreate (dto : NewItemDTO) : Cmd Item
| DomainEventPublisherPublish (event : DomainEvent) : Cmd unit
| UserEventServiceRemoveUserEventsAfterItemIsAddedToSharedVault
    (dto : UserEventDTO) : Cmd unit
| UserEventServiceCreateItemRemovedFromSharedVaultUserEvent
    (dto : UserEventDTO) : Cmd unit
| SharedVaultUsersRepositoryFindAllForUser (userUuid : string)
  : Cmd (list SharedVaultUser)
| ItemTransferCalculatorComputeItemUuidsToFetch
    (query : ItemQuery) (bytesTransferLimit : Z) : Cmd (list string)
| LoggerError (message : string) : Cmd unit.

(** The service object: its constructor's plain values, and the pure
    functions it reaches through collaborators or imports defined outside
    [ItemService.ts] (the timer's conversions, the projector,
    [GetSaveOperation], [Buffer]'s base64 decoding and the number parsing
    of [getLastSyncTime]).  They are parameters of the model. *)
Record ItemService : Type := {
  revisionFrequency : Z;
  contentSizeTransferLimit : Z;
  maxItemsSyncLimit : Z;
  timer_convertMicrosecondsToSeconds : Z -> Z;
  timer_convertMicrosecondsToDate : Z -> Z;
  timer_convertStringDateToMicroseconds : string -> Z;
  timer_convertStringDateToDate : string -> Z;
  (** [Buffer.byteLength(JSON.stringify(itemProjector.projectFull(item)))] *)
  itemProjector_projectFull_byteLength : Item -> Z;
  GetSaveOperation : Item -> ItemHash -> string -> SaveOperation;
  (** [Buffer.from(token, 'base64').toString('utf-8')] *)
  Buffer_from_base64 : string -> string;
  (** [+part * Time.MicrosecondsInASecond]; [None] is [NaN] *)
  Number_times_MicrosecondsInASecond : option string -> option Z
}.

Definition DEFAULT_ITEMS_LIMIT : Z := 150.
Definition SYNC_TOKEN_VERSION : Z := 2.

Definition ContentType_Note : string := "Note".
Definition ContentType_File : string := "SN|File".
Definition ContentType_ItemsKey : string := "SN|ItemsKey".

(** [[ContentType.Note, ContentType.File].includes(contentType)] *)
Definition isNoteOrFile (contentType : option string) : bool :=
  match contentType with
  | Some c => (c =? ContentType_Note)%string || (c =? ContentType_File)%string
  | None => false
  end.

(** [Buffer.from(`${SYNC_TOKEN_VERSION}:${micros / 1e6}`, 'utf-8')
     .toString('base64')] *)
Definition encodeToken (micros : Z) : string :=
  JS.base64_encode
    (JS.decimal SYNC_TOKEN_VERSION +++ ":" +++ JS.seconds_text micros).

(** *** [getLastSyncTime] (lines 330-353) *)

(** [value === literal] for a value that may be [undefined]. *)
Definition option_is (value : option string) (literal : string) : bool :=
  match value with
  | Some v => (v =? literal)%string
  | None => false
  end.

Definition MissingVersionPart : string :=
  "Sync token is missing version part".

Definition getLastSyncTime (this : ItemService)
  (syncToken cursorToken : option string) : Outcome (option Z) :=
  let token :=
    match cursorToken with
    | Some c => Some c
    | None => syncToken
    end in
  if negb (JS.truthy_string token) then Returned None
  else
    let decodedToken :=
      Buffer_from_base64 this (match token with Some t => t | None => "" end) in
    let tokenParts := JS.split_colon decodedToken in
    let version := hd_error tokenParts in
    let tokenParts := tl tokenParts in
    (* switch (version) *)
    if option_is version "1" then
      Returned
        (Some (timer_convertStringDateToMicroseconds this
                 (String.concat ":" tokenParts)))
    else if option_is version "2" then
      Returned (Number_times_MicrosecondsInASecond this (hd_error tokenParts))
    else Thrown MissingVersionPart.

(** *** [getItems] (lines 48-97) *)

(** Line 51: [const limit = dto.limit === undefined || dto.limit < 1 ?
    this.DEFAULT_ITEMS_LIMIT : dto.limit]. *)
Definition limit (dto : GetItemsDTO) : Z :=
  match g_limit dto with
  | None => DEFAULT_ITEMS_LIMIT
  | Some l => if l <? 1 then DEFAULT_ITEMS_LIMIT else l
  end.

(** Line 52: [const upperBoundLimit = limit < this.maxItemsSyncLimit ? limit :
    this.maxItemsSyncLimit]. *)
Definition upperBoundLimit (this : ItemService) (dto : GetItemsDTO) : Z :=
  if limit dto <? maxItemsSyncLimit this then limit dto
  else maxItemsSyncLimit this.

(** Lines 60-71: the query handed to the transfer calculator and to
    [countAll]. *)
Definition itemQuery (this : ItemService) (dto : GetItemsDTO)
  (lastSyncTime : option Z) (sharedVaultUsers : list SharedVaultUser)
  : ItemQuery :=
  let syncTimeComparison :=
    if JS.truthy_string (g_cursorToken dto) then ">=" else ">" in
  let userSharedVaultUuids := map sv_sharedVaultUuid sharedVaultUsers in
  let exclusiveSharedVaultUuids :=
    match g_sharedVaultUuids dto with
    | Some requested =>
        Some (filter
                (fun sharedVaultUuid =>
                   existsb (String.eqb sharedVaultUuid) userSharedVaultUuids)
                requested)
    | None => None
    end in
  {| q_userUuid := Some (g_userUuid dto);
     q_includeSharedVaultUuids :=
       match g_sharedVaultUuids dto with
       | None => Some userSharedVaultUuids
       | Some _ => None
       end;
     q_exclusiveSharedVaultUuids := exclusiveSharedVaultUuids;
     q_lastSyncTime := lastSyncTime;
     q_syncTimeComparison := Some syncTimeComparison;
     q_contentType := g_contentType dto;
     q_deleted := if JS.truthy_number lastSyncTime then None else Some false;
     q_sortBy := Some "updated_at_timestamp";
     q_sortOrder := Some "ASC";
     q_offset := None;
     q_limit := Some (upperBoundLimit this dto);
     q_uuids := None |}.

(** Lines 79-83: the query that hydrates the selected uuids. *)
Definition hydrationQuery (itemUuidsToFetch : list string) : ItemQuery :=
  {| q_userUuid := None;
     q_includeSharedVaultUuids := None;
     q_exclusiveSharedVaultUuids := None;
     q_lastSyncTime := None;
     q_syncTimeComparison := None;
     q_contentType := None;
     q_deleted := None;
     q_sortBy := Some "updated_at_timestamp";
     q_sortOrder := Some "ASC";
     q_offset := None;
     q_limit := None;
     q_uuids := Some itemUuidsToFetch |}.

(** Reading [.updatedAtTimestamp] off [undefined]. *)
Definition TypeError_updatedAtTimestamp : string :=
  "Cannot read properties of undefined (reading 'updatedAtTimestamp')".

Definition getItems (this : ItemService) (dto : GetItemsDTO)
  : Prog Cmd GetItemsResult :=
  lastSyncTime <- lift (getLastSyncTime this (g_syncToken dto)
                          (g_cursorToken dto)) ;;
  sharedVaultUsers <-
    call (SharedVaultUsersRepositoryFindAllForUser (g_userUuid dto)) ;;
  let itemQuery := itemQuery this dto lastSyncTime sharedVaultUsers in
  itemUuidsToFetch <-
    call (ItemTransferCalculatorComputeItemUuidsToFetch itemQuery
            (contentSizeTransferLimit this)) ;;
  items <-
    (if (0 <? List.length itemUuidsToFetch)%nat
     then call (ItemRepositoryFindAll (hydrationQuery itemUuidsToFetch))
     else Ret []) ;;
  totalItemsCount <- call (ItemRepositoryCountAll itemQuery) ;;
  cursorToken <-
    (if totalItemsCount >? upperBoundLimit this dto
     then
       match JS.last_element items with
       | None => Throw TypeError_updatedAtTimestamp
       | Some lastItem =>
           Ret (Some (encodeToken (Item.updatedAtTimestamp lastItem)))
       end
     else Ret None) ;;
  Ret {| items := items; cursorToken := cursorToken |}.

(** *** [calculateSyncToken] (lines 189-205) *)

(** The comparator of line 191. *)
Definition byUpdatedAtTimestamp (itemA itemB : Item) : Z :=
  if Item.updatedAtTimestamp itemA >? Item.updatedAtTimestamp itemB
  then 1 else -1.

(** [savedItems.sort(...)] sorts the caller's array in place and
    [sortedItems] is that same array, so the function is modelled as
    returning the token together with the contents of [savedItems] after
    the call.  The [None] branch (last element of a non-empty sorted array)
    cannot be reached. *)
Definition calculateSyncToken (lastUpdatedTimestamp : Z)
  (savedItems : list Item) : string * list Item :=
  let '(lastUpdatedTimestamp, savedItems) :=
    if (0 <? List.length savedItems)%nat then
      let sortedItems := JS.sort byUpdatedAtTimestamp savedItems in
      (match JS.last_element sortedItems with
       | Some lastItem => Item.updatedAtTimestamp lastItem
       | None => lastUpdatedTimestamp
       end, sortedItems)
    else (lastUpdatedTimestamp, savedItems) in
  let lastUpdatedTimestampWithMicrosecondPreventingSyncDoubles :=
    lastUpdatedTimestamp + 1 in
  (encodeToken lastUpdatedTimestampWithMicrosecondPreventingSyncDoubles,
   savedItems).

(** *** [updateExistingItem] (lines 207-308) *)

Definition publishWhen (condition : bool) (event : DomainEvent)
  : Prog Cmd unit :=
  if condition then call (DomainEventPublisherPublish event) else Ret tt.

(** Lines 219-248: the assignments made before the clock is read; the
    boolean is [wasMarkedAsDuplicate]. *)
Definition assignFromItemHash (existingItem : Item) (itemHash : ItemHash)
  (userUuid : string) (sessionUuid : option string) : bool * Item :=
  (* lines 219-223 *)
  let existingItem := Item.set_updatedWithSession sessionUuid existingItem in
  let existingItem := Item.set_contentSize 0 existingItem in
  let existingItem := Item.set_lastEditedByUuid (Some userUuid) existingItem in
  let existingItem :=
    Item.set_keySystemIdentifier (ItemHash.key_system_identifier itemHash)
      existingItem in
  let existingItem :=
    Item.set_sharedVaultUuid (ItemHash.shared_vault_uuid itemHash)
      existingItem in
  (* lines 225-233 *)
  let existingItem :=
    if JS.truthy_string (ItemHash.content itemHash)
    then Item.set_content (ItemHash.content itemHash) existingItem
    else existingItem in
  let existingItem :=
    if JS.truthy_string (ItemHash.content_type itemHash)
    then Item.set_contentType (ItemHash.content_type itemHash) existingItem
    else existingItem in
  let existingItem :=
    match ItemHash.deleted itemHash with
    | Some deleted => Item.set_deleted deleted existingItem
    | None => existingItem
    end in
  (* lines 235-248 *)
  let '(wasMarkedAsDuplicate, existingItem) :=
    if JS.truthy_string (ItemHash.duplicate_of itemHash)
    then (negb (JS.truthy_string (Item.duplicateOf existingItem)),
          Item.set_duplicateOf (ItemHash.duplicate_of itemHash) existingItem)
    else (false, existingItem) in
  let existingItem :=
    if JS.truthy_string (ItemHash.auth_hash itemHash)
    then Item.set_authHash (ItemHash.auth_hash itemHash) existingItem
    else existingItem in
  let existingItem :=
    if JS.truthy_string (ItemHash.enc_item_key itemHash)
    then Item.set_encItemKey (ItemHash.enc_item_key itemHash) existingItem
    else existingItem in
  let existingItem :=
    if JS.truthy_string (ItemHash.items_key_id itemHash)
    then Item.set_itemsKeyId (ItemHash.items_key_id itemHash) existingItem
    else existingItem in
  (wasMarkedAsDuplicate, existingItem).

(** Lines 255-275: the assignments made once [updatedAt] is known, up to
    the call of [itemRepository.save]. *)
Definition stampAndSize (this : ItemService) (existingItem : Item)
  (itemHash : ItemHash) (updatedAt : Z) : Item :=
  (* lines 255-261 *)
  let existingItem :=
    if JS.truthy_number (ItemHash.created_at_timestamp itemHash) then
      let created_at_timestamp :=
        JS.the_number (ItemHash.created_at_timestamp itemHash) in
      Item.set_createdAt
        (timer_convertMicrosecondsToDate this created_at_timestamp)
        (Item.set_createdAtTimestamp created_at_timestamp existingItem)
    else if JS.truthy_string (ItemHash.created_at itemHash) then
      let created_at := JS.the_string (ItemHash.created_at itemHash) in
      Item.set_createdAt (timer_convertStringDateToDate this created_at)
        (Item.set_createdAtTimestamp
           (timer_convertStringDateToMicroseconds this created_at)
           existingItem)
    else existingItem in
  (* lines 263-266 *)
  let existingItem := Item.set_updatedAtTimestamp updatedAt existingItem in
  let existingItem :=
    Item.set_updatedAt (timer_convertMicrosecondsToDate this updatedAt)
      existingItem in
  let existingItem :=
    Item.set_contentSize
      (itemProjector_projectFull_byteLength this existingItem) existingItem in
  (* lines 268-275 *)
  match ItemHash.deleted itemHash with
  | Some true =>
      let existingItem := Item.set_deleted true existingItem in
      let existingItem := Item.set_content None existingItem in
      let existingItem := Item.set_contentSize 0 existingItem in
      let existingItem := Item.set_encItemKey None existingItem in
      let existingItem := Item.set_authHash None existingItem in
      Item.set_itemsKeyId None existingItem
  | _ => existingItem
  end.

Definition updateExistingItem (this : ItemService) (existingItem : Item)
  (itemHash : ItemHash) (userUuid : string) (sessionUuid : option string)
  : Prog Cmd Item :=
  (* lines 213-217 *)
  let saveOperation := GetSaveOperation this existingItem itemHash userUuid in
  (* lines 219-248 *)
  let '(wasMarkedAsDuplicate, existingItem) :=
    assignFromItemHash existingItem itemHash userUuid sessionUuid in
  (* lines 250-253 *)
  updatedAt <- call TimerGetTimestampInMicroseconds ;;
  let secondsFromLastUpdate :=
    timer_convertMicrosecondsToSeconds this
      (updatedAt - Item.updatedAtTimestamp existingItem) in
  (* lines 255-275 *)
  let existingItem := stampAndSize this existingItem itemHash updatedAt in
  (* line 277 *)
  savedItem <- call (ItemRepositorySave existingItem) ;;
  (* lines 279-291 *)
  publishWhen
    ((secondsFromLastUpdate >=? revisionFrequency this)
     && (isNoteOrFile (Item.contentType savedItem)
         && JS.truthy_string (Item.userUuid savedItem)))
    (ItemRevisionCreationRequested (Item.uuid savedItem)
       (JS.the_string (Item.userUuid savedItem))) ;;
  publishWhen
    (wasMarkedAsDuplicate && JS.truthy_string (Item.userUuid savedItem))
    (DuplicateItemSynced (Item.uuid savedItem)
       (JS.the_string (Item.userUuid savedItem))) ;;
  (* lines 293-305 *)
  (if (op_type saveOperation =? "add-to-shared-vault")%string then
     call (UserEventServiceRemoveUserEventsAfterItemIsAddedToSharedVault
             {| ue_userUuid := userUuid;
                ue_itemUuid := Item.uuid savedItem;
                ue_sharedVaultUuid := op_sharedVaultUuid saveOperation |})
   else if (op_type saveOperation =? "remove-from-shared-vault")%string then
     call (UserEventServiceCreateItemRemovedFromSharedVaultUserEvent
             {| ue_userUuid := userUuid;
                ue_itemUuid := Item.uuid savedItem;
                ue_sharedVaultUuid := op_sharedVaultUuid saveOperation |})
   else Ret tt) ;;
  Ret savedItem.

(** *** [saveNewItem] (lines 310-328) *)

Definition saveNewItem (this : ItemService) (userUuid : string)
  (itemHash : ItemHash) (sessionUuid : option string) : Prog Cmd Item :=
  newItem <- call (ItemFactoryCreate {| n_userUuid := userUuid;
                                        n_itemHash := itemHash;
                                        n_sessionUuid := sessionUuid |}) ;;
  savedItem <- call (ItemRepositorySave newItem) ;;
  publishWhen
    (isNoteOrFile (Item.contentType savedItem)
     && JS.truthy_string (Item.userUuid savedItem))
    (ItemRevisionCreationRequested (Item.uuid savedItem)
       (JS.the_string (Item.userUuid savedItem))) ;;
  publishWhen
    (JS.truthy_string (Item.duplicateOf savedItem)
     && JS.truthy_string (Item.userUuid savedItem))
    (DuplicateItemSynced (Item.uuid savedItem)
       (JS.the_string (Item.userUuid savedItem))) ;;
  Ret savedItem.

(** *** [saveItems] (lines 99-168) *)

(** One turn of the [for] loop of lines 105-159, on the two arrays the loop
    pushes to. *)
Definition saveItems_iteration (this : ItemService) (dto : SaveItemsDTO)
  (itemHash : ItemHash) (arrays : list Item * list ItemConflict)
  : Prog Cmd (list Item * list ItemConflict) :=
  let '(savedItems, conflicts) := arrays in
  existingItem <- call (ItemRepositoryFindByUuid (ItemHash.uuid itemHash)) ;;
  if readOnlyAccess dto then
    Ret (savedItems,
         conflicts ++ [{| unsavedItem := Some itemHash;
                          serverItem := existingItem;
                          type := ConflictType.ReadOnlyError |}])
  else
    processingResult <-
      call (ItemSaveValidatorValidate
              {| v_userUuid := s_userUuid dto;
                 v_apiVersion := apiVersion dto;
                 v_snjsVersion := snjsVersion dto;
                 v_itemHash := itemHash;
                 v_existingItem := existingItem |}) ;;
    if negb (passed processingResult) then
      let conflicts :=
        match conflict processingResult with
        | Some c => conflicts ++ [c]
        | None => conflicts
        end in
      let savedItems :=
        match skipped processingResult with
        | Some item => savedItems ++ [item]
        | None => savedItems
        end in
      Ret (savedItems, conflicts)
    else
      match existingItem with
      | Some existingItem =>
          updatedItem <-
            updateExistingItem this existingItem itemHash (s_userUuid dto)
              (sessionUuid dto) ;;
          Ret (savedItems ++ [updatedItem], conflicts)
      | None =>
          TryCatch
            (saveNewItem this (s_userUuid dto) itemHash (sessionUuid dto))
            (fun error =>
               call (LoggerError
                       ("[" +++ s_userUuid dto +++ "] Saving item "
                        +++ ItemHash.uuid itemHash +++ " failed. Error: "
                        +++ error)) ;;
               Ret (savedItems,
                    conflicts ++ [{| unsavedItem := Some itemHash;
                                     serverItem := None;
                                     type := ConflictType.UuidConflict |}]))
            (fun newItem => Ret (savedItems ++ [newItem], conflicts))
      end.

Definition saveItems (this : ItemService) (dto : SaveItemsDTO)
  : Prog Cmd SaveItemsResult :=
  lastUpdatedTimestamp <- call TimerGetTimestampInMicroseconds ;;
  arrays <- for_of (itemHashes dto) (saveItems_iteration this dto) ([], []) ;;
  let '(savedItems, conflicts) := arrays in
  let '(syncToken, savedItems) :=
    calculateSyncToken lastUpdatedTimestamp savedItems in
  Ret {| savedItems := savedItems;
         conflicts := conflicts;
         syncToken := syncToken |}.

(** *** [frontLoadKeysItemsToTop] (lines 170-187) *)

Definition itemsKeyQuery (userUuid : string) : ItemQuery :=
  {| q_userUuid := Some userUuid;
     q_includeSharedVaultUuids := None;
     q_exclusiveSharedVaultUuids := None;
     q_lastSyncTime := None;
     q_syncTimeComparison := None;
     q_contentType := Some ContentType_ItemsKey;
     q_deleted := None;
     q_sortBy := Some "updated_at_timestamp";
     q_sortOrder := Some "ASC";
     q_offset := None;
     q_limit := None;
     q_uuids := None |}.

Definition frontLoadKeysItemsToTop (userUuid : string)
  (retrievedItems : list Item) : Prog Cmd (list Item) :=
  itemsKeys <- call (ItemRepositoryFindAll (itemsKeyQuery userUuid)) ;;
  let retrievedItemsIds := map Item.uuid retrievedItems in
  Ret (fold_left
         (fun retrievedItems itemKey =>
            if existsb (String.eqb (Item.uuid itemKey)) retrievedItemsIds
            then retrievedItems
            else itemKey :: retrievedItems)
         itemsKeys retrievedItems).

(** *** In-memory collaborators

    The repository, the transfer calculator, the save validator, the item
    factory and [GetSaveOperation] are interfaces or imports of
    [ItemService], implemented outside [ItemService.ts].  The definitions
    below give each of them the behaviour the specification describes, over
    a world made of a table of items, a clock and the collaborators'
    outboxes.  They serve for concrete runs, and for the one property that
    depends on what the calculator selects. *)

Module InMemory.

Record World : Type := {
  now : Z;
  rows : list Item;
  sharedVaultUsers : list SharedVaultUser;
  published : list DomainEvent;
  userEventsRemoved : list UserEventDTO;
  userEventsCreated : list UserEventDTO;
  errors : list string;
  (** uuids whose write the store rejects *)
  unwritable : list string
}.

Definition set_now (v : Z) (w : World) : World :=
  {| now := v; rows := rows w; sharedVaultUsers := sharedVaultUsers w;
     published := published w; userEventsRemoved := userEventsRemoved w;
     userEventsCreated := userEventsCreated w; errors := errors w;
     unwritable := unwritable w |}.

Definition set_rows (v : list Item) (w : World) : World :=
  {| now := now w; rows := v; sharedVaultUsers := sharedVaultUsers w;
     published := published w; userEventsRemoved := userEventsRemoved w;
     userEventsCreated := userEventsCreated w; errors := errors w;
     unwritable := unwritable w |}.

Definition set_published (v : list DomainEvent) (w : World) : World :=
  {| now := now w; rows := rows w; sharedVaultUsers := sharedVaultUsers w;
     published := v; userEventsRemoved := userEventsRemoved w;
     userEventsCreated := userEventsCreated w; errors := errors w;
     unwritable := unwritable w |}.

Definition set_userEventsRemoved (v : list UserEventDTO) (w : World)
  : World :=
  {| now := now w; rows := rows w; sharedVaultUsers := sharedVaultUsers w;
     published := published w; userEventsRemoved := v;
     userEventsCreated := userEventsCreated w; errors := errors w;
     unwritable := unwritable w |}.

Definition set_userEventsCreated (v : list UserEventDTO) (w : World)
  : World :=
  {| now := now w; rows := rows w; sharedVaultUsers := sharedVaultUsers w;
     published := published w; userEventsRemoved := userEventsRemoved w;
     userEventsCreated := v; errors := errors w;
     unwritable := unwritable w |}.

Definition set_errors (v : list string) (w : World) : World :=
  {| now := now w; rows := rows w; sharedVaultUsers := sharedVaultUsers w;
     published := published w; userEventsRemoved := userEventsRemoved w;
     userEventsCreated := userEventsCreated w; errors := v;
     unwritable := unwritable w |}.

Definition member (s : string) (l : list string) : bool :=
  existsb (String.eqb s) l.

Definition option_string_eqb (a b : option string) : bool :=
  match a, b with
  | Some a, Some b => (a =? b)%string
  | None, None => true
  | _, _ => false
  end.

(** Modelled from the spec: the item repository's filters (section 4.5:
    [user_uuid], [content_type], [deleted], [include_shared_vault_uuids],
    [exclusive_shared_vault_uuids], [uuids], [last_sync_time] with its
    comparator).  Included vaults widen the user's own items; exclusive
    vaults replace them. *)
Definition matches (q : ItemQuery) (item : Item) : bool :=
  let inVaults vaults :=
    match Item.sharedVaultUuid item with
    | Some v => member v vaults
    | None => false
    end in
  let ownedBy :=
    match q_userUuid q with
    | Some u => option_string_eqb (Item.userUuid item) (Some u)
    | None => true
    end in
  (match q_exclusiveSharedVaultUuids q, q_includeSharedVaultUuids q with
   | Some vaults, _ => inVaults vaults
   | None, Some vaults => ownedBy || inVaults vaults
   | None, None => ownedBy
   end)
  && (match q_uuids q with
      | Some uuids => member (Item.uuid item) uuids
      | None => true
      end)
  && (match q_deleted q with
      | Some d => Bool.eqb (Item.deleted item) d
      | None => true
      end)
  && (match q_contentType q with
      | Some c => option_string_eqb (Item.contentType item) (Some c)
      | None => true
      end)
  && (match q_lastSyncTime q, q_syncTimeComparison q with
      | Some t, Some cmp =>
          if (cmp =? ">=")%string then Item.updatedAtTimestamp item >=? t
          else Item.updatedAtTimestamp item >? t
      | _, _ => true
      end).

(** Modelled from the spec: the repository's sort keys
    ([created_at_timestamp] or [updated_at_timestamp], section 4.5). *)
Definition sortKey (q : ItemQuery) (item : Item) : Z :=
  if option_is (q_sortBy q) "created_at_timestamp"
  then Item.createdAtTimestamp item
  else Item.updatedAtTimestamp item.

(** Modelled from the spec: the order of two rows, by sort key and then by
    uuid (section 5, ordering guarantees). *)
Definition precedes (q : ItemQuery) (a b : Item) : bool :=
  (sortKey q a <? sortKey q b)
  || ((sortKey q a =? sortKey q b) && String.leb (Item.uuid a) (Item.uuid b)).

(** Modelled from the spec: the repository's [ORDER BY], as insertion of
    one row into the rows already ordered. *)
Fixpoint place (q : ItemQuery) (item : Item) (sorted : list Item)
  : list Item :=
  match sorted with
  | [] => [item]
  | e :: rest =>
      if precedes q item e then item :: e :: rest
      else e :: place q item rest
  end.

(** Modelled from the spec: the repository's [ORDER BY] with its
    direction. *)
Definition ordered (q : ItemQuery) (l : list Item) : list Item :=
  let ascending := fold_right (place q) [] l in
  if option_is (q_sortOrder q) "DESC" then rev ascending else ascending.

(** Modelled from the spec: the repository's [offset] and [limit]. *)
Definition paged (q : ItemQuery) (l : list Item) : list Item :=
  let skipped :=
    match q_offset q with
    | Some offset => skipn (Z.to_nat offset) l
    | None => l
    end in
  match q_limit q with
  | Some limit => firstn (Z.to_nat limit) skipped
  | None => skipped
  end.

(** Modelled from the spec: [find_all] of section 4.5. *)
Definition findAll (q : ItemQuery) (table : list Item) : list Item :=
  paged q (ordered q (filter (matches q) table)).

(** Modelled from the spec: [count_all], the same filters without order or
    limit. *)
Definition countAll (q : ItemQuery) (table : list Item) : Z :=
  Z.of_nat (List.length (filter (matches q) table)).

(** Modelled from the spec: the walk of the transfer calculator (section
    4.2) over the [(uuid, content_size)] projection of the query, after the
    first item: items are included while the running total stays within
    the budget. *)
Fixpoint whileWithinBudget (stream : list (string * Z)) (total budget : Z)
  : list string :=
  match stream with
  | [] => []
  | (uuid, size) :: rest =>
      if total + size <=? budget
      then uuid :: whileWithinBudget rest (total + size) budget
      else []
  end.

(** Modelled from the spec: [computeItemUuidsToFetch] of the transfer
    calculator (section 4.2): if the first item alone exceeds the budget it
    is included and the walk stops; otherwise items are included while the
    running total stays within the budget. *)
Definition computeItemUuidsToFetch (q : ItemQuery) (bytesTransferLimit : Z)
  (table : list Item) : list string :=
  let stream :=
    map (fun item => (Item.uuid item, Item.contentSize item))
      (findAll q table) in
  match stream with
  | [] => []
  | (uuid, size) :: rest =>
      if size >? bytesTransferLimit then [uuid]
      else uuid :: whileWithinBudget rest size bytesTransferLimit
  end.

(** Modelled from the spec: the save validator of section 4.3, with the
    rules the specification spells out.  A write based on a stale read is a
    sync conflict; a hash that re-sends what the server already holds is
    skipped with the stored item; everything else passes. *)
Definition validate (dto : ValidationDTO) : ItemSaveValidationResult :=
  let pass := {| passed := true; conflict := None; skipped := None |} in
  match v_existingItem dto with
  | None => pass
  | Some existing =>
      let hash := v_itemHash dto in
      let stale :=
        match ItemHash.updated_at_timestamp hash with
        | Some t => negb (t =? Item.updatedAtTimestamp existing)
        | None => false
        end in
      let alreadyApplied :=
        option_string_eqb (ItemHash.content hash) (Item.content existing)
        && match ItemHash.deleted hash with
           | Some d => Bool.eqb d (Item.deleted existing)
           | None => true
           end in
      if stale then
        {| passed := false;
           conflict := Some {| unsavedItem := Some hash;
                               serverItem := Some existing;
                               type := ConflictType.ConflictingData |};
           skipped := None |}
      else if alreadyApplied then
        {| passed := false; conflict := None; skipped := Some existing |}
      else pass
  end.

(** Modelled from the spec: [GetSaveOperation], step 4 of section 4.4.2. *)
Definition getSaveOperation (existingItem : Item) (itemHash : ItemHash)
  (userUuid : string) : SaveOperation :=
  match Item.sharedVaultUuid existingItem, ItemHash.shared_vault_uuid itemHash
  with
  | None, Some v =>
      {| op_type := "add-to-shared-vault"; op_sharedVaultUuid := Some v |}
  | Some v, None =>
      {| op_type := "remove-from-shared-vault";
         op_sharedVaultUuid := Some v |}
  | Some v, Some v' =>
      if (v =? v')%string
      then {| op_type := "noop-in-vault"; op_sharedVaultUuid := Some v |}
      else {| op_type := "remove-from-shared-vault";
              op_sharedVaultUuid := Some v |}
  | None, None => {| op_type := "update"; op_sharedVaultUuid := None |}
  end.

(** Modelled from the spec: the item factory, step 6 of section 4.4.2 (a
    new item with server-assigned timestamps unless the hash supplied
    [created_at_timestamp]) and invariant 2 of section 3 for tombstones. *)
Definition create (this : ItemService) (timestamp : Z) (dto : NewItemDTO)
  : Item :=
  let hash := n_itemHash dto in
  let createdAtTimestamp :=
    if JS.truthy_number (ItemHash.created_at_timestamp hash)
    then JS.the_number (ItemHash.created_at_timestamp hash)
    else timestamp in
  let tombstone :=
    match ItemHash.deleted hash with Some true => true | _ => false end in
  let fresh :=
    Item.make (ItemHash.uuid hash) (Some (n_userUuid dto))
      (if tombstone then None else ItemHash.content hash)
      (ItemHash.content_type hash) 0
      (if tombstone then None else ItemHash.enc_item_key hash)
      (if tombstone then None else ItemHash.auth_hash hash)
      (if tombstone then None else ItemHash.items_key_id hash)
      tombstone (ItemHash.duplicate_of hash) (Some (n_userUuid dto))
      (n_sessionUuid dto) (ItemHash.shared_vault_uuid hash)
      (ItemHash.key_system_identifier hash) createdAtTimestamp
      (timer_convertMicrosecondsToDate this createdAtTimestamp) timestamp
      (timer_convertMicrosecondsToDate this timestamp) in
  if tombstone then fresh
  else Item.set_contentSize
         (itemProjector_projectFull_byteLength this fresh) fresh.

(** Upsert by uuid. *)
Fixpoint upsert (item : Item) (table : list Item) : list Item :=
  match table with
  | [] => [item]
  | row :: rest =>
      if (Item.uuid row =? Item.uuid item)%string then item :: rest
      else row :: upsert item rest
  end.

Definition findByUuid (uuid : string) (table : list Item) : option Item :=
  find (fun row => (Item.uuid row =? uuid)%string) table.

(** The collaborators' answers.  The clock is monotonic: every reading is
    one microsecond after the previous one. *)
Definition handle (this : ItemService) : Handler Cmd World :=
  fun X c w =>
    match c in Cmd X return Outcome X * World with
    | TimerGetTimestampInMicroseconds =>
        (Returned (now w), set_now (now w + 1) w)
    | ItemRepositoryFindByUuid uuid =>
        (Returned (findByUuid uuid (rows w)), w)
    | ItemRepositorySave item =>
        if member (Item.uuid item) (unwritable w)
        then (Thrown "ER_LOCK_WAIT_TIMEOUT", w)
        else (Returned item, set_rows (upsert item (rows w)) w)
    | ItemRepositoryFindAll q => (Returned (findAll q (rows w)), w)
    | ItemRepositoryCountAll q => (Returned (countAll q (rows w)), w)
    | ItemSaveValidatorValidate dto => (Returned (validate dto), w)
    | ItemFactoryCreate dto =>
        (Returned (create this (now w) dto), set_now (now w + 1) w)
    | DomainEventPublisherPublish event =>
        (Returned tt, set_published (published w ++ [event]) w)
    | UserEventServiceRemoveUserEventsAfterItemIsAddedToSharedVault dto =>
        (Returned tt, set_userEventsRemoved (userEventsRemoved w ++ [dto]) w)
    | UserEventServiceCreateItemRemovedFromSharedVaultUserEvent dto =>
        (Returned tt, set_userEventsCreated (userEventsCreated w ++ [dto]) w)
    | SharedVaultUsersRepositoryFindAllForUser userUuid =>
        (Returned
           (filter (fun u => (sv_userUuid u =? userUuid)%string)
              (sharedVaultUsers w)), w)
    | ItemTransferCalculatorComputeItemUuidsToFetch q bytesTransferLimit =>
        (Returned (computeItemUuidsToFetch q bytesTransferLimit (rows w)), w)
    | LoggerError message => (Returned tt, set_errors (errors w ++ [message]) w)
    end.

End InMemory.

(** *** Reading the call log *)

(** The items handed to [itemRepository.save], in order. *)
Definition savedArgument (e : Entry Cmd) : option Item :=
  match entry_cmd e with
  | ItemRepositorySave item => Some item
  | _ => None
  end.

Fixpoint savesOf (log : list (Entry Cmd)) : list Item :=
  match log with
  | [] => []
  | e :: rest =>
      match savedArgument e with
      | Some item => item :: savesOf rest
      | None => savesOf rest
      end
  end.

(** The answer of [itemRepository.countAll], with the query asked. *)
Definition countAnswer (e : Entry Cmd) : option (ItemQuery * Z) :=
  match e with
  | entry _ (ItemRepositoryCountAll q) (Returned total) => Some (q, total)
  | _ => None
  end.

Fixpoint countsOf (log : list (Entry Cmd)) : list (ItemQuery * Z) :=
  match log with
  | [] => []
  | e :: rest =>
      match countAnswer e with
      | Some a => a :: countsOf rest
      | None => countsOf rest
      end
  end.

(** The item queries sent to the transfer calculator and to [countAll]. *)
Definition itemQueryAsked (e : Entry Cmd) : option ItemQuery :=
  match entry_cmd e with
  | ItemTransferCalculatorComputeItemUuidsToFetch q _ => Some q
  | ItemRepositoryCountAll q => Some q
  | _ => None
  end.

Fixpoint itemQueriesOf (log : list (Entry Cmd)) : list ItemQuery :=
  match log with
  | [] => []
  | e :: rest =>
      match itemQueryAsked e with
      | Some q => q :: itemQueriesOf rest
      | None => itemQueriesOf rest
      end
  end.

(** The uuids looked up with [itemRepository.findByUuid], in order. *)
Definition lookedUp (e : Entry Cmd) : option string :=
  match entry_cmd e with
  | ItemRepositoryFindByUuid uuid => Some uuid
  | _ => None
  end.

Fixpoint lookupsOf (log : list (Entry Cmd)) : list string :=
  match log with
  | [] => []
  | e :: rest =>
      match lookedUp e with
      | Some uuid => uuid :: lookupsOf rest
      | None => lookupsOf rest
      end
  end.


(** The largest [updatedAtTimestamp] of a list of items, over [floor]. *)
Definition latestUpdate (floor : Z) (l : list Item) : Z :=
  fold_right (fun item latest => Z.max (Item.updatedAtTimestamp item) latest)
    floor l.

(** The timestamp [calculateSyncToken] starts from: the largest
    [updatedAtTimestamp] among the saved items, or the request-start
    timestamp when nothing was saved. *)
Definition newest (requestStart : Z) (saved : list Item) : Z :=
  match saved with
  | [] => requestStart
  | item :: rest => latestUpdate (Item.updatedAtTimestamp item) rest
  end.

(** Ascending order of [updatedAtTimestamp]. *)
Definition upTo (a b : Item) : Prop :=
  Item.updatedAtTimestamp a <= Item.updatedAtTimestamp b.

(** What an update leaves alone: a property the hash omits keeps the value
    the stored item had.  The content and the crypto envelope are cleared
    all the same when the hash deletes the item. *)
Definition keepsOmitted (existingItem : Item) (itemHash : ItemHash)
  (item : Item) : Prop :=
  (ItemHash.content_type itemHash = None ->
   Item.contentType item = Item.contentType existingItem)
  /\ (ItemHash.deleted itemHash = None ->
      Item.deleted item = Item.deleted existingItem)
  /\ (ItemHash.duplicate_of itemHash = None ->
      Item.duplicateOf item = Item.duplicateOf existingItem)
  /\ (ItemHash.created_at_timestamp itemHash = None ->
      ItemHash.created_at itemHash = None ->
      Item.createdAtTimestamp item = Item.createdAtTimestamp existingItem
      /\ Item.createdAt item = Item.createdAt existingItem)
  /\ (ItemHash.deleted itemHash <> Some true ->
      (ItemHash.content itemHash = None ->
       Item.content item = Item.content existingItem)
      /\ (ItemHash.enc_item_key itemHash = None ->
          Item.encItemKey item = Item.encItemKey existingItem)
      /\ (ItemHash.auth_hash itemHash = None ->
          Item.authHash item = Item.authHash existingItem)
      /\ (ItemHash.items_key_id itemHash = None ->
          Item.itemsKeyId item = Item.itemsKeyId existingItem)).

(** What an update always takes from the hash: the vault and the key
    system, present or not. *)
Definition takesVaultFromHash (itemHash : ItemHash) (item : Item) : Prop :=
  Item.sharedVaultUuid item = ItemHash.shared_vault_uuid itemHash
  /\ Item.keySystemIdentifier item = ItemHash.key_system_identifier itemHash.

(** The effective limit as section 4.4.1 words it:
    [min(max(request.limit, 1), MAX_SYNC_LIMIT)], with [DEFAULT_LIMIT] for a
    request without limit. *)
Definition claimedLimit (this : ItemService) (dto : GetItemsDTO) : Z :=
  Z.min
    (Z.max (match g_limit dto with
            | Some l => l
            | None => DEFAULT_ITEMS_LIMIT
            end) 1)
    (maxItemsSyncLimit this).

(** The transfer budget truncated the response: the calculator selected
    fewer uuids than the page of the query holds. *)
Definition budgetTruncated (selected : list string) (total pageLimit : Z)
  : Prop :=
  Z.of_nat (List.length selected) < Z.min total pageLimit.

(** The sync token as section 4.4.2 words it: the encoding of
    [max(request start, max(saved_items.updated_at_timestamp)) + 1]. *)
Definition claimedSyncToken (requestStart : Z) (result : SaveItemsResult)
  : Prop :=
  syncToken result
  = encodeToken (latestUpdate requestStart (savedItems result) + 1).

(** *** A deployment and sample data for concrete runs *)

Module Sample.
Import InMemory.

(** A service wired to the in-memory collaborators: revisions at most every
    300 seconds, a transfer budget of 100 bytes, at most 1000 items per
    sync.  Its timer reads string dates written as decimal seconds. *)
Definition service : ItemService :=
  {| revisionFrequency := 300;
     contentSizeTransferLimit := 100;
     maxItemsSyncLimit := 1000;
     timer_convertMicrosecondsToSeconds :=
       fun micros => micros / JS.MicrosecondsInASecond;
     timer_convertMicrosecondsToDate := fun micros => micros / 1000;
     timer_convertStringDateToMicroseconds :=
       fun date => JS.the_number (JS.seconds_to_microseconds (Some date));
     timer_convertStringDateToDate :=
       fun date =>
         JS.the_number (JS.seconds_to_microseconds (Some date)) / 1000;
     itemProjector_projectFull_byteLength :=
       fun item =>
         Z.of_nat (String.length (Item.uuid item)
                   + String.length (JS.the_string (Item.content item)));
     GetSaveOperation := getSaveOperation;
     Buffer_from_base64 := JS.base64_decode;
     Number_times_MicrosecondsInASecond := JS.seconds_to_microseconds |}.

(** A note of user [alice], [size] bytes large, last written at [timestamp]. *)
Definition note (uuid content : string) (size timestamp : Z) : Item :=
  Item.make uuid (Some "alice") (Some content) (Some ContentType_Note) size
    (Some "key") (Some "hash") (Some "items-key") false None None None None
    None timestamp (timestamp / 1000) timestamp (timestamp / 1000).

(** The same note filed in shared vault [vault]. *)
Definition vaultNote (uuid content vault : string) (size timestamp : Z)
  : Item :=
  Item.set_keySystemIdentifier (Some "vault-key")
    (Item.set_sharedVaultUuid (Some vault) (note uuid content size timestamp)).

Definition world (clock : Z) (table : list Item) : World :=
  {| now := clock; rows := table; sharedVaultUsers := [];
     published := []; userEventsRemoved := []; userEventsCreated := [];
     errors := []; unwritable := [] |}.

(** The same world with a store that rejects writes to [uuids]. *)
Definition rejecting (uuids : list string) (w : World) : World :=
  {| now := now w; rows := rows w; sharedVaultUsers := sharedVaultUsers w;
     published := published w; userEventsRemoved := userEventsRemoved w;
     userEventsCreated := userEventsCreated w; errors := errors w;
     unwritable := uuids |}.

(** A hash that carries new content for [uuid], based on the version the
    client read at [readAt], and nothing else. *)
Definition contentHash (uuid content : string) (readAt : option Z)
  : ItemHash :=
  ItemHash.make uuid (Some content) None None None None None None None None
    None None None readAt.


Definition saveRequest (hashes : list ItemHash) : SaveItemsDTO :=
  {| itemHashes := hashes; s_userUuid := "alice"; apiVersion := "20200115";
     readOnlyAccess := false; sessionUuid := Some "session";
     snjsVersion := "2.0.0" |}.

Definition getRequest (requestedLimit : option Z) : GetItemsDTO :=
  {| g_userUuid := "alice"; g_syncToken := None; g_cursorToken := None;
     g_limit := requestedLimit; g_contentType := None;
     g_sharedVaultUuids := None |}.

End Sample.

(** *** Reading the call log: answers and outboxes *)

(** The readings of the clock. *)
Definition clockReading (e : Entry Cmd) : option Z :=
  match e with
  | entry _ TimerGetTimestampInMicroseconds (Returned t) => Some t
  | _ => None
  end.

(** What [itemRepository.findByUuid] answered. *)
Definition foundAnswer (e : Entry Cmd) : option (option Item) :=
  match e with
  | entry _ (ItemRepositoryFindByUuid _) (Returned found) => Some found
  | _ => None
  end.

(** What the validator answered. *)
Definition validationAnswer (e : Entry Cmd)
  : option ItemSaveValidationResult :=
  match e with
  | entry _ (ItemSaveValidatorValidate _) (Returned r) => Some r
  | _ => None
  end.

(** The calls of the item factory, and what it built. *)
Definition factoryCall (e : Entry Cmd) : option NewItemDTO :=
  match entry_cmd e with
  | ItemFactoryCreate dto => Some dto
  | _ => None
  end.

Definition factoryAnswer (e : Entry Cmd) : option Item :=
  match e with
  | entry _ (ItemFactoryCreate _) (Returned item) => Some item
  | _ => None
  end.

(** What [itemRepository.save] answered. *)
Definition saveAnswer (e : Entry Cmd) : option Item :=
  match e with
  | entry _ (ItemRepositorySave _) (Returned item) => Some item
  | _ => None
  end.

(** The events handed to the publisher. *)
Definition publishedEvent (e : Entry Cmd) : option DomainEvent :=
  match entry_cmd e with
  | DomainEventPublisherPublish event => Some event
  | _ => None
  end.

(** The two calls on the user event service. *)
Definition removedUserEvents (e : Entry Cmd) : option UserEventDTO :=
  match entry_cmd e with
  | UserEventServiceRemoveUserEventsAfterItemIsAddedToSharedVault dto =>
      Some dto
  | _ => None
  end.

Definition createdUserEvent (e : Entry Cmd) : option UserEventDTO :=
  match entry_cmd e with
  | UserEventServiceCreateItemRemovedFromSharedVaultUserEvent dto => Some dto
  | _ => None
  end.

(** The queries sent to [itemRepository.findAll], and the answers. *)
Definition findAllAsked (e : Entry Cmd) : option ItemQuery :=
  match entry_cmd e with
  | ItemRepositoryFindAll q => Some q
  | _ => None
  end.

Definition findAllAnswer (e : Entry Cmd) : option (list Item) :=
  match e with
  | entry _ (ItemRepositoryFindAll _) (Returned l) => Some l
  | _ => None
  end.

(** The memberships the shared vault user repository answered. *)
Definition membershipsAnswer (e : Entry Cmd) : option (list SharedVaultUser) :=
  match e with
  | entry _ (SharedVaultUsersRepositoryFindAllForUser _) (Returned l) => Some l
  | _ => None
  end.

(** What the transfer calculator selected. *)
Definition selectionAnswer (e : Entry Cmd) : option (list string) :=
  match e with
  | entry _ (ItemTransferCalculatorComputeItemUuidsToFetch _ _) (Returned l) =>
      Some l
  | _ => None
  end.

(** Calls that change nothing: the clock and the queries. *)
Definition isRead (X : Type) (c : Cmd X) : Prop :=
  match c with
  | TimerGetTimestampInMicroseconds => True
  | ItemRepositoryFindByUuid _ => True
  | ItemRepositoryFindAll _ => True
  | ItemRepositoryCountAll _ => True
  | SharedVaultUsersRepositoryFindAllForUser _ => True
  | ItemTransferCalculatorComputeItemUuidsToFetch _ _ => True
  | _ => False
  end.

(** The item a domain event is about. *)
Definition eventItemUuid (event : DomainEvent) : string :=
  match event with
  | ItemRevisionCreationRequested itemUuid _ => itemUuid
  | DuplicateItemSynced itemUuid _ => itemUuid
  end.

(** The events [updateExistingItem] publishes once the write has come back
    with [savedItem] (lines 279-291). *)
Definition eventsAfterUpdate (this : ItemService) (existingItem : Item)
  (itemHash : ItemHash) (updatedAt : Z) (savedItem : Item)
  : list DomainEvent :=
  (if (timer_convertMicrosecondsToSeconds this
         (updatedAt - Item.updatedAtTimestamp existingItem)
       >=? revisionFrequency this)
      && (isNoteOrFile (Item.contentType savedItem)
          && JS.truthy_string (Item.userUuid savedItem))
   then [ItemRevisionCreationRequested (Item.uuid savedItem)
           (JS.the_string (Item.userUuid savedItem))]
   else [])
  ++ (if (JS.truthy_string (ItemHash.duplicate_of itemHash)
          && negb (JS.truthy_string (Item.duplicateOf existingItem)))
         && JS.truthy_string (Item.userUuid savedItem)
      then [DuplicateItemSynced (Item.uuid savedItem)
              (JS.the_string (Item.userUuid savedItem))]
      else []).

(** The events [saveNewItem] publishes for [savedItem] (lines 315-325). *)
Definition eventsAfterCreate (savedItem : Item) : list DomainEvent :=
  (if isNoteOrFile (Item.contentType savedItem)
      && JS.truthy_string (Item.userUuid savedItem)
   then [ItemRevisionCreationRequested (Item.uuid savedItem)
           (JS.the_string (Item.userUuid savedItem))]
   else [])
  ++ (if JS.truthy_string (Item.duplicateOf savedItem)
         && JS.truthy_string (Item.userUuid savedItem)
      then [DuplicateItemSynced (Item.uuid savedItem)
              (JS.the_string (Item.userUuid savedItem))]
      else []).

(** The items keys [frontLoadKeysItemsToTop] puts in front: those whose
    uuid is not among the retrieved items. *)
Definition missingKeys (itemsKeys retrievedItems : list Item) : list Item :=
  filter
    (fun itemKey =>
       negb (existsb (String.eqb (Item.uuid itemKey))
               (map Item.uuid retrievedItems)))
    itemsKeys.

(** The conflict [saveItems] records for a read-only session. *)
Definition readOnlyConflict (itemHash : ItemHash) (found : option Item)
  : ItemConflict :=
  {| unsavedItem := Some itemHash;
     serverItem := found;
     type := ConflictType.ReadOnlyError |}.

(** The conflicts of a read-only session, from the hashes and the answers
    of the lookups. *)
Definition readOnlyConflicts (hashes : list ItemHash)
  (found : list (option Item)) : list ItemConflict :=
  map (fun pair => readOnlyConflict (fst pair) (snd pair))
    (combine hashes found).

(** The items the validator asked to report as saved without writing
    them ([skipped] of a validation that did not pass). *)
Definition skippedItem (e : Entry Cmd) : option Item :=
  match e with
  | entry _ (ItemSaveValidatorValidate _) (Returned r) =>
      if passed r then None else skipped r
  | _ => None
  end.

(** The validations that passed. *)
Definition approvals (log : list (Entry Cmd))
  : list ItemSaveValidationResult :=
  filter passed (Logs.collect validationAnswer log).

(** Every event in the log is about an item that [itemRepository.save]
    had answered with. *)
Definition eventsFollowSaves (log : list (Entry Cmd)) : Prop :=
  forall event,
    In event (Logs.collect publishedEvent log) ->
    exists item,
      In item (Logs.collect saveAnswer log)
      /\ eventItemUuid event = Item.uuid item.

(** What every update stamps on the item: who edited it, in which session
    and when; the item keeps its uuid and its owner. *)
Definition stampedBy (this : ItemService) (existingItem : Item)
  (userUuid : string) (sessionUuid : option string) (updatedAt : Z)
  (item : Item) : Prop :=
  Item.uuid item = Item.uuid existingItem
  /\ Item.userUuid item = Item.userUuid existingItem
  /\ Item.lastEditedByUuid item = Some userUuid
  /\ Item.updatedWithSession item = sessionUuid
  /\ Item.updatedAtTimestamp item = updatedAt
  /\ Item.updatedAt item = timer_convertMicrosecondsToDate this updatedAt.

(** The size of an updated item: zero for a tombstone, and otherwise what
    the projector measures on the item taken with size zero. *)
Definition sizedByProjector (this : ItemService) (itemHash : ItemHash)
  (item : Item) : Prop :=
  match ItemHash.deleted itemHash with
  | Some true => Item.contentSize item = 0
  | _ =>
      Item.contentSize item
      = itemProjector_projectFull_byteLength this (Item.set_contentSize 0 item)
  end.

(** The argument of the two calls on the user event service (lines
    293-305). *)
Definition userEventDTO (this : ItemService) (existingItem : Item)
  (itemHash : ItemHash) (userUuid : string) (savedItem : Item)
  : UserEventDTO :=
  {| ue_userUuid := userUuid;
     ue_itemUuid := Item.uuid savedItem;
     ue_sharedVaultUuid :=
       op_sharedVaultUuid
         (GetSaveOperation this existingItem itemHash userUuid) |}.

(** The vaults of an item query stay within the memberships of the user:
    the requested vaults the user belongs to when the request names vaults,
    all vaults of the user when it names none. *)
Definition withinMemberships (memberships : list SharedVaultUser)
  (requested : option (list string)) (q : ItemQuery) : Prop :=
  match requested with
  | Some vaults =>
      q_includeSharedVaultUuids q = None
      /\ exists exclusive,
           q_exclusiveSharedVaultUuids q = Some exclusive
           /\ forall vault,
                In vault exclusive
                <-> In vault vaults
                    /\ In vault (map sv_sharedVaultUuid memberships)
  | None =>
      q_exclusiveSharedVaultUuids q = None
      /\ q_includeSharedVaultUuids q
         = Some (map sv_sharedVaultUuid memberships)
  end.

(** The text of a v2 token before base64: [`2:${micros / 1e6}`]. *)
Definition tokenText (micros : Z) : string :=
  JS.decimal SYNC_TOKEN_VERSION +++ ":" +++ JS.seconds_text micros.

(** A text [split(':')] leaves in one piece. *)
Definition noColon (text : string) : Prop :=
  ~ In ":"%char (list_ascii_of_string text).

End ItemService.

(** ** The transition runner *)

Module Transition.
Import Effects.
Local Open Scope prog_scope.

(** *** Data model *)

(** The item aggregate as the runner sees it: [uuid.value],
    [props.timestamps.updatedAt], and the properties the repositories
    filter and sort by. *)
Module Item.
Record t : Type := make {
  uuid : string;
  userUuid : string;
  sharedVaultUuid : option string;
  content : string;
  createdAt : Z;
  updatedAt : Z
}.
End Item.
Abbreviation Item := Item.t.

Inductive Repository : Type := Primary | Secondary.

Record ItemQuery : Type := {
  q_userUuid : string;
  q_offset : option Z;
  q_limit : option Z;
  q_sortBy : option string;
  q_sortOrder : option string
}.

(** [TransitionStatus.STATUSES] *)
Inductive Status : Type := NotStarted | InProgress | Verified | Failed.

Record TransitionStatusUpdatedEvent : Type := {
  e_userUuid : string;
  e_status : Status;
  e_transitionType : string;
  e_transitionTimestamp : Z
}.

(** [Result<void>]: [Result.ok()] or [Result.fail(error)]. *)
Inductive Result : Type :=
| Ok
| Fail (error : string).

Definition isFailed (r : Result) : bool :=
  match r with Ok => false | Fail _ => true end.

Record TimeStructure : Type := {
  hours : Z;
  minutes : Z;
  seconds : Z;
  milliseconds : Z
}.

Record DTO : Type := {
  userUuid : string;
  timestamp : Z
}.

(** *** Collaborators *)

Inductive Cmd : Type -> Type :=
| LoggerInfo (message : string) : Cmd unit
| LoggerError (message : string) : Cmd unit
| ItemRepositoryCountAll (repository : Repository) (query : ItemQuery)
  : Cmd Z
| ItemRepositoryFindAll (repository : Repository) (query : ItemQuery)
  : Cmd (list Item)
| ItemRepositoryFindByUuid (repository : Repository) (uuid : string)
  : Cmd (option Item)
| ItemRepositoryRemoveByUuid (repository : Repository) (uuid : string)
  : Cmd unit
| ItemRepositorySave (repository : Repository) (item : Item) : Cmd unit
| ItemRepositoryDeleteByUserUuidAndNotInSharedVault
    (repository : Repository) (userUuid : string) : Cmd unit
| TransitionRepositoryGetPagingProgress (userUuid : string) : Cmd Z
| TransitionRepositorySetPagingProgress (userUuid : string) (progress : Z)
  : Cmd unit
| TransitionRepositoryGetIntegrityProgress (userUuid : string) : Cmd Z
| TransitionRepositorySetIntegrityProgress (userUuid : string)
    (progress : Z) : Cmd unit
| TimerGetTimestampInMicroseconds : Cmd Z
| TimerSleep (milliseconds : Z) : Cmd unit
| DomainEventPublisherPublish (event : TransitionStatusUpdatedEvent)
  : Cmd unit.

(** The use case object: whether the two nullable repositories were
    injected, the page size (a positive number of items; a page size of zero
    would make the page loops run forever and is not covered), and the
    pure functions of imported code ([Uuid.create], [Item.isIdenticalTo],
    the timer's conversion and [JSON.stringify]). *)
Record UseCase : Type := {
  secondaryItemRepositoryIsSet : bool;
  transitionStatusRepositoryIsSet : bool;
  pageSize : positive;
  Uuid_create : string -> string + string;
  isIdenticalTo : Item -> Item -> bool;
  timer_convertMicrosecondsToTimeStructure : Z -> TimeStructure;
  JSON_stringify : Item -> string
}.

(** [Math.ceil(a / b)] for a positive [b]. *)
Definition ceilDiv (a b : Z) : Z := - ((- a) / b).

(** [Math.round((a / b) * 100)] for a positive [b]. *)
Definition roundedPercent (a b : Z) : Z := (200 * a + b) / (2 * b).

(** The values [currentPage] takes in
    [for (let currentPage = initialPage; currentPage <= totalPages;
    currentPage++)]. *)
Definition pages (initialPage totalPages : Z) : list Z :=
  map (fun i => initialPage + Z.of_nat i)
    (seq 0 (Z.to_nat (totalPages - initialPage + 1))).

Definition userQuery (userUuid : string) : ItemQuery :=
  {| q_userUuid := userUuid; q_offset := None; q_limit := None;
     q_sortBy := None; q_sortOrder := None |}.

Definition pageQuery (this : UseCase) (userUuid : string) (currentPage : Z)
  : ItemQuery :=
  {| q_userUuid := userUuid;
     q_offset := Some ((currentPage - 1) * Z.pos (pageSize this));
     q_limit := Some (Z.pos (pageSize this));
     q_sortBy := Some "created_at_timestamp";
     q_sortOrder := Some "ASC" |}.

(** *** [updateTransitionStatus] (lines 268-277) *)

Definition updateTransitionStatus (userUuid : string) (status : Status)
  (timestamp : Z) : Prog Cmd unit :=
  call (DomainEventPublisherPublish
          {| e_userUuid := userUuid;
             e_status := status;
             e_transitionType := "items";
             e_transitionTimestamp := timestamp |}).

(** *** [isAlreadyMigrated] (lines 279-289) *)

Definition isAlreadyMigrated (userUuid : string) : Prog Cmd bool :=
  totalItemsCountForUserInSecondary <-
    call (ItemRepositoryCountAll Secondary (userQuery userUuid)) ;;
  (if totalItemsCountForUserInSecondary >? 0 then
     call (LoggerInfo
             ("[" +++ userUuid +++ "] User has "
              +++ JS.decimal totalItemsCountForUserInSecondary
              +++ " items in secondary database."))
   else Ret tt) ;;
  Ret (totalItemsCountForUserInSecondary =? 0).

(** *** [allowForPrimaryDatabaseToCatchUp] (lines 101-104) *)

Definition allowForPrimaryDatabaseToCatchUp : Prog Cmd unit :=
  let delay := 1000 in
  call (TimerSleep delay).

(** *** [migrateItemsForUser] (lines 106-180) *)

(** Lines 143-172: one source item, inside its own [try]/[catch]. *)
Definition migrateItem (this : UseCase) (userUuid : string) (item : Item)
  : Prog Cmd unit :=
  TryCatch
    (itemInPrimary <-
       call (ItemRepositoryFindByUuid Primary (Item.uuid item)) ;;
     match itemInPrimary with
     | Some itemInPrimary =>
         if Item.updatedAt itemInPrimary >? Item.updatedAt item then
           call (LoggerInfo
                   ("[" +++ userUuid +++ "] Item " +++ Item.uuid item
                    +++ " is older in secondary than item in primary database"))
         else if isIdenticalTo this itemInPrimary item then Ret tt
         else
           call (LoggerInfo
                   ("[" +++ userUuid +++ "] Removing item " +++ Item.uuid item
                    +++ " in primary database as it is not identical to item in primary database")) ;;
           call (ItemRepositoryRemoveByUuid Primary (Item.uuid item)) ;;
           allowForPrimaryDatabaseToCatchUp ;;
           call (ItemRepositorySave Primary item)
     | None => call (ItemRepositorySave Primary item)
     end)
    (fun error =>
       call (LoggerError
               ("Errored when saving item " +++ Item.uuid item
                +++ " to primary database: " +++ error)))
    Ret.

(** Lines 119-173: one page. *)
Definition migratePage (this : UseCase) (userUuid : string) (timestamp : Z)
  (totalPages currentPage : Z) : Prog Cmd unit :=
  let every := ceilDiv totalPages 10 in
  let isPageInEvery10Percent :=
    negb (every =? 0) && (Z.rem currentPage every =? 0) in
  (if isPageInEvery10Percent then
     call (LoggerInfo
             ("[" +++ userUuid +++ "] Migrating items for user: "
              +++ JS.decimal (roundedPercent currentPage totalPages)
              +++ "% completed")) ;;
     updateTransitionStatus userUuid InProgress timestamp
   else Ret tt) ;;
  call (TransitionRepositorySetPagingProgress userUuid currentPage) ;;
  items <-
    call (ItemRepositoryFindAll Secondary
            (pageQuery this userUuid currentPage)) ;;
  for_of items (fun item _ => migrateItem this userUuid item) tt.

Definition migrateItemsForUser (this : UseCase) (userUuid : string)
  (timestamp : Z) : Prog Cmd Result :=
  TryCatch
    (initialPage <- call (TransitionRepositoryGetPagingProgress userUuid) ;;
     call (LoggerInfo
             ("[" +++ userUuid +++ "] Migrating from page "
              +++ JS.decimal initialPage)) ;;
     totalItemsCountForUser <-
       call (ItemRepositoryCountAll Secondary (userQuery userUuid)) ;;
     let totalPages :=
       ceilDiv totalItemsCountForUser (Z.pos (pageSize this)) in
     for_of (pages initialPage totalPages)
       (fun currentPage _ =>
          migratePage this userUuid timestamp totalPages currentPage) tt ;;
     Ret Ok)
    (fun error => Ret (Fail error))
    Ret.

(** *** [deleteItemsForUser] (lines 182-192) *)

Definition deleteItemsForUser (userUuid : string) (itemRepository : Repository)
  : Prog Cmd Result :=
  TryCatch
    (call (LoggerInfo
             ("[" +++ userUuid +++ "] Cleaning up primary database items")) ;;
     call (ItemRepositoryDeleteByUserUuidAndNotInSharedVault itemRepository
             userUuid) ;;
     Ret Ok)
    (fun error => Ret (Fail error))
    Ret.

(** *** [checkIntegrityBetweenPrimaryAndSecondaryDatabase] (lines 194-266) *)

(** Lines 235-258: one item of a page; [Some r] is [return r]. *)
Definition checkItem (this : UseCase) (userUuid : string) (item : Item)
  : Prog Cmd (option Result) :=
  itemInPrimary <- call (ItemRepositoryFindByUuid Primary (Item.uuid item)) ;;
  match itemInPrimary with
  | None =>
      Ret (Some (Fail ("Item " +++ Item.uuid item
                       +++ " not found in primary database")))
  | Some itemInPrimary =>
      if Item.updatedAt itemInPrimary >? Item.updatedAt item then
        call (LoggerInfo
                ("[" +++ userUuid +++ "] Integrity check of Item "
                 +++ Item.uuid item
                 +++ " - is older in secondary than item in primary database")) ;;
        Ret None
      else if isIdenticalTo this item itemInPrimary then Ret None
      else
        Ret (Some (Fail
                     ("Item " +++ Item.uuid item
                      +++ " is not identical in primary and secondary database. Item in secondary database: "
                      +++ JSON_stringify this item
                      +++ ", item in primary database: "
                      +++ JSON_stringify this itemInPrimary)))
  end.

Definition checkPage (this : UseCase) (userUuid : string) (currentPage : Z)
  : Prog Cmd (option Result) :=
  call (TransitionRepositorySetIntegrityProgress userUuid currentPage) ;;
  items <-
    call (ItemRepositoryFindAll Secondary
            (pageQuery this userUuid currentPage)) ;;
  for_of_return items (checkItem this userUuid).

Definition checkIntegrityBetweenPrimaryAndSecondaryDatabase (this : UseCase)
  (userUuid : string) : Prog Cmd Result :=
  TryCatch
    (initialPage <- call (TransitionRepositoryGetIntegrityProgress userUuid) ;;
     call (LoggerInfo
             ("[" +++ userUuid +++ "] Checking integrity from page "
              +++ JS.decimal initialPage)) ;;
     totalItemsCountForUserInSecondary <-
       call (ItemRepositoryCountAll Secondary (userQuery userUuid)) ;;
     totalItemsCountForUserInPrimary <-
       call (ItemRepositoryCountAll Primary (userQuery userUuid)) ;;
     if totalItemsCountForUserInPrimary <? totalItemsCountForUserInSecondary
     then
       Ret (Fail
              ("Total items count for user " +++ userUuid
               +++ " in primary database ("
               +++ JS.decimal totalItemsCountForUserInPrimary
               +++ ") does not match total items count in secondary database ("
               +++ JS.decimal totalItemsCountForUserInSecondary +++ ")"))
     else
       let totalPages :=
         ceilDiv totalItemsCountForUserInPrimary (Z.pos (pageSize this)) in
       returned <-
         for_of_return (pages initialPage totalPages)
           (checkPage this userUuid) ;;
       match returned with
       | Some result => Ret result
       | None => Ret Ok
       end)
    (fun error => Ret (Fail error))
    Ret.

(** *** [execute] (lines 25-99) *)

Definition errorOf (r : Result) : string :=
  match r with Ok => "" | Fail error => error end.

Definition execute (this : UseCase) (dto : DTO) : Prog Cmd Result :=
  call (LoggerInfo ("[" +++ userUuid dto +++ "] Transitioning items")) ;;
  if negb (secondaryItemRepositoryIsSet this) then
    Ret (Fail "Secondary item repository is not set")
  else if negb (transitionStatusRepositoryIsSet this) then
    Ret (Fail "Transition status repository is not set")
  else
    match Uuid_create this (userUuid dto) with
    | inl error => Ret (Fail error)
    | inr userUuidValue =>
        alreadyMigrated <- isAlreadyMigrated userUuidValue ;;
        if alreadyMigrated : bool then
          call (LoggerInfo
                  ("[" +++ userUuidValue +++ "] User already migrated.")) ;;
          updateTransitionStatus userUuidValue Verified (timestamp dto) ;;
          Ret Ok
        else
          migrationTimeStart <- call TimerGetTimestampInMicroseconds ;;
          call (LoggerInfo ("[" +++ userUuid dto +++ "] Migrating items")) ;;
          migrationResult <-
            migrateItemsForUser this userUuidValue (timestamp dto) ;;
          if isFailed migrationResult then
            updateTransitionStatus userUuidValue Failed (timestamp dto) ;;
            Ret (Fail (errorOf migrationResult))
          else
            call (LoggerInfo ("[" +++ userUuid dto +++ "] Items migrated")) ;;
            allowForPrimaryDatabaseToCatchUp ;;
            call (LoggerInfo
                    ("[" +++ userUuid dto
                     +++ "] Checking integrity between primary and secondary database")) ;;
            integrityCheckResult <-
              checkIntegrityBetweenPrimaryAndSecondaryDatabase this
                userUuidValue ;;
            if isFailed integrityCheckResult then
              call (TransitionRepositorySetPagingProgress userUuidValue 1) ;;
              call (TransitionRepositorySetIntegrityProgress userUuidValue 1) ;;
              updateTransitionStatus userUuidValue Failed (timestamp dto) ;;
              Ret (Fail (errorOf integrityCheckResult))
            else
              cleanupResult <- deleteItemsForUser userUuidValue Secondary ;;
              (if isFailed cleanupResult then
                 updateTransitionStatus userUuidValue Failed (timestamp dto) ;;
                 call (LoggerError
                         ("[" +++ userUuid dto
                          +++ "] Failed to clean up secondary database items: "
                          +++ errorOf cleanupResult))
               else Ret tt) ;;
              migrationTimeEnd <- call TimerGetTimestampInMicroseconds ;;
              let migrationDuration := migrationTimeEnd - migrationTimeStart in
              let migrationDurationTimeStructure :=
                timer_convertMicrosecondsToTimeStructure this
                  migrationDuration in
              call (LoggerInfo
                      ("[" +++ userUuid dto +++ "] Transitioned items in "
                       +++ JS.decimal (hours migrationDurationTimeStructure)
                       +++ "h "
                       +++ JS.decimal (minutes migrationDurationTimeStructure)
                       +++ "m "
                       +++ JS.decimal (seconds migrationDurationTimeStructure)
                       +++ "s "
                       +++ JS.decimal
                             (milliseconds migrationDurationTimeStructure)
                       +++ "ms")) ;;
              updateTransitionStatus userUuidValue Verified (timestamp dto) ;;
              Ret Ok
    end.

(** *** In-memory collaborators

    The two item repositories, the transition status repository, the
    timer and the publisher are interfaces of the use case.  The versions
    below follow the repository contract of the specification (section
    4.5) over two tables, and serve for concrete runs. *)

Module InMemory.

Record World : Type := {
  primary : list Item;
  secondary : list Item;
  pagingProgress : list (string * Z);
  integrityProgress : list (string * Z);
  now : Z;
  published : list TransitionStatusUpdatedEvent;
  infos : list string;
  errors : list string;
  (** the secondary store refuses bulk deletions *)
  cleanupUnavailable : bool
}.

Definition table (repository : Repository) (w : World) : list Item :=
  match repository with
  | Primary => primary w
  | Secondary => secondary w
  end.

Definition set_table (repository : Repository) (v : list Item) (w : World)
  : World :=
  {| primary := match repository with Primary => v | _ => primary w end;
     secondary := match repository with Secondary => v | _ => secondary w end;
     pagingProgress := pagingProgress w;
     integrityProgress := integrityProgress w;
     now := now w; published := published w; infos := infos w;
     errors := errors w; cleanupUnavailable := cleanupUnavailable w |}.

Definition set_pagingProgress (v : list (string * Z)) (w : World) : World :=
  {| primary := primary w; secondary := secondary w;
     pagingProgress := v; integrityProgress := integrityProgress w;
     now := now w; published := published w; infos := infos w;
     errors := errors w; cleanupUnavailable := cleanupUnavailable w |}.

Definition set_integrityProgress (v : list (string * Z)) (w : World)
  : World :=
  {| primary := primary w; secondary := secondary w;
     pagingProgress := pagingProgress w; integrityProgress := v;
     now := now w; published := published w; infos := infos w;
     errors := errors w; cleanupUnavailable := cleanupUnavailable w |}.

Definition set_now (v : Z) (w : World) : World :=
  {| primary := primary w; secondary := secondary w;
     pagingProgress := pagingProgress w;
     integrityProgress := integrityProgress w;
     now := v; published := published w; infos := infos w;
     errors := errors w; cleanupUnavailable := cleanupUnavailable w |}.

Definition set_published (v : list TransitionStatusUpdatedEvent) (w : World)
  : World :=
  {| primary := primary w; secondary := secondary w;
     pagingProgress := pagingProgress w;
     integrityProgress := integrityProgress w;
     now := now w; published := v; infos := infos w;
     errors := errors w; cleanupUnavailable := cleanupUnavailable w |}.

Definition set_infos (v : list string) (w : World) : World :=
  {| primary := primary w; secondary := secondary w;
     pagingProgress := pagingProgress w;
     integrityProgress := integrityProgress w;
     now := now w; published := published w; infos := v;
     errors := errors w; cleanupUnavailable := cleanupUnavailable w |}.

Definition set_errors (v : list string) (w : World) : World :=
  {| primary := primary w; secondary := secondary w;
     pagingProgress := pagingProgress w;
     integrityProgress := integrityProgress w;
     now := now w; published := published w; infos := infos w;
     errors := v; cleanupUnavailable := cleanupUnavailable w |}.

(** Modelled from the spec: the item repository of section 4.5 ([count_all],
    [find_all] sorted by creation time with [offset] and [limit],
    [find_by_uuid], [remove_by_uuid], [save] as an upsert, and the bulk
    deletion of a user's items outside shared vaults). *)
Definition ownedBy (userUuid : string) (item : Item) : bool :=
  (Item.userUuid item =? userUuid)%string.

(** Modelled from the spec: [count_all] for a user. *)
Definition countAll (q : ItemQuery) (rows : list Item) : Z :=
  Z.of_nat (List.length (filter (ownedBy (q_userUuid q)) rows)).

(** Modelled from the spec: the order of the pages, by creation time and
    then by uuid. *)
Definition createdBefore (a b : Item) : bool :=
  (Item.createdAt a <? Item.createdAt b)
  || ((Item.createdAt a =? Item.createdAt b)
      && String.leb (Item.uuid a) (Item.uuid b)).

Fixpoint place (item : Item) (sorted : list Item) : list Item :=
  match sorted with
  | [] => [item]
  | e :: rest =>
      if createdBefore item e then item :: e :: rest
      else e :: place item rest
  end.

(** Modelled from the spec: [find_all] for the page queries of the runner
    (a user's items by creation time, with [offset] and [limit]). *)
Definition findAll (q : ItemQuery) (rows : list Item) : list Item :=
  let sorted := fold_right place [] (filter (ownedBy (q_userUuid q)) rows) in
  let skipped :=
    match q_offset q with
    | Some offset => skipn (Z.to_nat offset) sorted
    | None => sorted
    end in
  match q_limit q with
  | Some limit => firstn (Z.to_nat limit) skipped
  | None => skipped
  end.

(** Modelled from the spec: [find_by_uuid], [remove_by_uuid] and [save]. *)
Definition findByUuid (uuid : string) (rows : list Item) : option Item :=
  find (fun row => (Item.uuid row =? uuid)%string) rows.

Definition removeByUuid (uuid : string) (rows : list Item) : list Item :=
  filter (fun row => negb (Item.uuid row =? uuid)%string) rows.

Definition save (item : Item) (rows : list Item) : list Item :=
  removeByUuid (Item.uuid item) rows ++ [item].

(** Modelled from the spec: [delete_by_user_uuid_and_not_in_shared_vault]. *)
Definition deleteByUserUuidAndNotInSharedVault (userUuid : string)
  (rows : list Item) : list Item :=
  filter
    (fun row =>
       negb (ownedBy userUuid row
             && negb (JS.is_some (Item.sharedVaultUuid row))))
    rows.

(** A user without a progress record starts at page 1. *)
Definition progressOf (userUuid : string) (records : list (string * Z)) : Z :=
  match find (fun r => (fst r =? userUuid)%string) records with
  | Some r => snd r
  | None => 1
  end.

Definition setProgress (userUuid : string) (progress : Z)
  (records : list (string * Z)) : list (string * Z) :=
  (userUuid, progress)
  :: filter (fun r => negb (fst r =? userUuid)%string) records.

Definition handle : Handler Cmd World :=
  fun X c w =>
    match c in Cmd X return Outcome X * World with
    | LoggerInfo message => (Returned tt, set_infos (infos w ++ [message]) w)
    | LoggerError message =>
        (Returned tt, set_errors (errors w ++ [message]) w)
    | ItemRepositoryCountAll repository q =>
        (Returned (countAll q (table repository w)), w)
    | ItemRepositoryFindAll repository q =>
        (Returned (findAll q (table repository w)), w)
    | ItemRepositoryFindByUuid repository uuid =>
        (Returned (findByUuid uuid (table repository w)), w)
    | ItemRepositoryRemoveByUuid repository uuid =>
        (Returned tt,
         set_table repository (removeByUuid uuid (table repository w)) w)
    | ItemRepositorySave repository item =>
        (Returned tt, set_table repository (save item (table repository w)) w)
    | ItemRepositoryDeleteByUserUuidAndNotInSharedVault repository userUuid =>
        if cleanupUnavailable w
        then (Thrown "ER_LOCK_WAIT_TIMEOUT", w)
        else
          (Returned tt,
           set_table repository
             (deleteByUserUuidAndNotInSharedVault userUuid
                (table repository w)) w)
    | TransitionRepositoryGetPagingProgress userUuid =>
        (Returned (progressOf userUuid (pagingProgress w)), w)
    | TransitionRepositorySetPagingProgress userUuid progress =>
        (Returned tt,
         set_pagingProgress (setProgress userUuid progress (pagingProgress w))
           w)
    | TransitionRepositoryGetIntegrityProgress userUuid =>
        (Returned (progressOf userUuid (integrityProgress w)), w)
    | TransitionRepositorySetIntegrityProgress userUuid progress =>
        (Returned tt,
         set_integrityProgress
           (setProgress userUuid progress (integrityProgress w)) w)
    | TimerGetTimestampInMicroseconds =>
        (Returned (now w), set_now (now w + 1) w)
    | TimerSleep milliseconds =>
        (Returned tt, set_now (now w + milliseconds * 1000) w)
    | DomainEventPublisherPublish event =>
        (Returned tt, set_published (published w ++ [event]) w)
    end.

End InMemory.

(** *** A deployment and sample data for concrete runs *)

Module Sample.
Import InMemory.

(** Modelled from the spec: [is_identical_to] as the design notes define it,
    on the properties the runner reads. *)
Definition identical (a b : Item) : bool :=
  (Item.uuid a =? Item.uuid b)%string
  && (Item.content a =? Item.content b)%string
  && ItemService.InMemory.option_string_eqb (Item.sharedVaultUuid a)
       (Item.sharedVaultUuid b)
  && (Item.updatedAt a =? Item.updatedAt b).

(** Both repositories injected, two items per page, every user uuid
    accepted. *)
Definition useCase : UseCase :=
  {| secondaryItemRepositoryIsSet := true;
     transitionStatusRepositoryIsSet := true;
     pageSize := 2%positive;
     Uuid_create := fun value => inr value;
     isIdenticalTo := identical;
     timer_convertMicrosecondsToTimeStructure :=
       fun micros =>
         {| hours := micros / 3600000000;
            minutes := (micros / 60000000) mod 60;
            seconds := (micros / 1000000) mod 60;
            milliseconds := (micros / 1000) mod 1000 |};
     JSON_stringify := fun item => "{" +++ Item.uuid item +++ "}" |}.

Definition item (uuid content : string) (timestamp : Z) : Item :=
  Item.make uuid "alice" None content timestamp timestamp.

Definition world (inPrimary inSecondary : list Item) : World :=
  {| primary := inPrimary; secondary := inSecondary;
     pagingProgress := []; integrityProgress := []; now := 0;
     published := []; infos := []; errors := [];
     cleanupUnavailable := false |}.

(** The same world with a secondary store that refuses the cleanup. *)
Definition withoutCleanup (w : World) : World :=
  {| primary := primary w; secondary := secondary w;
     pagingProgress := pagingProgress w;
     integrityProgress := integrityProgress w; now := now w;
     published := published w; infos := infos w; errors := errors w;
     cleanupUnavailable := true |}.

Definition request : DTO := {| userUuid := "alice"; timestamp := 42 |}.

(** The same collaborators with a secondary store that cannot be reached
    for counting. *)
Definition unreachableSource : Handler Cmd World :=
  fun X c w =>
    match c in Cmd X return Outcome X * World with
    | ItemRepositoryCountAll Secondary _ => (Thrown "ECONNREFUSED", w)
    | other => handle _ other w
    end.

(** The same collaborators with a primary store that refuses writes. *)
Definition readOnlyTarget : Handler Cmd World :=
  fun X c w =>
    match c in Cmd X return Outcome X * World with
    | ItemRepositorySave Primary _ => (Thrown "ER_OPTION_PREVENTS_STATEMENT", w)
    | other => handle _ other w
    end.

(** The same use case with a [Uuid.create] that refuses every value. *)
Definition strict (this : UseCase) : UseCase :=
  {| secondaryItemRepositoryIsSet := secondaryItemRepositoryIsSet this;
     transitionStatusRepositoryIsSet := transitionStatusRepositoryIsSet this;
     pageSize := pageSize this;
     Uuid_create :=
       fun value => inl ("Given value is not a valid uuid: " +++ value);
     isIdenticalTo := isIdenticalTo this;
     timer_convertMicrosecondsToTimeStructure :=
       timer_convertMicrosecondsToTimeStructure this;
     JSON_stringify := JSON_stringify this |}.

End Sample.

(** *** Reading the call log *)

(** The statuses published, in order. *)
Definition statusOf (e : Entry Cmd) : option Status :=
  match entry_cmd e with
  | DomainEventPublisherPublish event => Some (e_status event)
  | _ => None
  end.

Fixpoint statuses (log : list (Entry Cmd)) : list Status :=
  match log with
  | [] => []
  | e :: rest =>
      match statusOf e with
      | Some s => s :: statuses rest
      | None => statuses rest
      end
  end.

(** The state machine of section 4.6, as far as one execution goes: once
    [Failed] has been published, no [Verified] follows. *)
Definition neverVerifiedAfterFailed (published : list Status) : Prop :=
  forall before after,
    published = before ++ Failed :: after -> ~ In Verified after.

(** The collaborators an execution leans on without a [try]: the logger,
    the timer and the publisher.  They answer every call. *)
Definition Dependable {W} (H : Handler Cmd W) : Prop :=
  (forall message w, exists w', H _ (LoggerInfo message) w = (Returned tt, w'))
  /\ (forall w,
        exists t w', H _ TimerGetTimestampInMicroseconds w = (Returned t, w'))
  /\ (forall event w,
        exists w', H _ (DomainEventPublisherPublish event) w = (Returned tt, w')).

(** Calls that belong to the copy phase: reading the paging progress,
    fetching pages of the source, and writes to the target. *)
Definition isCopyCall (e : Entry Cmd) : bool :=
  match entry_cmd e with
  | TransitionRepositoryGetPagingProgress _ => true
  | TransitionRepositorySetPagingProgress _ _ => true
  | ItemRepositoryFindAll _ _ => true
  | ItemRepositoryFindByUuid _ _ => true
  | ItemRepositoryRemoveByUuid _ _ => true
  | ItemRepositorySave _ _ => true
  | _ => false
  end.

(** The copy phase was entered: [migrateItemsForUser] made its first call. *)
Definition entersCopyPhase (log : list (Entry Cmd)) : bool :=
  existsb
    (fun e =>
       match entry_cmd e with
       | TransitionRepositoryGetPagingProgress _ => true
       | _ => false
       end) log.

(** *** Reading the call log: progress, pages and writes *)

(** The page numbers written to the paging and to the integrity progress. *)
Definition pagingProgressSet (e : Entry Cmd) : option Z :=
  match entry_cmd e with
  | TransitionRepositorySetPagingProgress _ progress => Some progress
  | _ => None
  end.

Definition integrityProgressSet (e : Entry Cmd) : option Z :=
  match entry_cmd e with
  | TransitionRepositorySetIntegrityProgress _ progress => Some progress
  | _ => None
  end.

(** What the two progress getters answered. *)
Definition pagingProgressAnswer (e : Entry Cmd) : option Z :=
  match e with
  | entry _ (TransitionRepositoryGetPagingProgress _) (Returned page) =>
      Some page
  | _ => None
  end.

Definition integrityProgressAnswer (e : Entry Cmd) : option Z :=
  match e with
  | entry _ (TransitionRepositoryGetIntegrityProgress _) (Returned page) =>
      Some page
  | _ => None
  end.

(** What [countAll] answered for a repository. *)
Definition countOf (repository : Repository) (e : Entry Cmd) : option Z :=
  match e with
  | entry _ (ItemRepositoryCountAll r _) (Returned total) =>
      match r, repository with
      | Primary, Primary => Some total
      | Secondary, Secondary => Some total
      | _, _ => None
      end
  | _ => None
  end.

(** The pages the source store delivered. *)
Definition sourcePage (e : Entry Cmd) : option (list Item) :=
  match e with
  | entry _ (ItemRepositoryFindAll Secondary _) (Returned items) => Some items
  | _ => None
  end.

(** The page queries sent to the source store. *)
Definition sourceQuery (e : Entry Cmd) : option ItemQuery :=
  match entry_cmd e with
  | ItemRepositoryFindAll Secondary q => Some q
  | _ => None
  end.

(** The lookups in the target store that were answered. *)
Definition targetLookup (e : Entry Cmd) : option (string * option Item) :=
  match e with
  | entry _ (ItemRepositoryFindByUuid Primary uuid) (Returned found) =>
      Some (uuid, found)
  | _ => None
  end.

(** The writes sent to the target store. *)
Inductive Write : Type :=
| Removed (uuid : string)
| Saved (item : Item).

Definition targetWrite (e : Entry Cmd) : option Write :=
  match entry_cmd e with
  | ItemRepositoryRemoveByUuid Primary uuid => Some (Removed uuid)
  | ItemRepositorySave Primary item => Some (Saved item)
  | _ => None
  end.

(** The cleanups asked of a repository. *)
Definition cleanupOf (e : Entry Cmd) : option Repository :=
  match entry_cmd e with
  | ItemRepositoryDeleteByUserUuidAndNotInSharedVault repository _ =>
      Some repository
  | _ => None
  end.

(** The division of labour between the stores: items are read from both,
    written to and removed from the primary store only, and bulk-deleted
    from the secondary store only. *)
Definition respectsStores (X : Type) (c : Cmd X) : Prop :=
  match c with
  | ItemRepositoryRemoveByUuid repository _ => repository = Primary
  | ItemRepositorySave repository _ => repository = Primary
  | ItemRepositoryDeleteByUserUuidAndNotInSharedVault repository _ =>
      repository = Secondary
  | _ => True
  end.

(** Calls of the copy and of the verification loops: no status other than
    [InProgress] is published and no store is cleaned up. *)
Definition isPhaseCall (X : Type) (c : Cmd X) : Prop :=
  match c with
  | DomainEventPublisherPublish event => e_status event = InProgress
  | ItemRepositoryDeleteByUserUuidAndNotInSharedVault _ _ => False
  | _ => True
  end.

(** Calls that leave the item stores as they are. *)
Definition leavesItems (X : Type) (c : Cmd X) : Prop :=
  match c with
  | ItemRepositoryRemoveByUuid _ _ => False
  | ItemRepositorySave _ _ => False
  | ItemRepositoryDeleteByUserUuidAndNotInSharedVault _ _ => False
  | _ => True
  end.

(** The collaborators [execute] calls outside every [try]: besides the
    dependable ones, the error logger, the sleep of the timer and the two
    progress setters. *)
Definition Unfailing {W} (H : Handler Cmd W) : Prop :=
  Dependable H
  /\ (forall message w,
        exists w', H _ (LoggerError message) w = (Returned tt, w'))
  /\ (forall milliseconds w,
        exists w', H _ (TimerSleep milliseconds) w = (Returned tt, w'))
  /\ (forall userUuid progress w,
        exists w',
          H _ (TransitionRepositorySetPagingProgress userUuid progress) w
          = (Returned tt, w'))
  /\ (forall userUuid progress w,
        exists w',
          H _ (TransitionRepositorySetIntegrityProgress userUuid progress) w
          = (Returned tt, w')).

(** The calls made for one item of a page, by [migrateItem] or by
    [checkItem]. *)
Definition isItemCall (X : Type) (c : Cmd X) : Prop :=
  match c with
  | LoggerInfo _ => True
  | LoggerError _ => True
  | TimerSleep _ => True
  | ItemRepositoryFindByUuid Primary _ => True
  | ItemRepositoryRemoveByUuid Primary _ => True
  | ItemRepositorySave Primary _ => True
  | _ => False
  end.


(** A write concerns an item of a page the source store delivered. *)
Definition fromSource (delivered : list (list Item)) (write : Write) : Prop :=
  exists page item,
    In page delivered
    /\ In item page
    /\ (write = Saved item \/ write = Removed (Item.uuid item)).

(** Calls made inside the page loops: the progress is not read again and
    nothing is counted again. *)
Definition isLoopCall (X : Type) (c : Cmd X) : Prop :=
  match c with
  | TransitionRepositoryGetPagingProgress _ => False
  | TransitionRepositoryGetIntegrityProgress _ => False
  | ItemRepositoryCountAll _ _ => False
  | _ => True
  end.

(** The progress report of a page: a log line and a status. *)
Definition isAnnouncement (X : Type) (c : Cmd X) : Prop :=
  match c with
  | LoggerInfo _ => True
  | DomainEventPublisherPublish _ => True
  | _ => False
  end.

(** The collaborators the copy loop calls outside the [try] of an item
    answer: the logger, the publisher, the paging progress, and the count
    and the pages of the source. *)
Definition CopyLoopAnswers {W} (H : Handler Cmd W) : Prop :=
  (forall message w, exists w', H _ (LoggerInfo message) w = (Returned tt, w'))
  /\ (forall message w,
        exists w', H _ (LoggerError message) w = (Returned tt, w'))
  /\ (forall event w,
        exists w', H _ (DomainEventPublisherPublish event) w = (Returned tt, w'))
  /\ (forall userUuid w,
        exists page w',
          H _ (TransitionRepositoryGetPagingProgress userUuid) w
          = (Returned page, w'))
  /\ (forall userUuid progress w,
        exists w',
          H _ (TransitionRepositorySetPagingProgress userUuid progress) w
          = (Returned tt, w'))
  /\ (forall q w,
        exists total w',
          H _ (ItemRepositoryCountAll Secondary q) w = (Returned total, w'))
  /\ (forall q w,
        exists items w',
          H _ (ItemRepositoryFindAll Secondary q) w = (Returned items, w')).

(** An item of the source passes the integrity check against [found]:
    the target holds a newer version or an identical one. *)
Definition passesCheck (this : UseCase) (item : Item) (found : option Item)
  : Prop :=
  match found with
  | Some itemInPrimary =>
      Item.updatedAt itemInPrimary > Item.updatedAt item
      \/ isIdenticalTo this item itemInPrimary = true
  | None => False
  end.

(** Every item of every page the source delivered was looked up in the
    target and passed the check. *)
Definition allChecked (this : UseCase) (log : list (Entry Cmd)) : Prop :=
  forall page item,
    In page (Logs.collect sourcePage log) ->
    In item page ->
    exists found,
      In (Item.uuid item, found) (Logs.collect targetLookup log)
      /\ passesCheck this item found.

(** Every write of the log concerns an item the source delivered. *)
Definition copiesSource (log : list (Entry Cmd)) : Prop :=
  forall write,
    In write (Logs.collect targetWrite log) ->
    fromSource (Logs.collect sourcePage log) write.

(** The item range of a page: [offset <= index < offset + limit]. *)
Definition onPage (this : UseCase) (currentPage index : Z) : Prop :=
  (currentPage - 1) * Z.pos (pageSize this) <= index
  < (currentPage - 1) * Z.pos (pageSize this) + Z.pos (pageSize this).

End Transition.

(** * Properties *)

(** ** Running programs *)

Module EffectsFacts.
Import Effects.

Section Run.
Context {Cmd : Type -> Type} {W : Type} (H : Handler Cmd W).

(** Running [bind p f] runs [p], then [f] on what it returned. *)
Lemma run_bind {A B} (p : Prog Cmd A) (f : A -> Prog Cmd B) (w : W) :
  run H (bind p f) w =
  match run H p w with
  | (Returned a, w') => run H (f a) w'
  | (Thrown e, w') => (Thrown e, w')
  end.
Proof.
  revert B f w.
  induction p as [A a | A e | A X c k IH | A C body IHbody handler IHh k IHk];
    intros B f w; simpl.
  - reflexivity.
  - reflexivity.
  - destruct (H X c w) as [[x | e] w']; [apply IH | reflexivity].
  - destruct (run H body w) as [[b | e] w']; [apply IHk | apply IHh].
Qed.

Lemma run_call {X} (c : Cmd X) (w : W) : run H (call c) w = H X c w.
Proof.
  unfold call. simpl. destruct (H X c w) as [[x | e] w']; reflexivity.
Qed.

End Run.

End EffectsFacts.

(** ** ItemService: the sync token of [saveItems] *)

Module SyncTokenFacts.
Import Effects ItemService EffectsFacts.

(** *** The in-place sort *)

Lemma sort_insert_permutation {A} (cmp : A -> A -> Z) (p : A) (l : list A) :
  Permutation (JS.sort_insert cmp p l) (p :: l).
Proof.
  induction l as [| e l IH]; simpl.
  - apply Permutation_refl.
  - destruct (cmp p e <? 0).
    + apply Permutation_refl.
    + eapply perm_trans; [apply perm_skip, IH | apply perm_swap].
Qed.

Lemma sort_fold_permutation {A} (cmp : A -> A -> Z) (l acc : list A) :
  Permutation
    (fold_left (fun sorted p => JS.sort_insert cmp p sorted) l acc)
    (l ++ acc).
Proof.
  revert acc. induction l as [| p l IH]; intros acc; simpl.
  - apply Permutation_refl.
  - eapply perm_trans; [apply IH |].
    eapply perm_trans;
      [apply Permutation_app_head, sort_insert_permutation |].
    apply Permutation_sym, Permutation_middle.
Qed.

(** Sorting rearranges the array and loses or invents nothing. *)
Lemma sort_permutation {A} (cmp : A -> A -> Z) (l : list A) :
  Permutation (JS.sort cmp l) l.
Proof.
  unfold JS.sort.
  eapply perm_trans; [apply sort_fold_permutation |].
  rewrite app_nil_r. apply Permutation_refl.
Qed.

Lemma sort_insert_sorted (p : Item) (l : list Item) :
  StronglySorted upTo l ->
  StronglySorted upTo (JS.sort_insert byUpdatedAtTimestamp p l).
Proof.
  induction 1 as [| e l Hl IH He]; simpl.
  - repeat constructor.
  - unfold byUpdatedAtTimestamp at 1.
    destruct (Item.updatedAtTimestamp p >? Item.updatedAtTimestamp e) eqn:Hgt;
      simpl.
    + constructor; [exact IH |].
      apply (Permutation_Forall
               (Permutation_sym (sort_insert_permutation _ p l))).
      constructor; [unfold upTo; lia | exact He].
    + constructor; [constructor; assumption |].
      constructor; [unfold upTo; lia |].
      eapply Forall_impl; [| exact He].
      unfold upTo. intros; lia.
Qed.

(** With the comparator of [calculateSyncToken] the result is in ascending
    order of [updatedAtTimestamp]. *)
Lemma sort_sorted (l : list Item) :
  StronglySorted upTo (JS.sort byUpdatedAtTimestamp l).
Proof.
  unfold JS.sort.
  assert (G : forall acc, StronglySorted upTo acc ->
                StronglySorted upTo
                  (fold_left
                     (fun sorted p =>
                        JS.sort_insert byUpdatedAtTimestamp p sorted) l acc)).
  { induction l as [| p l IH]; intros acc Hacc; simpl.
    - exact Hacc.
    - apply IH, sort_insert_sorted, Hacc. }
  apply G. constructor.
Qed.

(** *** The newest saved item *)

Lemma latestUpdate_bounds (floor : Z) (l : list Item) :
  floor <= latestUpdate floor l
  /\ Forall (fun item => Item.updatedAtTimestamp item <= latestUpdate floor l)
       l.
Proof.
  induction l as [| i l [IH1 IH2]]; simpl.
  - split; [lia | constructor].
  - split; [lia |].
    constructor; [lia |].
    eapply Forall_impl; [| exact IH2]. simpl. intros; lia.
Qed.

Lemma latestUpdate_attained (floor : Z) (l : list Item) :
  latestUpdate floor l = floor
  \/ exists item, In item l /\ Item.updatedAtTimestamp item = latestUpdate floor l.
Proof.
  induction l as [| i l IH]; simpl.
  - left; reflexivity.
  - destruct (Z.max_spec (Item.updatedAtTimestamp i) (latestUpdate floor l))
      as [[_ E] | [_ E]]; rewrite E.
    + destruct IH as [IH | [x [Hx Ex]]].
      * left; exact IH.
      * right; exists x; split; [right; exact Hx | exact Ex].
    + right; exists i; split; [left; reflexivity | reflexivity].
Qed.

(** [newest] is the timestamp of any item that no saved item exceeds. *)
Lemma newest_characterized (requestStart : Z) (saved : list Item) (x : Item) :
  In x saved ->
  Forall (fun item => upTo item x) saved ->
  newest requestStart saved = Item.updatedAtTimestamp x.
Proof.
  destruct saved as [| i rest]; [intros [] |].
  intros Hin Hall. simpl.
  inversion Hall as [| ? ? Hi Hrest]; subst.
  destruct (latestUpdate_bounds (Item.updatedAtTimestamp i) rest) as [B1 B2].
  apply Z.le_antisymm.
  - destruct (latestUpdate_attained (Item.updatedAtTimestamp i) rest)
      as [E | [y [Hy Ey]]].
    + rewrite E. exact Hi.
    + rewrite <- Ey. rewrite Forall_forall in Hrest. apply Hrest, Hy.
  - destruct Hin as [-> | Hin]; [exact B1 |].
    rewrite Forall_forall in B2. apply B2, Hin.
Qed.

Lemma last_element_in {A} (l : list A) (x : A) :
  JS.last_element l = Some x -> exists front, l = front ++ [x].
Proof.
  unfold JS.last_element. intros Hlast.
  destruct (rev l) as [| y r] eqn:E; [discriminate |].
  injection Hlast as ->.
  exists (rev r). rewrite <- (rev_involutive l), E. reflexivity.
Qed.

Lemma last_element_sorted (l : list Item) (x : Item) :
  StronglySorted upTo l ->
  JS.last_element l = Some x ->
  In x l /\ Forall (fun item => upTo item x) l.
Proof.
  intros Hsorted Hlast.
  destruct (last_element_in l x Hlast) as [front ->].
  split; [apply in_or_app; right; left; reflexivity |].
  clear Hlast. induction front as [| a front IH]; simpl in *.
  - repeat constructor. unfold upTo; lia.
  - inversion Hsorted as [| ? ? Hs Ha]; subst.
    constructor; [| apply IH, Hs].
    rewrite Forall_forall in Ha. apply Ha.
    apply in_or_app; right; left; reflexivity.
Qed.

Lemma newest_permutation (requestStart : Z) (l l' : list Item) :
  Permutation l l' -> newest requestStart l = newest requestStart l'.
Proof.
  intros P.
  destruct l as [| i rest].
  - apply Permutation_nil in P. subst. reflexivity.
  - destruct (latestUpdate_attained (Item.updatedAtTimestamp i) rest)
      as [E | [y [Hy Ey]]].
    + symmetry. simpl. rewrite E.
      apply (newest_characterized requestStart l' i).
      * apply (Permutation_in _ P). left; reflexivity.
      * apply (Permutation_Forall P).
        destruct (latestUpdate_bounds (Item.updatedAtTimestamp i) rest)
          as [_ B].
        constructor; [unfold upTo; lia |].
        eapply Forall_impl; [| exact B]. unfold upTo. simpl. intros; lia.
    + symmetry. simpl. rewrite <- Ey.
      apply (newest_characterized requestStart l' y).
      * apply (Permutation_in _ P). right; exact Hy.
      * apply (Permutation_Forall P).
        destruct (latestUpdate_bounds (Item.updatedAtTimestamp i) rest)
          as [B1 B].
        constructor; [unfold upTo; lia |].
        eapply Forall_impl; [| exact B]. unfold upTo. simpl. intros; lia.
Qed.

(** *** [calculateSyncToken] *)

(** The token encodes the newest saved timestamp plus one microsecond, and
    the caller's array is left sorted. *)
Lemma calculateSyncToken_spec (lastUpdatedTimestamp : Z)
  (savedItems : list Item) :
  calculateSyncToken lastUpdatedTimestamp savedItems =
  (encodeToken (newest lastUpdatedTimestamp savedItems + 1),
   match savedItems with
   | [] => []
   | _ => JS.sort byUpdatedAtTimestamp savedItems
   end).
Proof.
  unfold calculateSyncToken.
  destruct savedItems as [| i rest]; [reflexivity |].
  change (0 <? List.length (i :: rest))%nat with true. cbv iota.
  set (sorted := JS.sort byUpdatedAtTimestamp (i :: rest)).
  destruct (JS.last_element sorted) as [x |] eqn:Hlast.
  - destruct (last_element_sorted sorted x (sort_sorted _) Hlast) as [Hin Hall].
    rewrite (newest_permutation lastUpdatedTimestamp (i :: rest) sorted)
      by (apply Permutation_sym, sort_permutation).
    rewrite (newest_characterized lastUpdatedTimestamp sorted x Hin Hall).
    reflexivity.
  - exfalso.
    assert (P : Permutation sorted (i :: rest)) by apply sort_permutation.
    unfold JS.last_element in Hlast.
    destruct (rev sorted) eqn:E; [| discriminate].
    apply (f_equal (@rev Item)) in E. rewrite rev_involutive in E.
    simpl in E. rewrite E in P.
    apply Permutation_nil in P. discriminate.
Qed.

(** *** [saveItems] *)

(** What [saveItems] returns once the loop has filled its two arrays. *)
Lemma saveItems_run {W} (H : Handler Cmd W) (this : ItemService)
  (dto : SaveItemsDTO) (w : W) :
  run H (saveItems this dto) w =
  match H _ TimerGetTimestampInMicroseconds w with
  | (Returned lastUpdatedTimestamp, w1) =>
      match run H (for_of (itemHashes dto) (saveItems_iteration this dto)
                     ([], [])) w1 with
      | (Returned (pushed, conflicts), w2) =>
          (Returned
             {| savedItems :=
                  snd (calculateSyncToken lastUpdatedTimestamp pushed);
                conflicts := conflicts;
                syncToken :=
                  fst (calculateSyncToken lastUpdatedTimestamp pushed) |},
           w2)
      | (Thrown e, w2) => (Thrown e, w2)
      end
  | (Thrown e, w1) => (Thrown e, w1)
  end.
Proof.
  unfold saveItems, call. simpl.
  destruct (H Z TimerGetTimestampInMicroseconds w) as [[t | e] w1];
    [| reflexivity].
  rewrite run_bind.
  destruct (run H (for_of (itemHashes dto) (saveItems_iteration this dto)
                     ([], [])) w1) as [[[pushed conflicts] | e] w2];
    [| reflexivity].
  destruct (calculateSyncToken t pushed) as [token sorted]. reflexivity.
Qed.

(** C2, as amended: the sync token [saveItems] returns is the v2 encoding of
    the largest [updatedAtTimestamp] among the saved items plus one
    microsecond, whatever the request-start timestamp was; when nothing was
    saved it is the request-start timestamp (the clock reading taken when the
    call began) plus one microsecond. *)
Theorem saveItems_syncToken {W} (H : Handler Cmd W) (this : ItemService)
  (dto : SaveItemsDTO) (w w1 w' : W) (requestStart : Z)
  (result : SaveItemsResult) :
  H _ TimerGetTimestampInMicroseconds w = (Returned requestStart, w1) ->
  run H (saveItems this dto) w = (Returned result, w') ->
  syncToken result = encodeToken (newest requestStart (savedItems result) + 1).
Proof.
  intros Hclock Hrun.
  rewrite saveItems_run, Hclock in Hrun.
  destruct (run H (for_of (itemHashes dto) (saveItems_iteration this dto)
                     ([], [])) w1) as [[[pushed conflicts] | e] w2];
    [| discriminate].
  injection Hrun as <- _.
  rewrite calculateSyncToken_spec. simpl.
  f_equal. f_equal.
  destruct pushed as [| i rest]; [reflexivity |].
  apply newest_permutation, Permutation_sym, sort_permutation.
Qed.

Lemma saveItems_syncToken_witness :
  exists result w',
    run (InMemory.handle Sample.service)
      (saveItems Sample.service
         (Sample.saveRequest [Sample.contentHash "A" "new" (Some 1000)]))
      (Sample.world 5000 [Sample.note "A" "aaa" 60 1000])
    = (Returned result, w')
    /\ syncToken result
       = encodeToken (newest 5000 (savedItems result) + 1).
Proof.
  eexists. eexists. split; [vm_compute; reflexivity |].
  eapply (saveItems_syncToken (InMemory.handle Sample.service) Sample.service
            (Sample.saveRequest [Sample.contentHash "A" "new" (Some 1000)])
            (Sample.world 5000 [Sample.note "A" "aaa" 60 1000]));
    vm_compute; reflexivity.
Defined.

(** C2, as stated, fails: a request whose only saved item is one the
    validator skipped (stored at 2000, request started at 5000) gets the
    token of 2001, not of max(5000, 2000) + 1. *)
Lemma saveItems_syncToken_ignores_request_start :
  exists result w',
    run (InMemory.handle Sample.service)
      (saveItems Sample.service
         (Sample.saveRequest [Sample.contentHash "B" "bbb" (Some 2000)]))
      (Sample.world 5000 [Sample.note "B" "bbb" 60 2000])
    = (Returned result, w')
    /\ savedItems result = [Sample.note "B" "bbb" 60 2000]
    /\ syncToken result = encodeToken 2001
    /\ ~ claimedSyncToken 5000 result.
Proof.
  eexists. eexists. split; [vm_compute; reflexivity |].
  split; [vm_compute; reflexivity |]. split; [vm_compute; reflexivity |].
  unfold claimedSyncToken. vm_compute. discriminate.
Qed.

End SyncTokenFacts.

(** ** ItemService: what [saveItems] persists *)

Module SaveItemsFacts.
Import Effects ItemService EffectsFacts.

Section Logging.
Context {Cmd : Type -> Type} {W : Type} (H : Handler Cmd W).

(** The log a run starts with is kept in front of what the run adds. *)
Lemma run_logging_frame {A} (p : Prog Cmd A) (w : W)
  (log0 : list (Entry Cmd)) :
  run (logging H) p (w, log0) =
  let '(o, (w', log)) := run (logging H) p (w, []) in
  (o, (w', log0 ++ log)).
Proof.
  revert w log0.
  induction p as [A a | A e | A X c k IH | A C body IHbody handler IHh k IHk];
    intros w log0; simpl.
  - rewrite app_nil_r. reflexivity.
  - rewrite app_nil_r. reflexivity.
  - unfold logging at 1 3. simpl.
    destruct (H X c w) as [[x | e] w1]; [| reflexivity].
    rewrite (IH x w1 (log0 ++ _)), (IH x w1 [_]).
    destruct (run (logging H) (k x) (w1, [])) as [o [w2 log]].
    rewrite <- app_assoc. reflexivity.
  - rewrite (IHbody w log0).
    destruct (run (logging H) body (w, [])) as [[b | e] [w1 log1]].
    + rewrite (IHk b w1 (log0 ++ log1)), (IHk b w1 log1).
      destruct (run (logging H) (k b) (w1, [])) as [o [w2 log]].
      rewrite <- app_assoc. reflexivity.
    + rewrite (IHh e w1 (log0 ++ log1)), (IHh e w1 log1).
      destruct (run (logging H) (handler e) (w1, [])) as [o [w2 log]].
      rewrite <- app_assoc. reflexivity.
Qed.

End Logging.

(** Case analysis on the next branch or the next collaborator answer. *)
Ltac branch :=
  match goal with
  | |- context [if ?c then _ else _] => destruct c; simpl
  end.

Ltac answer H :=
  match goal with
  | |- context [H ?X ?c ?w] =>
      let E := fresh "E" in
      destruct (H X c w) as [[? | ?] ?] eqn:E; simpl
  end.

Ltac walk H := repeat (unfold logging; simpl; first [answer H | branch]).

(** *** The item [updateExistingItem] hands to the repository *)


Lemma updated_takesVaultFromHash (this : ItemService) (existingItem : Item)
  (itemHash : ItemHash) (userUuid : string) (sessionUuid : option string)
  (updatedAt : Z) :
  takesVaultFromHash itemHash
    (stampAndSize this
       (snd (assignFromItemHash existingItem itemHash userUuid sessionUuid))
       itemHash updatedAt).
Proof.
  unfold takesVaultFromHash, stampAndSize, assignFromItemHash.
  repeat match goal with
         | |- context [if ?c then _ else _] => destruct c
         | |- context [match ?x with Some _ => _ | None => _ end] =>
             destruct x
         end;
    simpl; split; reflexivity.
Qed.

Lemma updated_keepsOmitted (this : ItemService) (existingItem : Item)
  (itemHash : ItemHash) (userUuid : string) (sessionUuid : option string)
  (updatedAt : Z) :
  keepsOmitted existingItem itemHash
    (stampAndSize this
       (snd (assignFromItemHash existingItem itemHash userUuid sessionUuid))
       itemHash updatedAt).
Proof.
  unfold keepsOmitted, stampAndSize, assignFromItemHash.
  destruct itemHash as [uuid content content_type deleted duplicate_of
                          auth_hash enc_item_key items_key_id
                          key_system_identifier shared_vault_uuid created_at
                          created_at_timestamp updated_at updated_at_timestamp].
  simpl.
  repeat split; intros; subst; simpl;
    repeat match goal with
           | |- context [if ?c then _ else _] => destruct c
           | |- context [match ?x with Some _ => _ | None => _ end] =>
               destruct x
           | |- context [match ?x with true => _ | false => _ end] =>
               destruct x
           end;
    simpl; try reflexivity; try congruence.
Qed.

Lemma updateExistingItem_saves {W} (H : Handler Cmd W) (this : ItemService)
  (existingItem : Item) (itemHash : ItemHash) (userUuid : string)
  (sessionUuid : option string) (w : W) :
  forall item,
    In item
      (savesOf (snd (snd (exec H (updateExistingItem this existingItem
                                    itemHash userUuid sessionUuid) w)))) ->
    exists updatedAt,
      item = stampAndSize this
               (snd (assignFromItemHash existingItem itemHash userUuid
                       sessionUuid)) itemHash updatedAt.
Proof.
  unfold exec, updateExistingItem.
  destruct (assignFromItemHash existingItem itemHash userUuid sessionUuid)
    as [wasMarkedAsDuplicate assigned].
  unfold call, publishWhen. walk H.
  all: simpl; intros item Hin;
    repeat destruct Hin as [<- | Hin]; try contradiction;
    eexists; reflexivity.
Qed.

(** A normal return of [updateExistingItem] went through exactly one
    [itemRepository.save]. *)
Lemma updateExistingItem_saves_once {W} (H : Handler Cmd W)
  (this : ItemService) (existingItem : Item) (itemHash : ItemHash)
  (userUuid : string) (sessionUuid : option string) (w : W) (saved : Item) :
  fst (exec H (updateExistingItem this existingItem itemHash userUuid
                 sessionUuid) w) = Returned saved ->
  exists item,
    savesOf (snd (snd (exec H (updateExistingItem this existingItem itemHash
                                 userUuid sessionUuid) w))) = [item].
Proof.
  unfold exec, updateExistingItem.
  destruct (assignFromItemHash existingItem itemHash userUuid sessionUuid)
    as [wasMarkedAsDuplicate assigned].
  unfold call, publishWhen. walk H.
  all: simpl; intros Hret; try discriminate; eexists; reflexivity.
Qed.

(** C1, as amended: on every update of an existing item, a property the
    hash omits keeps its stored value for [content_type], [deleted],
    [duplicate_of] and the creation time, and (unless the hash carries
    [deleted = true]) for [content], [enc_item_key], [auth_hash] and
    [items_key_id]; [shared_vault_uuid] and [key_system_identifier] are
    always overwritten with the hash's value, so a hash that omits them
    clears them.  A normal return has persisted exactly one such item. *)
Theorem updateExistingItem_keeps_omitted_fields {W} (H : Handler Cmd W)
  (this : ItemService) (existingItem : Item) (itemHash : ItemHash)
  (userUuid : string) (sessionUuid : option string) (w : W) :
  let run := exec H (updateExistingItem this existingItem itemHash userUuid
                       sessionUuid) w in
  (forall item,
      In item (savesOf (snd (snd run))) ->
      keepsOmitted existingItem itemHash item
      /\ takesVaultFromHash itemHash item)
  /\ (forall saved,
         fst run = Returned saved ->
         exists item, savesOf (snd (snd run)) = [item]).
Proof.
  intros run. split.
  - intros item Hin.
    destruct (updateExistingItem_saves H this existingItem itemHash userUuid
                sessionUuid w item Hin) as [updatedAt ->].
    split; [apply updated_keepsOmitted | apply updated_takesVaultFromHash].
  - intros saved Hret.
    apply (updateExistingItem_saves_once H this existingItem itemHash
             userUuid sessionUuid w saved Hret).
Qed.

Lemma updateExistingItem_keeps_omitted_fields_witness :
  let existingItem := Sample.note "A" "aaa" 60 1000 in
  let itemHash := Sample.contentHash "A" "new" (Some 1000) in
  exists item,
    savesOf
      (snd (snd (exec (InMemory.handle Sample.service)
                   (updateExistingItem Sample.service existingItem itemHash
                      "alice" (Some "session"))
                   (Sample.world 5000 [existingItem]))))
    = [item]
    /\ keepsOmitted existingItem itemHash item
    /\ takesVaultFromHash itemHash item.
Proof.
  intros existingItem itemHash.
  destruct (updateExistingItem_keeps_omitted_fields
              (InMemory.handle Sample.service) Sample.service existingItem
              itemHash "alice" (Some "session")
              (Sample.world 5000 [existingItem])) as [Hall Honce].
  destruct (Honce (Item.set_content (Some "new")
                     (Item.set_contentSize 4
                        (Item.set_updatedAt 5
                           (Item.set_updatedAtTimestamp 5000
                              (Item.set_lastEditedByUuid (Some "alice")
                                 (Item.set_updatedWithSession (Some "session")
                                    existingItem)))))))
    as [item Hitem]; [vm_compute; reflexivity |].
  exists item. split; [exact Hitem |].
  apply Hall. rewrite Hitem. left. reflexivity.
Defined.

(** C1, as stated, fails: an update whose hash omits [shared_vault_uuid] and
    [key_system_identifier] takes the item out of its vault. *)
Lemma saveItems_clears_omitted_vault :
  let existingItem := Sample.vaultNote "A" "aaa" "V" 60 1000 in
  let itemHash := Sample.contentHash "A" "new" (Some 1000) in
  exists result w',
    run (InMemory.handle Sample.service)
      (saveItems Sample.service (Sample.saveRequest [itemHash]))
      (Sample.world 5000 [existingItem])
    = (Returned result, w')
    /\ ItemHash.shared_vault_uuid itemHash = None
    /\ ItemHash.key_system_identifier itemHash = None
    /\ Item.sharedVaultUuid existingItem = Some "V"
    /\ Item.keySystemIdentifier existingItem = Some "vault-key"
    /\ map Item.sharedVaultUuid (savedItems result) = [None]
    /\ map Item.keySystemIdentifier (savedItems result) = [None]
    /\ map Item.sharedVaultUuid (InMemory.rows w') = [None]
    /\ ~ (forall item, In item (savedItems result) ->
            Item.sharedVaultUuid item = Item.sharedVaultUuid existingItem).
Proof.
  intros existingItem itemHash.
  eexists. eexists. split; [vm_compute; reflexivity |].
  repeat (split; [vm_compute; reflexivity |]).
  intros Hclaim.
  specialize (Hclaim _ (or_introl eq_refl)).
  vm_compute in Hclaim. discriminate.
Qed.

(** *** What one turn of the loop persists *)

Ltac walk_iteration H :=
  repeat (unfold logging; simpl;
          first
            [ answer H
            | branch
            | match goal with
              | |- context [match ?x with Some _ => _ | None => _ end] =>
                  destruct x; simpl
              | |- context [assignFromItemHash ?a ?b ?c ?d] =>
                  destruct (assignFromItemHash a b c d) as [? ?]; simpl
              end ]).



(** *** Two failing inputs *)

(** C5 at a failing input.  The request names [A] (updated, stamped 5001)
    and then [B] (skipped by the validator, stored at 2000): both produce a
    saved item, and [savedItems] comes back with [B] before [A], because
    [calculateSyncToken] has sorted the array it was handed. *)
Theorem saveItems_returns_savedItems_sorted :
  let dto :=
    Sample.saveRequest [Sample.contentHash "A" "new" (Some 1000);
                        Sample.contentHash "B" "bbb" (Some 2000)] in
  exists result w',
    run (InMemory.handle Sample.service) (saveItems Sample.service dto)
      (Sample.world 5000 [Sample.note "A" "aaa" 60 1000;
                          Sample.note "B" "bbb" 60 2000])
    = (Returned result, w')
    /\ map ItemHash.uuid (itemHashes dto) = ["A"; "B"]
    /\ map Item.uuid (savedItems result) = ["B"; "A"]
    /\ map Item.updatedAtTimestamp (savedItems result) = [2000; 5001]
    /\ conflicts result = [].
Proof.
  intros dto. eexists. eexists. split; [vm_compute; reflexivity |].
  repeat split; vm_compute; reflexivity.
Qed.

(** C6 at a failing input.  The store rejects the write of the existing
    item [A]: the exception leaves [saveItems], no conflict is recorded and
    the next hash, [D], is never looked up. *)
Theorem saveItems_update_failure_aborts_batch :
  let dto :=
    Sample.saveRequest [Sample.contentHash "A" "new" (Some 1000);
                        Sample.contentHash "D" "ddd" None] in
  let outcome :=
    exec (InMemory.handle Sample.service) (saveItems Sample.service dto)
      (Sample.rejecting ["A"]
         (Sample.world 5000 [Sample.note "A" "aaa" 60 1000])) in
  fst outcome = Thrown "ER_LOCK_WAIT_TIMEOUT"
  /\ lookupsOf (snd (snd outcome)) = ["A"]
  /\ InMemory.findByUuid "D" (InMemory.rows (fst (snd outcome))) = None.
Proof.
  intros dto outcome. repeat split; vm_compute; reflexivity.
Qed.

(** The sibling path: when the store rejects the write of the new item [D],
    the hash becomes a [UuidConflict] and the next hash is processed. *)
Lemma saveItems_create_failure_is_a_conflict :
  let dto :=
    Sample.saveRequest [Sample.contentHash "D" "ddd" None;
                        Sample.contentHash "A" "new" (Some 1000)] in
  exists result w',
    run (InMemory.handle Sample.service) (saveItems Sample.service dto)
      (Sample.rejecting ["D"]
         (Sample.world 5000 [Sample.note "A" "aaa" 60 1000]))
    = (Returned result, w')
    /\ map type (conflicts result) = [ConflictType.UuidConflict]
    /\ map Item.uuid (savedItems result) = ["A"].
Proof.
  intros dto. eexists. eexists. split; [vm_compute; reflexivity |].
  split; vm_compute; reflexivity.
Qed.

End SaveItemsFacts.

(** ** ItemService: [getItems] *)

Module GetItemsFacts.
Import Effects ItemService EffectsFacts SaveItemsFacts.

(** *** The effective limit *)

Lemma upperBoundLimit_min (this : ItemService) (dto : GetItemsDTO) :
  upperBoundLimit this dto =
  Z.min
    (match g_limit dto with
     | Some l => if 1 <=? l then l else DEFAULT_ITEMS_LIMIT
     | None => DEFAULT_ITEMS_LIMIT
     end)
    (maxItemsSyncLimit this).
Proof.
  unfold upperBoundLimit, limit.
  destruct (g_limit dto) as [l |].
  - destruct (Z.ltb_spec l 1), (Z.leb_spec 1 l); try lia;
      match goal with
      | |- context [?a <? ?b] => destruct (Z.ltb_spec a b)
      end; lia.
  - destruct (Z.ltb_spec DEFAULT_ITEMS_LIMIT (maxItemsSyncLimit this)); lia.
Qed.

Ltac walk_getItems H :=
  repeat (unfold logging; simpl;
          first
            [ answer H
            | branch
            | match goal with
              | |- context [match JS.last_element ?l with _ => _ end] =>
                  destruct (JS.last_element l) eqn:?; simpl
              end ]).

(** C9, as amended: the limit of the item query is
    [min(request.limit, MAX_SYNC_LIMIT)] when the request supplies a limit
    of at least 1, and [min(DEFAULT_LIMIT, MAX_SYNC_LIMIT)] with
    [DEFAULT_LIMIT = 150] when it supplies none or one below 1 (a supplied
    limit of 0 is replaced by the default, not raised to 1); every query
    [getItems] sends to the transfer calculator or to [countAll] carries
    this limit. *)
Theorem getItems_effective_limit {W} (H : Handler Cmd W) (this : ItemService)
  (dto : GetItemsDTO) (w : W) :
  upperBoundLimit this dto
  = Z.min
      (match g_limit dto with
       | Some l => if 1 <=? l then l else 150
       | None => 150
       end)
      (maxItemsSyncLimit this)
  /\ Forall (fun q => q_limit q = Some (upperBoundLimit this dto))
       (itemQueriesOf (snd (snd (exec H (getItems this dto) w)))).
Proof.
  split; [apply upperBoundLimit_min |].
  unfold exec, getItems.
  destruct (getLastSyncTime this (g_syncToken dto) (g_cursorToken dto))
    as [lastSyncTime | e]; unfold call; simpl; [| constructor].
  walk_getItems H.
  all: repeat first [apply Forall_nil | apply Forall_cons]; reflexivity.
Qed.

(** C9, as stated, fails: a supplied limit of 0 gives 150, not 1. *)
Lemma upperBoundLimit_of_zero :
  upperBoundLimit Sample.service (Sample.getRequest (Some 0)) = 150
  /\ claimedLimit Sample.service (Sample.getRequest (Some 0)) = 1
  /\ upperBoundLimit Sample.service (Sample.getRequest (Some 0))
     <> claimedLimit Sample.service (Sample.getRequest (Some 0)).
Proof.
  repeat split; vm_compute; congruence.
Qed.

(** *** The cursor token *)

(** C3, as amended: [getItems] emits a cursor token if and only if the
    total matching item count exceeds the effective limit; whether the
    transfer budget cut the selection short plays no part.  When emitted,
    the token is the v2 encoding of the last returned item's
    [updatedAtTimestamp], with no microsecond added. *)
Theorem getItems_cursorToken {W} (H : Handler Cmd W) (this : ItemService)
  (dto : GetItemsDTO) (w w' : W) (result : GetItemsResult)
  (log : list (Entry Cmd)) :
  exec H (getItems this dto) w = (Returned result, (w', log)) ->
  exists q total,
    countsOf log = [(q, total)]
    /\ (cursorToken result <> None <-> total > upperBoundLimit this dto)
    /\ (forall token,
           cursorToken result = Some token ->
           exists lastItem,
             JS.last_element (items result) = Some lastItem
             /\ token = encodeToken (Item.updatedAtTimestamp lastItem)).
Proof.
  unfold exec, getItems.
  destruct (getLastSyncTime this (g_syncToken dto) (g_cursorToken dto))
    as [lastSyncTime | e]; unfold call; simpl; [| discriminate].
  repeat (unfold logging; simpl;
          first
            [ answer H
            | match goal with
              | |- context [if ?total >? ?bound then _ else _] =>
                  destruct (Z.gtb_spec total bound); simpl
              | |- context [if ?c then _ else _] => destruct c; simpl
              | |- context [match JS.last_element ?l with _ => _ end] =>
                  destruct (JS.last_element l) eqn:?; simpl
              end ]).
  all: intros Hrun; try discriminate.
  all: injection Hrun; intros; subst; simpl.
  all: eexists; eexists; split; [reflexivity |]; simpl.
  all: split; [split; [intros; lia || congruence | intros; lia || congruence] |].
  all: intros token Htoken; try discriminate.
  all: injection Htoken as <-.
  all: eexists; split; [eassumption | reflexivity].
Qed.

Lemma getItems_cursorToken_witness :
  exists result w' log,
    exec (InMemory.handle Sample.service)
      (getItems Sample.service (Sample.getRequest (Some 2)))
      (Sample.world 5000 [Sample.note "A" "a" 10 1000;
                          Sample.note "B" "b" 10 2000;
                          Sample.note "C" "c" 10 3000])
    = (Returned result, (w', log))
    /\ cursorToken result = Some (encodeToken 2000)
    /\ exists q total,
         countsOf log = [(q, total)]
         /\ (cursorToken result <> None
             <-> total > upperBoundLimit Sample.service
                           (Sample.getRequest (Some 2)))
         /\ (forall token,
                cursorToken result = Some token ->
                exists lastItem,
                  JS.last_element (items result) = Some lastItem
                  /\ token = encodeToken (Item.updatedAtTimestamp lastItem)).
Proof.
  eexists. eexists. eexists. split; [vm_compute; reflexivity |].
  split; [vm_compute; reflexivity |].
  eapply (getItems_cursorToken (InMemory.handle Sample.service)
            Sample.service (Sample.getRequest (Some 2))
            (Sample.world 5000 [Sample.note "A" "a" 10 1000;
                                Sample.note "B" "b" 10 2000;
                                Sample.note "C" "c" 10 3000])).
  vm_compute. reflexivity.
Defined.

(** C3, as stated, fails: three matching items (at most 150 asked for), a
    budget of 100 bytes that admits only the first of them, and no cursor
    token. *)
Lemma getItems_no_cursor_when_budget_truncates :
  let dto := Sample.getRequest None in
  let table := [Sample.note "A" "aaa" 60 1000; Sample.note "B" "bbb" 60 2000;
                Sample.note "C" "c" 10 3000] in
  let q := itemQuery Sample.service dto None [] in
  let selected := InMemory.computeItemUuidsToFetch q 100 table in
  let total := InMemory.countAll q table in
  exists result w',
    run (InMemory.handle Sample.service) (getItems Sample.service dto)
      (Sample.world 5000 table)
    = (Returned result, w')
    /\ selected = ["A"]
    /\ map Item.uuid (items result) = ["A"]
    /\ total = 3
    /\ upperBoundLimit Sample.service dto = 150
    /\ budgetTruncated selected total (upperBoundLimit Sample.service dto)
    /\ cursorToken result = None
    /\ ~ (cursorToken result <> None
          <-> (total > upperBoundLimit Sample.service dto
               \/ budgetTruncated selected total
                    (upperBoundLimit Sample.service dto))).
Proof.
  intros dto table q selected total.
  eexists. eexists. split; [vm_compute; reflexivity |].
  repeat (split; [vm_compute; reflexivity |]).
  intros [_ Hclaim].
  apply Hclaim; [right; vm_compute; reflexivity | vm_compute; reflexivity].
Qed.

(** *** The last item of a page that has a successor

    This part concerns the transfer calculator and the repository, which
    [ItemService] knows as interfaces only; it is stated for the in-memory
    collaborators that follow the specification. *)







Lemma getLastSyncTime_throws (this : ItemService)
  (syncToken cursorToken : option string) (e : string) :
  getLastSyncTime this syncToken cursorToken = Thrown e ->
  e = MissingVersionPart.
Proof.
  unfold getLastSyncTime.
  repeat match goal with
         | |- context [if ?c then _ else _] => destruct c
         end;
    intros Hthrown; try discriminate.
  injection Hthrown as <-. reflexivity.
Qed.


(** [getItems] itself does not guard the read: with a calculator that
    selects nothing while the count exceeds the limit, it throws. *)
Lemma getItems_throws_without_selection {W} (H : Handler Cmd W)
  (this : ItemService) (dto : GetItemsDTO) (w w1 w2 w3 : W)
  (lastSyncTime : option Z) (users : list SharedVaultUser) (total : Z) :
  getLastSyncTime this (g_syncToken dto) (g_cursorToken dto)
  = Returned lastSyncTime ->
  H _ (SharedVaultUsersRepositoryFindAllForUser (g_userUuid dto)) w
  = (Returned users, w1) ->
  H _ (ItemTransferCalculatorComputeItemUuidsToFetch
         (itemQuery this dto lastSyncTime users)
         (contentSizeTransferLimit this)) w1
  = (Returned [], w2) ->
  H _ (ItemRepositoryCountAll (itemQuery this dto lastSyncTime users)) w2
  = (Returned total, w3) ->
  total > upperBoundLimit this dto ->
  run H (getItems this dto) w = (Thrown TypeError_updatedAtTimestamp, w3).
Proof.
  intros Htoken Husers Hselected Hcount Hgt.
  unfold getItems. rewrite Htoken. unfold call. simpl.
  rewrite Husers, Hselected. simpl. rewrite Hcount.
  destruct (Z.gtb_spec total (upperBoundLimit this dto)); [| lia].
  reflexivity.
Qed.

Local Opaque InMemory.findAll InMemory.countAll
  InMemory.computeItemUuidsToFetch.


Local Transparent InMemory.findAll InMemory.countAll
  InMemory.computeItemUuidsToFetch.


End GetItemsFacts.

(** ** The transition runner *)

Module TransitionFacts.
Import Effects Transition EffectsFacts SaveItemsFacts.

Section Logs.
Context {W : Type} (H : Handler Cmd W).

(** A run only ever appends to the log. *)
Lemma log_extends {A} (p : Prog Cmd A) (w : W) (log0 : list (Entry Cmd)) :
  exists more, snd (snd (run (logging H) p (w, log0))) = log0 ++ more.
Proof.
  rewrite run_logging_frame.
  destruct (run (logging H) p (w, [])) as [o [w' log]].
  exists log. reflexivity.
Qed.

Lemma entersCopyPhase_app (l1 l2 : list (Entry Cmd)) :
  entersCopyPhase l1 = true -> entersCopyPhase (l1 ++ l2) = true.
Proof.
  unfold entersCopyPhase. intros Hl1.
  rewrite existsb_app, Hl1. reflexivity.
Qed.

(** Once [migrateItemsForUser] has asked for the paging progress, the
    final log says so, whatever runs afterwards. *)
Lemma entersCopyPhase_kept {A} (p : Prog Cmd A) (w : W)
  (log0 : list (Entry Cmd)) :
  entersCopyPhase log0 = true ->
  entersCopyPhase (snd (snd (run (logging H) p (w, log0)))) = true.
Proof.
  intros Hentered.
  destruct (log_extends p w log0) as [more ->].
  apply entersCopyPhase_app, Hentered.
Qed.

(** The copy phase is entered by the call that was logged last. *)
Lemma entersCopyPhase_app_r (log : list (Entry Cmd)) (userUuid : string)
  (o : Outcome Z) :
  entersCopyPhase
    (log ++ [entry Z (TransitionRepositoryGetPagingProgress userUuid) o])
  = true.
Proof.
  unfold entersCopyPhase. rewrite existsb_app. simpl.
  apply orb_true_r.
Qed.

(** A [try] block that starts by asking for the paging progress. *)
Lemma entersCopyPhase_first_call {A B} (userUuid : string)
  (rest : Z -> Prog Cmd B) (handler : string -> Prog Cmd A)
  (k : B -> Prog Cmd A) (w : W) (log0 : list (Entry Cmd)) :
  entersCopyPhase
    (snd (snd (run (logging H)
                 (TryCatch
                    (Call (TransitionRepositoryGetPagingProgress userUuid)
                       rest) handler k) (w, log0)))) = true.
Proof.
  simpl. unfold logging at 1. simpl.
  destruct (H Z (TransitionRepositoryGetPagingProgress userUuid) w)
    as [[initialPage | e] w1].
  - pose proof (entersCopyPhase_kept (rest initialPage) w1 _
                  (entersCopyPhase_app_r log0 userUuid (Returned initialPage)))
      as Hkept.
    destruct (run (logging H) (rest initialPage) _) as [[b | e] [w2 log2]];
      simpl in Hkept; apply entersCopyPhase_kept, Hkept.
  - apply entersCopyPhase_kept, entersCopyPhase_app_r.
Qed.

Lemma logging_returned {X} (c : Cmd X) (w w' : W) (x : X)
  (log : list (Entry Cmd)) :
  H X c w = (Returned x, w') ->
  logging H X c (w, log)
  = (Returned x, (w', log ++ [entry X c (Returned x)])).
Proof.
  intros E. unfold logging. simpl. rewrite E. reflexivity.
Qed.

Lemma logging_thrown {X} (c : Cmd X) (w w' : W) (e : string)
  (log : list (Entry Cmd)) :
  H X c w = (Thrown e, w') ->
  logging H X c (w, log)
  = (Thrown e, (w', log ++ [entry X c (Thrown e)])).
Proof.
  intros E. unfold logging. simpl. rewrite E. reflexivity.
Qed.

End Logs.

(** Replace the next logged call by the answer in [E]. *)
Ltac logged H E :=
  first [ rewrite (logging_returned H _ _ _ _ _ E)
        | rewrite (logging_thrown H _ _ _ _ _ E) ];
  simpl.

(** Ask a dependable collaborator. *)
Ltac depend H Hdependable :=
  match goal with
  | |- context [logging H _ ?c (?w, _)] =>
      let E := fresh "E" in
      let w' := fresh "w" in
      destruct (Hdependable c w) as [w' E] || fail 1;
      logged H E
  end.

(** C7, as amended: the precondition looks at the store the items are read
    from (the secondary repository), not at the store they are written to.
    If that source store holds no item for the user, the runner copies
    nothing, publishes the single status [Verified] and returns
    successfully; if it holds at least one, the copy phase is entered,
    whatever the target store contains. *)
Theorem execute_precondition {W} (H : Handler Cmd W) (this : UseCase)
  (dto : DTO) (w w1 w2 : W) (userUuidValue : string) (total : Z) :
  secondaryItemRepositoryIsSet this = true ->
  transitionStatusRepositoryIsSet this = true ->
  Uuid_create this (userUuid dto) = inr userUuidValue ->
  Dependable H ->
  H _ (LoggerInfo ("[" +++ userUuid dto +++ "] Transitioning items")) w
  = (Returned tt, w1) ->
  H _ (ItemRepositoryCountAll Secondary (userQuery userUuidValue)) w1
  = (Returned total, w2) ->
  let outcome := exec H (execute this dto) w in
  (total = 0 ->
   fst outcome = Returned Ok
   /\ statuses (snd (snd outcome)) = [Verified]
   /\ forallb (fun e => negb (isCopyCall e)) (snd (snd outcome)) = true)
  /\ (total <> 0 -> entersCopyPhase (snd (snd outcome)) = true).
Proof.
  intros Hsecondary Hstatus Huuid [Hlogger [Htimer Hpublisher]] Hfirst Hcount
    outcome.
  assert (Hcall : forall (c : Cmd unit) w,
             (exists message, c = LoggerInfo message)
             \/ (exists event, c = DomainEventPublisherPublish event) ->
             exists w', H unit c w = (Returned tt, w')).
  { intros c w0 [[message ->] | [event ->]];
      [apply Hlogger | apply Hpublisher]. }
  subst outcome. unfold exec, execute, isAlreadyMigrated.
  rewrite Hsecondary, Hstatus, Huuid.
  unfold call, updateTransitionStatus, call. simpl. simpl in Hfirst, Hcount.
  logged H Hfirst. logged H Hcount.
  split.
  - intros ->. simpl.
    match goal with
    | |- context [logging H _ (LoggerInfo ?message) (w2, _)] =>
        destruct (Hlogger message w2) as [w3 E3]; logged H E3
    end.
    match goal with
    | |- context [logging H _ (DomainEventPublisherPublish ?event) (w3, _)] =>
        destruct (Hpublisher event w3) as [w4 E4]; logged H E4
    end.
    repeat split; reflexivity.
  - intros Hpositive.
    assert (Hnot : (total =? 0) = false) by (apply Z.eqb_neq; exact Hpositive).
    assert (Hcopy :
              forall {A} (k : Result -> Prog Cmd A) w0 log0,
                entersCopyPhase
                  (snd (snd (run (logging H)
                               (bind (migrateItemsForUser this userUuidValue
                                        (timestamp dto)) k) (w0, log0))))
                = true).
    { intros A k w0 log0. unfold migrateItemsForUser, call. cbn [bind].
      apply entersCopyPhase_first_call. }
    destruct (total >? 0); simpl.
    + match goal with
      | |- context [logging H _ (LoggerInfo ?message) (w2, _)] =>
          destruct (Hlogger message w2) as [w3 E3]; logged H E3
      end.
      rewrite Hnot. simpl.
      destruct (Htimer w3) as [start [w4 E4]]. logged H E4.
      match goal with
      | |- context [logging H _ (LoggerInfo ?message) (w4, _)] =>
          destruct (Hlogger message w4) as [w5 E5]; logged H E5
      end.
      apply Hcopy.
    + rewrite Hnot. simpl.
      destruct (Htimer w2) as [start [w4 E4]]. logged H E4.
      match goal with
      | |- context [logging H _ (LoggerInfo ?message) (w4, _)] =>
          destruct (Hlogger message w4) as [w5 E5]; logged H E5
      end.
      apply Hcopy.
Qed.

Lemma inMemory_dependable : Dependable InMemory.handle.
Proof.
  repeat split; intros; simpl; repeat eexists.
Qed.

Lemma execute_precondition_witness :
  let migrated := Sample.world [Sample.item "X" "x" 10] [] in
  let pending :=
    Sample.world [Sample.item "X" "x" 10]
      [Sample.item "A" "a" 1; Sample.item "B" "b" 2; Sample.item "C" "c" 3] in
  (fst (exec InMemory.handle (execute Sample.useCase Sample.request) migrated)
   = Returned Ok
   /\ statuses
        (snd (snd (exec InMemory.handle
                     (execute Sample.useCase Sample.request) migrated)))
      = [Verified]
   /\ forallb (fun e => negb (isCopyCall e))
        (snd (snd (exec InMemory.handle
                     (execute Sample.useCase Sample.request) migrated)))
      = true)
  /\ entersCopyPhase
       (snd (snd (exec InMemory.handle
                    (execute Sample.useCase Sample.request) pending)))
     = true.
Proof.
  intros migrated pending. split.
  - eapply (execute_precondition InMemory.handle Sample.useCase Sample.request
              migrated _ _ "alice" 0);
      try reflexivity.
    apply inMemory_dependable.
  - eapply (execute_precondition InMemory.handle Sample.useCase Sample.request
              pending _ _ "alice" 3);
      try reflexivity.
    + apply inMemory_dependable.
    + discriminate.
Defined.

(** C7, as stated, fails in both directions.  With an item already in the
    target store (the primary repository, the one [migrateItemsForUser]
    saves to) and three items in the source, the copy phase runs and writes
    the three items next to it.  With both stores empty, nothing is copied
    and [Verified] is published. *)
Lemma execute_ignores_target_store :
  let occupied :=
    Sample.world [Sample.item "X" "x" 10]
      [Sample.item "A" "a" 1; Sample.item "B" "b" 2; Sample.item "C" "c" 3] in
  let empty := Sample.world [] [] in
  let run1 :=
    exec InMemory.handle (execute Sample.useCase Sample.request) occupied in
  let run2 :=
    exec InMemory.handle (execute Sample.useCase Sample.request) empty in
  (InMemory.countAll (userQuery "alice") (InMemory.primary occupied) = 1
   /\ entersCopyPhase (snd (snd run1)) = true
   /\ map Item.uuid (InMemory.primary (fst (snd run1))) = ["X"; "A"; "B"; "C"])
  /\ (InMemory.countAll (userQuery "alice") (InMemory.primary empty) = 0
      /\ entersCopyPhase (snd (snd run2)) = false
      /\ statuses (snd (snd run2)) = [Verified]
      /\ fst run2 = Returned Ok).
Proof.
  intros occupied empty run1 run2.
  repeat split; vm_compute; reflexivity.
Qed.

(** C8 at a failing input.  Copy and verification succeed, then the
    secondary store refuses the cleanup: [execute] publishes [Failed], logs
    the error, and goes on to publish [Verified] and to return successfully. *)
Theorem execute_publishes_Verified_after_Failed :
  let w :=
    Sample.withoutCleanup
      (Sample.world []
         [Sample.item "A" "a" 1; Sample.item "B" "b" 2;
          Sample.item "C" "c" 3]) in
  let outcome :=
    exec InMemory.handle (execute Sample.useCase Sample.request) w in
  fst outcome = Returned Ok
  /\ statuses (snd (snd outcome)) = [InProgress; InProgress; Failed; Verified]
  /\ InMemory.errors (fst (snd outcome))
     = ["[alice] Failed to clean up secondary database items: ER_LOCK_WAIT_TIMEOUT"]
  /\ ~ neverVerifiedAfterFailed (statuses (snd (snd outcome))).
Proof.
  intros w outcome.
  assert (Hstatuses : statuses (snd (snd outcome))
                      = [InProgress; InProgress; Failed; Verified])
    by (vm_compute; reflexivity).
  repeat split; try (vm_compute; reflexivity).
  rewrite Hstatuses. intros Hnever.
  apply (Hnever [InProgress; InProgress] [Verified] eq_refl).
  left. reflexivity.
Qed.

End TransitionFacts.

(** ** Loops and logs *)

Module LoopFacts.
Import Effects Logs EffectsFacts SaveItemsFacts.

Section Collect.
Context {Cmd : Type -> Type} {A : Type} (f : Entry Cmd -> option A).

Lemma collect_app (l1 l2 : list (Entry Cmd)) :
  collect f (l1 ++ l2) = collect f l1 ++ collect f l2.
Proof.
  unfold collect. apply flat_map_app.
Qed.

Lemma collect_in (a : A) (log : list (Entry Cmd)) :
  In a (collect f log) <-> exists e, In e log /\ f e = Some a.
Proof.
  unfold collect. rewrite in_flat_map. split.
  - intros [e [He Ha]]. exists e. split; [exact He |].
    destruct (f e) as [b |]; [| contradiction].
    destruct Ha as [-> | []]. reflexivity.
  - intros [e [He Ha]]. exists e. split; [exact He |].
    rewrite Ha. left. reflexivity.
Qed.

End Collect.

Section Loops.
Context {Cmd : Type -> Type} {W : Type} (H : Handler Cmd W).

(** A logged run is the run from the empty log, put behind the log it
    started with. *)
Lemma exec_frame {A} (p : Prog Cmd A) (w w' : W) (o : Outcome A)
  (log0 log : list (Entry Cmd)) :
  run (logging H) p (w, log0) = (o, (w', log)) ->
  exists more, exec H p w = (o, (w', more)) /\ log = log0 ++ more.
Proof.
  rewrite run_logging_frame. unfold exec.
  destruct (run (logging H) p (w, [])) as [o1 [w1 more]].
  intros E. injection E as -> -> <-.
  exists more. split; reflexivity.
Qed.

(** The log of [bind p f] is the log of [p] followed by that of [f]. *)
Lemma exec_bind {A B} (p : Prog Cmd A) (f : A -> Prog Cmd B) (w w' : W)
  (o : Outcome B) (log : list (Entry Cmd)) :
  exec H (bind p f) w = (o, (w', log)) ->
  (exists a w1 log1 log2,
      exec H p w = (Returned a, (w1, log1))
      /\ exec H (f a) w1 = (o, (w', log2))
      /\ log = log1 ++ log2)
  \/ (exists e, exec H p w = (Thrown e, (w', log)) /\ o = Thrown e).
Proof.
  unfold exec. rewrite run_bind.
  destruct (run (logging H) p (w, [])) as [[a | e] [w1 log1]].
  - intros E. destruct (exec_frame _ _ _ _ _ _ E) as [log2 [E2 ->]].
    left. exists a, w1, log1, log2. repeat split. exact E2.
  - intros E. injection E as <- <- <-. right. exists e. split; reflexivity.
Qed.

Lemma exec_call {X} (c : Cmd X) (w w' : W) (o : Outcome X)
  (log : list (Entry Cmd)) :
  exec H (call c) w = (o, (w', log)) ->
  H X c w = (o, w') /\ log = [entry X c o].
Proof.
  unfold exec. rewrite run_call. unfold logging. simpl.
  destruct (H X c w) as [o1 w1]. intros E. injection E as <- <- <-.
  split; reflexivity.
Qed.

(** A property of the log that every turn of a loop keeps holds when the
    loop ends, however it ends. *)
Lemma for_of_log {A S} (P : list (Entry Cmd) -> Prop) (xs : list A)
  (body : A -> S -> Prog Cmd S) :
  (forall x s w log o w' log',
      In x xs -> P log ->
      run (logging H) (body x s) (w, log) = (o, (w', log')) -> P log') ->
  forall s w log o w' log',
    P log ->
    run (logging H) (for_of xs body s) (w, log) = (o, (w', log')) -> P log'.
Proof.
  induction xs as [| x xs IH]; intros Hstep s w log o w' log' HP; simpl.
  - intros E. injection E as _ _ <-. exact HP.
  - rewrite run_bind.
    destruct (run (logging H) (body x s) (w, log)) as [[s1 | e] [w1 log1]]
      eqn:E1.
    + apply IH.
      * intros y s0 w0 l0 o0 w0' l0' Hy. apply Hstep. right. exact Hy.
      * apply (Hstep x s w log _ _ _ (or_introl eq_refl) HP E1).
    + intros E. injection E as _ _ <-.
      apply (Hstep x s w log _ _ _ (or_introl eq_refl) HP E1).
Qed.

(** An invariant that relates the loop's variables and the log to the
    elements processed so far holds of all elements when the loop returns. *)
Lemma for_of_returned {A S} (Inv : list A -> S -> list (Entry Cmd) -> Prop)
  (xs : list A) (body : A -> S -> Prog Cmd S) :
  (forall processed x s w log s' w' more,
      Inv processed s log ->
      exec H (body x s) w = (Returned s', (w', more)) ->
      Inv (processed ++ [x]) s' (log ++ more)) ->
  forall processed s w s' w' log more,
    Inv processed s log ->
    exec H (for_of xs body s) w = (Returned s', (w', more)) ->
    Inv (processed ++ xs) s' (log ++ more).
Proof.
  intros Hstep.
  induction xs as [| x xs IH]; intros processed s w s' w' log more HI; simpl.
  - unfold exec. simpl. intros E. injection E as <- _ <-.
    rewrite !app_nil_r. exact HI.
  - intros E. apply exec_bind in E.
    destruct E as [[s1 [w1 [log1 [log2 [E1 [E2 ->]]]]]] | [e [_ E]]];
      [| discriminate].
    replace (processed ++ x :: xs) with ((processed ++ [x]) ++ xs)
      by (rewrite <- app_assoc; reflexivity).
    rewrite app_assoc.
    apply (IH _ s1 w1 s' w'); [| exact E2].
    apply (Hstep processed x s w log s1 w1 log1 HI E1).
Qed.

(** The same for a loop that may return from the enclosing function: when
    it runs to its end, every element has been processed. *)
Lemma for_of_return_finished {A R} (Inv : list A -> list (Entry Cmd) -> Prop)
  (xs : list A) (body : A -> Prog Cmd (option R)) :
  (forall processed x w log w' more,
      Inv processed log ->
      exec H (body x) w = (Returned None, (w', more)) ->
      Inv (processed ++ [x]) (log ++ more)) ->
  forall processed w w' log more,
    Inv processed log ->
    exec H (for_of_return xs body) w = (Returned None, (w', more)) ->
    Inv (processed ++ xs) (log ++ more).
Proof.
  intros Hstep.
  induction xs as [| x xs IH]; intros processed w w' log more HI; simpl.
  - unfold exec. simpl. intros E. injection E as _ <-.
    rewrite !app_nil_r. exact HI.
  - intros E. apply exec_bind in E.
    destruct E as [[r [w1 [log1 [log2 [E1 [E2 ->]]]]]] | [e [_ E]]];
      [| discriminate].
    destruct r as [v |].
    + unfold exec in E2. simpl in E2. discriminate.
    + replace (processed ++ x :: xs) with ((processed ++ [x]) ++ xs)
        by (rewrite <- app_assoc; reflexivity).
      rewrite app_assoc.
      apply (IH _ w1 w'); [| exact E2].
      apply (Hstep processed x w log w1 log1 HI E1).
Qed.

(** A loop whose body always returns, returns. *)
Lemma for_of_returns {A S} (xs : list A) (body : A -> S -> Prog Cmd S) :
  (forall x s w, exists s' w', run H (body x s) w = (Returned s', w')) ->
  forall s w, exists s' w', run H (for_of xs body s) w = (Returned s', w').
Proof.
  intros Hbody. induction xs as [| x xs IH]; intros s w; simpl.
  - exists s, w. reflexivity.
  - rewrite run_bind. destruct (Hbody x s w) as [s1 [w1 ->]]. apply IH.
Qed.

(** What a loop returns from the enclosing function was returned by one of
    its turns. *)
Lemma for_of_return_result {A R} (P : R -> Prop) (xs : list A)
  (body : A -> Prog Cmd (option R)) :
  (forall x w v w', run H (body x) w = (Returned (Some v), w') -> P v) ->
  forall w v w',
    run H (for_of_return xs body) w = (Returned (Some v), w') -> P v.
Proof.
  intros Hbody. induction xs as [| x xs IH]; intros w v w'; simpl.
  - discriminate.
  - rewrite run_bind.
    destruct (run H (body x) w) as [[[r |] | e] w1] eqn:E; simpl.
    + intros Hr. injection Hr as <- _. apply (Hbody x w r w1 E).
    + apply IH.
    + discriminate.
Qed.

(** *** Programs that stay within a set of calls *)

Variable Q : forall X, Cmd X -> Prop.

Lemma issuesOnly_bind {A B} (p : Prog Cmd A) (f : A -> Prog Cmd B) :
  issuesOnly Q p -> (forall a, issuesOnly Q (f a)) -> issuesOnly Q (bind p f).
Proof.
  intros Hp Hf.
  induction p as [A a | A e | A X c k IH | A C body IHbody handler IHh k IHk];
    simpl in *.
  - apply Hf.
  - exact I.
  - destruct Hp as [Hc Hk]. split; [exact Hc |].
    intros x. apply IH; [apply Hk | exact Hf].
  - destruct Hp as [Hbody [Hh Hk]]. split; [exact Hbody |]. split.
    + intros e. apply IHh; [apply Hh | exact Hf].
    + intros b. apply IHk; [apply Hk | exact Hf].
Qed.

Lemma issuesOnly_call {X} (c : Cmd X) : Q X c -> issuesOnly Q (call c).
Proof.
  intros Hc. simpl. split; [exact Hc | intros; exact I].
Qed.

Lemma issuesOnly_for_of {A S} (xs : list A) (body : A -> S -> Prog Cmd S)
  (s : S) :
  (forall x s, issuesOnly Q (body x s)) -> issuesOnly Q (for_of xs body s).
Proof.
  intros Hbody. revert s.
  induction xs as [| x xs IH]; intros s; simpl; [exact I |].
  apply issuesOnly_bind; [apply Hbody | exact IH].
Qed.

Lemma issuesOnly_for_of_return {A R} (xs : list A)
  (body : A -> Prog Cmd (option R)) :
  (forall x, issuesOnly Q (body x)) -> issuesOnly Q (for_of_return xs body).
Proof.
  intros Hbody.
  induction xs as [| x xs IH]; simpl; [exact I |].
  apply issuesOnly_bind; [apply Hbody |].
  intros [v |]; [exact I | exact IH].
Qed.

(** A program that issues calls of [Q] only leaves a log within [Q]. *)
Lemma issuesOnly_run {A} (p : Prog Cmd A) (w : W) (log0 : list (Entry Cmd)) :
  issuesOnly Q p ->
  within Q log0 ->
  within Q (snd (snd (run (logging H) p (w, log0)))).
Proof.
  revert w log0.
  induction p as [A a | A e | A X c k IH | A C body IHbody handler IHh k IHk];
    intros w log0 Hp Hlog; simpl in *.
  - exact Hlog.
  - exact Hlog.
  - destruct Hp as [Hc Hk]. unfold logging at 1. simpl.
    destruct (H X c w) as [[x | e] w1]; simpl.
    + apply IH; [apply Hk |].
      apply Forall_app. split; [exact Hlog |]. repeat constructor. exact Hc.
    + apply Forall_app. split; [exact Hlog |]. repeat constructor. exact Hc.
  - destruct Hp as [Hbody [Hh Hk]].
    pose proof (IHbody w log0 Hbody Hlog) as Hbody'.
    destruct (run (logging H) body (w, log0)) as [[b | e] [w1 log1]];
      simpl in Hbody'.
    + apply IHk; [apply Hk | exact Hbody'].
    + apply IHh; [apply Hh | exact Hbody'].
Qed.

Lemma issuesOnly_exec {A} (p : Prog Cmd A) (w : W) :
  issuesOnly Q p -> within Q (snd (snd (exec H p w))).
Proof.
  intros Hp. apply issuesOnly_run; [exact Hp | constructor].
Qed.

End Loops.

(** A log within [Q] holds no entry that [f] reads, when [f] reads calls
    outside [Q] only. *)
Lemma within_collect_nil {Cmd : Type -> Type} {A}
  (Q : forall X, Cmd X -> Prop) (f : Entry Cmd -> option A)
  (log : list (Entry Cmd)) :
  (forall e, Q (entry_type e) (entry_cmd e) -> f e = None) ->
  within Q log -> collect f log = [].
Proof.
  intros Hf Hlog. induction Hlog as [| e log He _ IH]; [reflexivity |].
  unfold collect in *. simpl. rewrite (Hf e He). exact IH.
Qed.

End LoopFacts.

(** ** ItemService: the batch loop of [saveItems] *)

Module SaveBatchFacts.
Import Effects Logs ItemService EffectsFacts SyncTokenFacts SaveItemsFacts.
Import LoopFacts.

Lemma savesOf_collect (log : list (Entry Cmd)) :
  savesOf log = collect savedArgument log.
Proof.
  induction log as [| e log IH]; [reflexivity |].
  unfold collect in *. simpl. destruct (savedArgument e); simpl; congruence.
Qed.

Lemma lookupsOf_collect (log : list (Entry Cmd)) :
  lookupsOf log = collect lookedUp log.
Proof.
  induction log as [| e log IH]; [reflexivity |].
  unfold collect in *. simpl. destruct (lookedUp e); simpl; congruence.
Qed.

Lemma savesOf_app (l1 l2 : list (Entry Cmd)) :
  savesOf (l1 ++ l2) = savesOf l1 ++ savesOf l2.
Proof.
  rewrite !savesOf_collect. apply collect_app.
Qed.

Lemma lookupsOf_app (l1 l2 : list (Entry Cmd)) :
  lookupsOf (l1 ++ l2) = lookupsOf l1 ++ lookupsOf l2.
Proof.
  rewrite !lookupsOf_collect. apply collect_app.
Qed.

(** The log of [saveItems]: the clock reading, then the loop. *)
Lemma saveItems_log {W} (H : Handler Cmd W) (this : ItemService)
  (dto : SaveItemsDTO) (w w' : W) (o : Outcome SaveItemsResult)
  (log : list (Entry Cmd)) :
  exec H (saveItems this dto) w = (o, (w', log)) ->
  (exists e,
      o = Thrown e
      /\ log = [entry Z TimerGetTimestampInMicroseconds (Thrown e)])
  \/ (exists t w1 o1 loopLog,
         exec H (for_of (itemHashes dto) (saveItems_iteration this dto)
                   ([], [])) w1 = (o1, (w', loopLog))
         /\ log = entry Z TimerGetTimestampInMicroseconds (Returned t)
                  :: loopLog
         /\ match o1 with
            | Returned (pushed, conflicts0) =>
                o = Returned
                      {| savedItems := snd (calculateSyncToken t pushed);
                         conflicts := conflicts0;
                         syncToken := fst (calculateSyncToken t pushed) |}
            | Thrown e => o = Thrown e
            end).
Proof.
  unfold saveItems. intros E. apply exec_bind in E.
  destruct E as [[t [w1 [log1 [log2 [E1 [E2 ->]]]]]] | [e [E1 ->]]].
  - apply exec_call in E1. destruct E1 as [_ ->].
    apply exec_bind in E2.
    destruct E2 as [[[pushed conflicts0] [w2 [log3 [log4 [E3 [E4 ->]]]]]]
                   | [e [E3 ->]]].
    + right. exists t, w1, (Returned (pushed, conflicts0)), log3.
      destruct (calculateSyncToken t pushed) as [token sorted].
      unfold exec in E4. simpl in E4. injection E4 as <- <- <-.
      rewrite app_nil_r. repeat split. exact E3.
    + right. exists t, w1, (Thrown e), log2. repeat split. exact E3.
  - apply exec_call in E1. destruct E1 as [_ ->]. left. exists e.
    split; reflexivity.
Qed.

(** *** A read-only session *)

Lemma saveItems_readOnly_issuesOnly (this : ItemService) (dto : SaveItemsDTO) :
  readOnlyAccess dto = true -> issuesOnly isRead (saveItems this dto).
Proof.
  intros Hro. unfold saveItems.
  apply issuesOnly_bind; [apply issuesOnly_call; exact I |].
  intros t. apply issuesOnly_bind.
  - apply issuesOnly_for_of. intros itemHash [pushed conflicts0].
    unfold saveItems_iteration. rewrite Hro. simpl. split; [exact I |].
    intros; exact I.
  - intros [pushed conflicts0].
    destruct (calculateSyncToken t pushed). exact I.
Qed.

(** X1: with [readOnlyAccess] set, [saveItems] reads the clock and looks
    items up and calls nothing else: no validation, no write, no event, no
    log line, whatever the collaborators answer and however the call ends. *)
Theorem saveItems_readOnly_only_reads {W} (H : Handler Cmd W)
  (this : ItemService) (dto : SaveItemsDTO) (w : W) :
  readOnlyAccess dto = true ->
  within isRead (snd (snd (exec H (saveItems this dto) w))).
Proof.
  intros Hro. apply issuesOnly_exec, saveItems_readOnly_issuesOnly, Hro.
Qed.

Lemma saveItems_readOnly_only_reads_witness :
  within isRead
    (snd (snd (exec (InMemory.handle Sample.service)
                 (saveItems Sample.service
                    {| itemHashes := [Sample.contentHash "A" "new" (Some 1000)];
                       s_userUuid := "alice"; apiVersion := "20200115";
                       readOnlyAccess := true; sessionUuid := Some "session";
                       snjsVersion := "2.0.0" |})
                 (Sample.world 5000 [Sample.note "A" "aaa" 60 1000])))).
Proof.
  apply (saveItems_readOnly_only_reads (InMemory.handle Sample.service)
           Sample.service).
  reflexivity.
Defined.


Lemma readOnlyConflicts_snoc (hashes : list ItemHash)
  (found : list (option Item)) (itemHash : ItemHash) (answer : option Item) :
  List.length found = List.length hashes ->
  readOnlyConflicts (hashes ++ [itemHash]) (found ++ [answer])
  = readOnlyConflicts hashes found ++ [readOnlyConflict itemHash answer].
Proof.
  unfold readOnlyConflicts. revert found.
  induction hashes as [| h hashes IH]; intros [| f found] Hlen;
    try discriminate; simpl.
  - reflexivity.
  - rewrite IH by (injection Hlen as Hlen; exact Hlen). reflexivity.
Qed.

(** One turn of the loop in a read-only session. *)
Lemma saveItems_iteration_readOnly {W} (H : Handler Cmd W)
  (this : ItemService) (dto : SaveItemsDTO) (itemHash : ItemHash)
  (arrays arrays' : list Item * list ItemConflict) (w w' : W)
  (more : list (Entry Cmd)) :
  readOnlyAccess dto = true ->
  exec H (saveItems_iteration this dto itemHash arrays) w
  = (Returned arrays', (w', more)) ->
  exists found,
    collect foundAnswer more = [found]
    /\ collect clockReading more = []
    /\ arrays' = (fst arrays, snd arrays ++ [readOnlyConflict itemHash found]).
Proof.
  intros Hro. unfold exec, saveItems_iteration.
  destruct arrays as [pushed conflicts0]. rewrite Hro.
  unfold call. walk H; intros Erun; [| discriminate].
  injection Erun as <- _ <-. eexists. repeat split.
Qed.

(** X2: a read-only session that returns has saved nothing and reports one
    [ReadOnlyError] conflict per item hash, in the order of the request,
    each with the hash and with the stored item the lookup answered (none
    when the uuid is unknown); its sync token is the clock reading taken at
    the start plus one microsecond. *)
Theorem saveItems_readOnly_result {W} (H : Handler Cmd W)
  (this : ItemService) (dto : SaveItemsDTO) (w w' : W)
  (result : SaveItemsResult) (log : list (Entry Cmd)) :
  readOnlyAccess dto = true ->
  exec H (saveItems this dto) w = (Returned result, (w', log)) ->
  savedItems result = []
  /\ List.length (collect foundAnswer log) = List.length (itemHashes dto)
  /\ conflicts result
     = readOnlyConflicts (itemHashes dto) (collect foundAnswer log)
  /\ exists requestStart,
       collect clockReading log = [requestStart]
       /\ syncToken result = encodeToken (requestStart + 1).
Proof.
  intros Hro E. apply saveItems_log in E.
  destruct E as [[e [E _]] | [t [w1 [o1 [loopLog [Eloop [-> Eo]]]]]]];
    [discriminate |].
  destruct o1 as [[pushed conflicts0] | e]; [| discriminate].
  injection Eo as ->.
  assert (Hloop :
            (pushed, conflicts0) = ([], readOnlyConflicts (itemHashes dto)
                                          (collect foundAnswer loopLog))
            /\ List.length (collect foundAnswer loopLog)
               = List.length (itemHashes dto)
            /\ collect clockReading loopLog = []).
  { pose proof
      (for_of_returned H
         (fun processed (arrays : list Item * list ItemConflict) log =>
            arrays = ([], readOnlyConflicts processed
                            (collect foundAnswer log))
            /\ List.length (collect foundAnswer log)
               = List.length processed
            /\ collect clockReading log = [])
         (itemHashes dto) (saveItems_iteration this dto)) as Hinv.
    simpl in Hinv.
    apply (fun Hstep => Hinv Hstep [] ([], []) w1 (pushed, conflicts0) w' []
                          loopLog);
      [| repeat split | exact Eloop].
    intros processed itemHash arrays w0 log0 arrays' w0' more
      [-> [Hlen Hclock]] Estep.
    destruct (saveItems_iteration_readOnly H this dto itemHash _ _ _ _ _
                Hro Estep) as [found [Hfound [Hnoclock ->]]].
    rewrite !collect_app, Hfound, Hnoclock, Hclock. simpl.
    rewrite readOnlyConflicts_snoc by exact Hlen.
    rewrite !length_app, Hlen. repeat split. }
  destruct Hloop as [Harrays [Hlen Hclock]].
  injection Harrays as -> ->. simpl.
  change (collect foundAnswer
            (entry Z TimerGetTimestampInMicroseconds (Returned t) :: loopLog))
    with (collect foundAnswer loopLog).
  repeat split; [exact Hlen |].
  exists t. split; [| reflexivity].
  change (collect clockReading
            (entry Z TimerGetTimestampInMicroseconds (Returned t) :: loopLog))
    with (t :: collect clockReading loopLog).
  rewrite Hclock. reflexivity.
Qed.

Lemma saveItems_readOnly_result_witness :
  exists result w' log,
    exec (InMemory.handle Sample.service)
      (saveItems Sample.service
         {| itemHashes := [Sample.contentHash "A" "new" (Some 1000);
                           Sample.contentHash "D" "ddd" None];
            s_userUuid := "alice"; apiVersion := "20200115";
            readOnlyAccess := true; sessionUuid := Some "session";
            snjsVersion := "2.0.0" |})
      (Sample.world 5000 [Sample.note "A" "aaa" 60 1000])
    = (Returned result, (w', log))
    /\ savedItems result = []
    /\ map type (conflicts result)
       = [ConflictType.ReadOnlyError; ConflictType.ReadOnlyError]
    /\ map serverItem (conflicts result)
       = [Some (Sample.note "A" "aaa" 60 1000); None]
    /\ syncToken result = encodeToken 5001.
Proof.
  eexists. eexists. eexists. split; [vm_compute; reflexivity |].
  destruct (saveItems_readOnly_result (InMemory.handle Sample.service)
              Sample.service
              {| itemHashes := [Sample.contentHash "A" "new" (Some 1000);
                                Sample.contentHash "D" "ddd" None];
                 s_userUuid := "alice"; apiVersion := "20200115";
                 readOnlyAccess := true; sessionUuid := Some "session";
                 snjsVersion := "2.0.0" |}
              (Sample.world 5000 [Sample.note "A" "aaa" 60 1000]) _ _ _
              eq_refl ltac:(vm_compute; reflexivity))
    as [Hsaved [_ [Hconflicts [requestStart [_ _]]]]].
  split; [exact Hsaved |].
  repeat split; vm_compute; reflexivity.
Defined.

(** *** One pass over the request *)

Ltac enter_iteration arrays :=
  unfold exec, saveItems_iteration, updateExistingItem, saveNewItem;
  destruct arrays as [? ?];
  unfold call, publishWhen.

(** Every turn starts with the lookup of its hash and makes no other. *)
Lemma saveItems_iteration_lookups {W} (H : Handler Cmd W)
  (this : ItemService) (dto : SaveItemsDTO) (itemHash : ItemHash)
  (arrays : list Item * list ItemConflict) (w : W) :
  lookupsOf (snd (snd (exec H (saveItems_iteration this dto itemHash arrays)
                         w)))
  = [ItemHash.uuid itemHash].
Proof.
  enter_iteration arrays. walk_iteration H. all: reflexivity.
Qed.

Lemma saveItems_loop_lookups {W} (H : Handler Cmd W) (this : ItemService)
  (dto : SaveItemsDTO) (hashes : list ItemHash) :
  forall (arrays : list Item * list ItemConflict) (w w' : W)
    (o : Outcome (list Item * list ItemConflict)) (log : list (Entry Cmd)),
    exec H (for_of hashes (saveItems_iteration this dto) arrays) w
    = (o, (w', log)) ->
    (exists n, lookupsOf log = firstn n (map ItemHash.uuid hashes))
    /\ (forall arrays', o = Returned arrays' ->
                        lookupsOf log = map ItemHash.uuid hashes).
Proof.
  induction hashes as [| itemHash hashes IH]; intros arrays w w' o log E.
  - unfold exec in E. simpl in E. injection E as <- _ <-.
    split; [exists 0%nat |]; reflexivity.
  - simpl in E. apply exec_bind in E.
    destruct E as [[arrays1 [w1 [log1 [log2 [E1 [E2 ->]]]]]] | [e [E1 ->]]].
    + pose proof (saveItems_iteration_lookups H this dto itemHash arrays w)
        as Hfirst.
      rewrite E1 in Hfirst. simpl in Hfirst.
      destruct (IH _ _ _ _ _ E2) as [[n Hn] Hall].
      rewrite lookupsOf_app, Hfirst. split.
      * exists (S n). simpl. rewrite Hn. reflexivity.
      * intros arrays' Ho. simpl. rewrite (Hall _ Ho). reflexivity.
    + pose proof (saveItems_iteration_lookups H this dto itemHash arrays w)
        as Hfirst.
      rewrite E1 in Hfirst. simpl in Hfirst. rewrite Hfirst.
      split; [exists 1%nat; reflexivity | discriminate].
Qed.

(** X3: [saveItems] looks the item hashes up one by one in the order of the
    request, each once: at any end of the call the uuids looked up are an
    initial segment of the request's, and all of them when the call
    returns. *)
Theorem saveItems_looks_up_in_order {W} (H : Handler Cmd W)
  (this : ItemService) (dto : SaveItemsDTO) (w : W) :
  let outcome := exec H (saveItems this dto) w in
  (exists n,
      lookupsOf (snd (snd outcome))
      = firstn n (map ItemHash.uuid (itemHashes dto)))
  /\ (forall result,
         fst outcome = Returned result ->
         lookupsOf (snd (snd outcome)) = map ItemHash.uuid (itemHashes dto)).
Proof.
  intros outcome. subst outcome.
  destruct (exec H (saveItems this dto) w) as [o [w' log]] eqn:E.
  apply saveItems_log in E. simpl.
  destruct E as [[e [-> ->]] | [t [w1 [o1 [loopLog [Eloop [-> Eo]]]]]]].
  - split; [exists 0%nat; reflexivity | discriminate].
  - destruct (saveItems_loop_lookups H this dto _ _ _ _ _ _ Eloop)
      as [Hprefix Hall].
    change (lookupsOf
              (entry Z TimerGetTimestampInMicroseconds (Returned t) :: loopLog))
      with (lookupsOf loopLog).
    split; [exact Hprefix |].
    intros result ->.
    destruct o1 as [[pushed conflicts0] | e]; [| discriminate].
    apply (Hall _ eq_refl).
Qed.

Lemma saveItems_looks_up_in_order_witness :
  lookupsOf
    (snd (snd (exec (InMemory.handle Sample.service)
                 (saveItems Sample.service
                    (Sample.saveRequest
                       [Sample.contentHash "A" "new" (Some 1000);
                        Sample.contentHash "D" "ddd" None]))
                 (Sample.world 5000 [Sample.note "A" "aaa" 60 1000]))))
  = ["A"; "D"].
Proof.
  destruct (saveItems_looks_up_in_order (InMemory.handle Sample.service)
              Sample.service
              (Sample.saveRequest
                 [Sample.contentHash "A" "new" (Some 1000);
                  Sample.contentHash "D" "ddd" None])
              (Sample.world 5000 [Sample.note "A" "aaa" 60 1000]))
    as [_ Hall].
  eapply Hall. vm_compute. reflexivity.
Defined.

(** *** Writes need a passed validation *)

Lemma approvals_app (l1 l2 : list (Entry Cmd)) :
  approvals (l1 ++ l2) = approvals l1 ++ approvals l2.
Proof.
  unfold approvals. rewrite collect_app. apply filter_app.
Qed.

Lemma saveItems_iteration_saves_validated {W} (H : Handler Cmd W)
  (this : ItemService) (dto : SaveItemsDTO) (itemHash : ItemHash)
  (arrays : list Item * list ItemConflict) (w : W) :
  let log :=
    snd (snd (exec H (saveItems_iteration this dto itemHash arrays) w)) in
  (List.length (savesOf log) <= List.length (approvals log))%nat
  /\ (List.length (collect factoryCall log) <= List.length (approvals log))%nat.
Proof.
  enter_iteration arrays. unfold approvals, collect.
  repeat (unfold logging; simpl;
          first
            [ match goal with
              | |- context [negb (passed ?r)] =>
                  destruct (passed r) eqn:?; simpl
              end
            | answer H
            | branch
            | match goal with
              | |- context [match ?x with Some _ => _ | None => _ end] =>
                  destruct x; simpl
              | |- context [assignFromItemHash ?a ?b ?c ?d] =>
                  destruct (assignFromItemHash a b c d) as [? ?]; simpl
              end ]).
  all: repeat match goal with
              | Hp : passed ?r = _ |- _ => rewrite Hp
              end; simpl; split; lia.
Qed.

Lemma saveItems_loop_saves_validated {W} (H : Handler Cmd W)
  (this : ItemService) (dto : SaveItemsDTO) (hashes : list ItemHash)
  (arrays : list Item * list ItemConflict) (w : W) :
  let log :=
    snd (snd (exec H (for_of hashes (saveItems_iteration this dto) arrays)
                w)) in
  (List.length (savesOf log) <= List.length (approvals log))%nat
  /\ (List.length (collect factoryCall log) <= List.length (approvals log))%nat.
Proof.
  intros log. subst log. unfold exec.
  destruct (run (logging H)
              (for_of hashes (saveItems_iteration this dto) arrays) (w, []))
    as [o [w' log]] eqn:E. simpl.
  revert E.
  apply (for_of_log H
           (fun log =>
              (List.length (savesOf log) <= List.length (approvals log))%nat
              /\ (List.length (collect factoryCall log)
                  <= List.length (approvals log))%nat)).
  - intros itemHash arrays0 w0 log0 o0 w0' log0' _ [Hsaves Hcreates] Estep.
    apply exec_frame in Estep. destruct Estep as [more [Estep ->]].
    pose proof (saveItems_iteration_saves_validated H this dto itemHash
                  arrays0 w0) as Hturn.
    rewrite Estep in Hturn. simpl in Hturn.
    rewrite savesOf_app, approvals_app, collect_app, !length_app. lia.
  - split; simpl; lia.
Qed.

(** X4: [saveItems] writes nothing the validator has not let through: at
    any end of the call, the calls of [itemRepository.save] and those of
    the item factory are each at most as many as the validations that
    answered [passed]. *)
Theorem saveItems_saves_only_validated {W} (H : Handler Cmd W)
  (this : ItemService) (dto : SaveItemsDTO) (w : W) :
  let log := snd (snd (exec H (saveItems this dto) w)) in
  (List.length (savesOf log) <= List.length (approvals log))%nat
  /\ (List.length (collect factoryCall log) <= List.length (approvals log))%nat.
Proof.
  intros log. subst log.
  destruct (exec H (saveItems this dto) w) as [o [w' log]] eqn:E.
  apply saveItems_log in E. simpl.
  destruct E as [[e [-> ->]] | [t [w1 [o1 [loopLog [Eloop [-> Eo]]]]]]].
  - split; simpl; lia.
  - pose proof (saveItems_loop_saves_validated H this dto (itemHashes dto)
                  ([], []) w1) as Hloop.
    rewrite Eloop in Hloop. exact Hloop.
Qed.

(** *** Sizes of the result *)

Lemma saveItems_iteration_pushes {W} (H : Handler Cmd W)
  (this : ItemService) (dto : SaveItemsDTO) (itemHash : ItemHash)
  (arrays arrays' : list Item * list ItemConflict) (w w' : W)
  (more : list (Entry Cmd)) :
  exec H (saveItems_iteration this dto itemHash arrays) w
  = (Returned arrays', (w', more)) ->
  (List.length (fst arrays') <= S (List.length (fst arrays)))%nat
  /\ (List.length (snd arrays') <= S (List.length (snd arrays)))%nat
  /\ (List.length (savesOf more) <= 1)%nat.
Proof.
  enter_iteration arrays. walk_iteration H.
  all: intros Erun; try discriminate; injection Erun as <- _ <-; simpl.
  all: rewrite ?length_app; simpl; repeat split; lia.
Qed.

(** X5: a [saveItems] that returns reports at most one saved item and at
    most one conflict per item hash, and has called [itemRepository.save]
    at most once per item hash. *)
Theorem saveItems_result_sizes {W} (H : Handler Cmd W) (this : ItemService)
  (dto : SaveItemsDTO) (w w' : W) (result : SaveItemsResult)
  (log : list (Entry Cmd)) :
  exec H (saveItems this dto) w = (Returned result, (w', log)) ->
  (List.length (savedItems result) <= List.length (itemHashes dto))%nat
  /\ (List.length (conflicts result) <= List.length (itemHashes dto))%nat
  /\ (List.length (savesOf log) <= List.length (itemHashes dto))%nat.
Proof.
  intros E. apply saveItems_log in E.
  destruct E as [[e [E _]] | [t [w1 [o1 [loopLog [Eloop [-> Eo]]]]]]];
    [discriminate |].
  destruct o1 as [[pushed conflicts0] | e]; [| discriminate].
  injection Eo as ->.
  pose proof
    (for_of_returned H
       (fun processed (arrays : list Item * list ItemConflict) log =>
          (List.length (fst arrays) <= List.length processed)%nat
          /\ (List.length (snd arrays) <= List.length processed)%nat
          /\ (List.length (savesOf log) <= List.length processed)%nat)
       (itemHashes dto) (saveItems_iteration this dto)) as Hinv.
  simpl in Hinv.
  assert (Hloop : (List.length pushed <= List.length (itemHashes dto))%nat
                  /\ (List.length conflicts0
                      <= List.length (itemHashes dto))%nat
                  /\ (List.length (savesOf loopLog)
                      <= List.length (itemHashes dto))%nat).
  { apply (fun Hstep => Hinv Hstep [] ([], []) w1 (pushed, conflicts0) w' []
                          loopLog);
      [| simpl; repeat split; lia | exact Eloop].
    intros processed itemHash arrays w0 log0 arrays' w0' more
      [Hsaved [Hconflicts Hwrites]] Estep.
    destruct (saveItems_iteration_pushes H this dto itemHash _ _ _ _ _ Estep)
      as [Hs [Hc Hw]].
    rewrite savesOf_app, !length_app. simpl. lia. }
  destruct Hloop as [Hsaved [Hconflicts Hwrites]].
  rewrite calculateSyncToken_spec. simpl.
  change (savesOf
            (entry Z TimerGetTimestampInMicroseconds (Returned t) :: loopLog))
    with (savesOf loopLog).
  repeat split; [| exact Hconflicts | exact Hwrites].
  destruct pushed as [| i rest]; [simpl; lia |].
  rewrite (Permutation_length (sort_permutation byUpdatedAtTimestamp _)).
  exact Hsaved.
Qed.

Lemma saveItems_result_sizes_witness :
  exists result w' log,
    exec (InMemory.handle Sample.service)
      (saveItems Sample.service
         (Sample.saveRequest [Sample.contentHash "A" "new" (Some 1000);
                              Sample.contentHash "D" "ddd" None]))
      (Sample.world 5000 [Sample.note "A" "aaa" 60 1000])
    = (Returned result, (w', log))
    /\ (List.length (savedItems result) <= 2)%nat
    /\ (List.length (conflicts result) <= 2)%nat
    /\ (List.length (savesOf log) <= 2)%nat.
Proof.
  eexists. eexists. eexists. split; [vm_compute; reflexivity |].
  eapply (saveItems_result_sizes (InMemory.handle Sample.service)
           Sample.service
           (Sample.saveRequest [Sample.contentHash "A" "new" (Some 1000);
                                Sample.contentHash "D" "ddd" None])
           (Sample.world 5000 [Sample.note "A" "aaa" 60 1000])).
  vm_compute. reflexivity.
Defined.

Lemma saveItems_iteration_provenance {W} (H : Handler Cmd W)
  (this : ItemService) (dto : SaveItemsDTO) (itemHash : ItemHash)
  (arrays arrays' : list Item * list ItemConflict) (w w' : W)
  (more : list (Entry Cmd)) :
  exec H (saveItems_iteration this dto itemHash arrays) w
  = (Returned arrays', (w', more)) ->
  forall item,
    In item (fst arrays') ->
    In item (fst arrays)
    \/ In item (collect saveAnswer more)
    \/ In item (collect skippedItem more).
Proof.
  enter_iteration arrays. unfold collect.
  repeat (unfold logging; simpl;
          first
            [ match goal with
              | |- context [negb (passed ?r)] =>
                  destruct (passed r) eqn:?; simpl
              end
            | answer H
            | branch
            | match goal with
              | |- context [match ?x with Some _ => _ | None => _ end] =>
                  destruct x eqn:?; simpl
              | |- context [assignFromItemHash ?a ?b ?c ?d] =>
                  destruct (assignFromItemHash a b c d) as [? ?]; simpl
              end ]).
  all: intros Erun; try discriminate; injection Erun as <- _ <-; simpl.
  all: intros item Hin; try apply in_app_or in Hin;
    repeat match goal with
           | Hp : passed ?r = _ |- _ => rewrite Hp
           | Hs : skipped ?r = _ |- _ => rewrite Hs
           end; simpl; try tauto.
  all: destruct Hin as [Hin | [<- | []]]; tauto.
Qed.

(** X6: the saved items of a [saveItems] that returns come back in
    ascending order of [updatedAtTimestamp], and each of them is an item
    [itemRepository.save] answered with or an item the validator asked to
    skip. *)
Theorem saveItems_savedItems_ascending {W} (H : Handler Cmd W)
  (this : ItemService) (dto : SaveItemsDTO) (w w' : W)
  (result : SaveItemsResult) (log : list (Entry Cmd)) :
  exec H (saveItems this dto) w = (Returned result, (w', log)) ->
  StronglySorted upTo (savedItems result)
  /\ (forall item,
         In item (savedItems result) ->
         In item (collect saveAnswer log) \/ In item (collect skippedItem log)).
Proof.
  intros E. apply saveItems_log in E.
  destruct E as [[e [E _]] | [t [w1 [o1 [loopLog [Eloop [-> Eo]]]]]]];
    [discriminate |].
  destruct o1 as [[pushed conflicts0] | e]; [| discriminate].
  injection Eo as ->. rewrite calculateSyncToken_spec. simpl.
  assert (Hloop : forall item,
             In item pushed ->
             In item (collect saveAnswer loopLog)
             \/ In item (collect skippedItem loopLog)).
  { pose proof
      (for_of_returned H
         (fun (processed : list ItemHash)
              (arrays : list Item * list ItemConflict) log =>
            forall item,
              In item (fst arrays) ->
              In item (collect saveAnswer log)
              \/ In item (collect skippedItem log))
         (itemHashes dto) (saveItems_iteration this dto)) as Hinv.
    simpl in Hinv.
    apply (fun Hstep => Hinv Hstep [] ([], []) w1 (pushed, conflicts0) w' []
                          loopLog);
      [| intros item [] | exact Eloop].
    intros processed itemHash arrays w0 log0 arrays' w0' more Hlog0 Estep
      item Hin.
    rewrite !collect_app, !in_app_iff.
    destruct (saveItems_iteration_provenance H this dto itemHash _ _ _ _ _
                Estep item Hin) as [Hold | [Hnew | Hnew]]; [| tauto | tauto].
    destruct (Hlog0 item Hold); tauto. }
  change (collect saveAnswer
            (entry Z TimerGetTimestampInMicroseconds (Returned t) :: loopLog))
    with (collect saveAnswer loopLog).
  change (collect skippedItem
            (entry Z TimerGetTimestampInMicroseconds (Returned t) :: loopLog))
    with (collect skippedItem loopLog).
  destruct pushed as [| i rest].
  - split; [constructor | intros item []].
  - split; [apply sort_sorted |].
    intros item Hin. apply Hloop.
    apply (Permutation_in _ (sort_permutation byUpdatedAtTimestamp _) Hin).
Qed.

Lemma saveItems_savedItems_ascending_witness :
  exists result w' log,
    exec (InMemory.handle Sample.service)
      (saveItems Sample.service
         (Sample.saveRequest [Sample.contentHash "A" "new" (Some 1000);
                              Sample.contentHash "B" "bbb" (Some 2000)]))
      (Sample.world 5000 [Sample.note "A" "aaa" 60 1000;
                          Sample.note "B" "bbb" 60 2000])
    = (Returned result, (w', log))
    /\ StronglySorted upTo (savedItems result)
    /\ (forall item,
           In item (savedItems result) ->
           In item (collect saveAnswer log)
           \/ In item (collect skippedItem log)).
Proof.
  eexists. eexists. eexists. split; [vm_compute; reflexivity |].
  eapply (saveItems_savedItems_ascending (InMemory.handle Sample.service)
            Sample.service
            (Sample.saveRequest [Sample.contentHash "A" "new" (Some 1000);
                                 Sample.contentHash "B" "bbb" (Some 2000)])
            (Sample.world 5000 [Sample.note "A" "aaa" 60 1000;
                                Sample.note "B" "bbb" 60 2000])).
  vm_compute. reflexivity.
Defined.

(** *** Events come after the write *)

Lemma eventsFollowSaves_app (l1 l2 : list (Entry Cmd)) :
  eventsFollowSaves l1 -> eventsFollowSaves l2 -> eventsFollowSaves (l1 ++ l2).
Proof.
  unfold eventsFollowSaves. intros H1 H2 event.
  rewrite !collect_app, in_app_iff.
  intros [Hin | Hin]; [destruct (H1 _ Hin) as [item [Hitem Hu]]
                      | destruct (H2 _ Hin) as [item [Hitem Hu]]];
    exists item; rewrite in_app_iff; tauto.
Qed.

Lemma saveItems_iteration_eventsFollowSaves {W} (H : Handler Cmd W)
  (this : ItemService) (dto : SaveItemsDTO) (itemHash : ItemHash)
  (arrays : list Item * list ItemConflict) (w : W) :
  eventsFollowSaves
    (snd (snd (exec H (saveItems_iteration this dto itemHash arrays) w))).
Proof.
  enter_iteration arrays. unfold eventsFollowSaves, collect. walk_iteration H.
  all: simpl; intros event Hin.
  all: repeat destruct Hin as [<- | Hin]; try contradiction.
  all: eexists; (split; [left; reflexivity | reflexivity]).
Qed.

(** X7: [saveItems] publishes an event only about an item whose write has
    come back from the repository: at any end of the call, every event
    handed to the publisher carries the uuid of an item that
    [itemRepository.save] had answered with. *)
Theorem saveItems_events_follow_saves {W} (H : Handler Cmd W)
  (this : ItemService) (dto : SaveItemsDTO) (w : W) :
  eventsFollowSaves (snd (snd (exec H (saveItems this dto) w))).
Proof.
  destruct (exec H (saveItems this dto) w) as [o [w' log]] eqn:E.
  apply saveItems_log in E. simpl.
  destruct E as [[e [-> ->]] | [t [w1 [o1 [loopLog [Eloop [-> Eo]]]]]]].
  - intros event [].
  - apply (eventsFollowSaves_app [_] loopLog); [intros event [] |].
    unfold exec in Eloop. revert Eloop.
    apply (for_of_log H eventsFollowSaves); [| intros event []].
    intros itemHash arrays0 w0 log0 o0 w0' log0' _ Hlog0 Estep.
    apply exec_frame in Estep. destruct Estep as [more [Estep ->]].
    apply eventsFollowSaves_app; [exact Hlog0 |].
    pose proof (saveItems_iteration_eventsFollowSaves H this dto itemHash
                  arrays0 w0) as Hturn.
    rewrite Estep in Hturn. exact Hturn.
Qed.

End SaveBatchFacts.

(** ** ItemService: one item *)

Module ItemFacts.
Import Effects Logs ItemService EffectsFacts SaveItemsFacts LoopFacts.

(** *** [updateExistingItem] *)

Ltac split_hash itemHash :=
  destruct itemHash as [uuid content content_type deleted duplicate_of
                          auth_hash enc_item_key items_key_id
                          key_system_identifier shared_vault_uuid created_at
                          created_at_timestamp updated_at updated_at_timestamp].

Ltac cases :=
  repeat match goal with
         | |- context [if ?c then _ else _] => destruct c
         | |- context [match ?x with Some _ => _ | None => _ end] =>
             destruct x
         | |- context [match ?x with true => _ | false => _ end] =>
             destruct x
         end.

Lemma updated_stampedBy (this : ItemService) (existingItem : Item)
  (itemHash : ItemHash) (userUuid : string) (sessionUuid : option string)
  (updatedAt : Z) :
  stampedBy this existingItem userUuid sessionUuid updatedAt
    (stampAndSize this
       (snd (assignFromItemHash existingItem itemHash userUuid sessionUuid))
       itemHash updatedAt).
Proof.
  unfold stampedBy, stampAndSize, assignFromItemHash.
  split_hash itemHash. simpl. cases; simpl; repeat split; reflexivity.
Qed.

Lemma set_contentSize_twice (size : Z) (item : Item) :
  Item.contentSize item = 0 ->
  Item.set_contentSize 0 (Item.set_contentSize size item) = item.
Proof.
  destruct item. simpl. intros ->. reflexivity.
Qed.

Lemma updated_sizedByProjector (this : ItemService) (existingItem : Item)
  (itemHash : ItemHash) (userUuid : string) (sessionUuid : option string)
  (updatedAt : Z) :
  sizedByProjector this itemHash
    (stampAndSize this
       (snd (assignFromItemHash existingItem itemHash userUuid sessionUuid))
       itemHash updatedAt).
Proof.
  unfold sizedByProjector, stampAndSize.
  assert (Hzero : Item.contentSize
                    (snd (assignFromItemHash existingItem itemHash userUuid
                            sessionUuid)) = 0).
  { unfold assignFromItemHash. split_hash itemHash. simpl.
    cases; reflexivity. }
  destruct (assignFromItemHash existingItem itemHash userUuid sessionUuid)
    as [wasMarkedAsDuplicate assigned]. simpl in *.
  destruct (ItemHash.deleted itemHash) as [[|] |]; [reflexivity | |].
  all: rewrite set_contentSize_twice; [reflexivity |].
  all: cases; simpl; exact Hzero.
Qed.

Lemma assigned_wasMarkedAsDuplicate (existingItem : Item)
  (itemHash : ItemHash) (userUuid : string) (sessionUuid : option string) :
  fst (assignFromItemHash existingItem itemHash userUuid sessionUuid)
  = JS.truthy_string (ItemHash.duplicate_of itemHash)
    && negb (JS.truthy_string (Item.duplicateOf existingItem)).
Proof.
  unfold assignFromItemHash. split_hash itemHash. simpl.
  cases; reflexivity.
Qed.

Lemma assigned_updatedAtTimestamp (existingItem : Item)
  (itemHash : ItemHash) (userUuid : string) (sessionUuid : option string) :
  Item.updatedAtTimestamp
    (snd (assignFromItemHash existingItem itemHash userUuid sessionUuid))
  = Item.updatedAtTimestamp existingItem.
Proof.
  unfold assignFromItemHash. split_hash itemHash. simpl.
  cases; reflexivity.
Qed.

(** The item handed to the repository, with the clock reading it was
    stamped with. *)
Lemma updateExistingItem_saves_at {W} (H : Handler Cmd W)
  (this : ItemService) (existingItem : Item) (itemHash : ItemHash)
  (userUuid : string) (sessionUuid : option string) (w : W) :
  let log :=
    snd (snd (exec H (updateExistingItem this existingItem itemHash userUuid
                        sessionUuid) w)) in
  forall item,
    In item (savesOf log) ->
    exists updatedAt,
      collect clockReading log = [updatedAt]
      /\ item = stampAndSize this
                  (snd (assignFromItemHash existingItem itemHash userUuid
                          sessionUuid)) itemHash updatedAt.
Proof.
  unfold exec, updateExistingItem, collect.
  destruct (assignFromItemHash existingItem itemHash userUuid sessionUuid)
    as [wasMarkedAsDuplicate assigned].
  unfold call, publishWhen. walk H.
  all: simpl; intros item Hin.
  all: repeat destruct Hin as [<- | Hin]; try contradiction.
  all: eexists; (split; reflexivity).
Qed.

(** X8: every item [updateExistingItem] hands to the repository keeps the
    uuid and the owner of the stored item, names the requesting user as
    its last editor and the request's session, and carries as
    [updatedAtTimestamp] the one clock reading of the call (with the date
    converted from it); its size is zero for a tombstone, and otherwise
    what the projector measures on the item taken with size zero. *)
Theorem updateExistingItem_stamps_item {W} (H : Handler Cmd W)
  (this : ItemService) (existingItem : Item) (itemHash : ItemHash)
  (userUuid : string) (sessionUuid : option string) (w : W) :
  let log :=
    snd (snd (exec H (updateExistingItem this existingItem itemHash userUuid
                        sessionUuid) w)) in
  forall item,
    In item (savesOf log) ->
    collect clockReading log = [Item.updatedAtTimestamp item]
    /\ stampedBy this existingItem userUuid sessionUuid
         (Item.updatedAtTimestamp item) item
    /\ sizedByProjector this itemHash item.
Proof.
  intros log item Hin.
  destruct (updateExistingItem_saves_at H this existingItem itemHash userUuid
              sessionUuid w item Hin) as [updatedAt [Hclock ->]].
  pose proof (updated_stampedBy this existingItem itemHash userUuid
                sessionUuid updatedAt) as Hstamped.
  assert (Hat : Item.updatedAtTimestamp
                  (stampAndSize this
                     (snd (assignFromItemHash existingItem itemHash userUuid
                             sessionUuid)) itemHash updatedAt) = updatedAt)
    by apply Hstamped.
  rewrite Hat. split; [exact Hclock |]. split; [exact Hstamped |].
  apply updated_sizedByProjector.
Qed.

Lemma updateExistingItem_stamps_item_witness :
  let existingItem := Sample.note "A" "aaa" 60 1000 in
  let itemHash := Sample.contentHash "A" "new" (Some 1000) in
  let log :=
    snd (snd (exec (InMemory.handle Sample.service)
                (updateExistingItem Sample.service existingItem itemHash
                   "bob" (Some "session"))
                (Sample.world 5000 [existingItem]))) in
  exists item,
    savesOf log = [item]
    /\ collect clockReading log = [5000]
    /\ stampedBy Sample.service existingItem "bob" (Some "session") 5000 item
    /\ Item.contentSize item = 4.
Proof.
  intros existingItem itemHash log.
  eexists. split; [vm_compute; reflexivity |].
  destruct (updateExistingItem_stamps_item (InMemory.handle Sample.service)
              Sample.service existingItem itemHash "bob" (Some "session")
              (Sample.world 5000 [existingItem])
              (Item.set_content (Some "new")
                 (Item.set_contentSize 4
                    (Item.set_updatedAt 5
                       (Item.set_updatedAtTimestamp 5000
                          (Item.set_lastEditedByUuid (Some "bob")
                             (Item.set_updatedWithSession (Some "session")
                                existingItem)))))))
    as [Hclock [Hstamped Hsized]]; [vm_compute; left; reflexivity |].
  split; [exact Hclock |]. split; [exact Hstamped |].
  vm_compute. reflexivity.
Defined.

(** X9: when [updateExistingItem] returns, it has written once and returns
    what the repository answered; the events it has published are, in this
    order, a revision request when at least [revisionFrequency] seconds lie
    between the stored [updatedAtTimestamp] and the clock reading and the
    saved item is a note or a file with an owner, and a duplicate
    notification when the hash names a [duplicate_of], the stored item had
    none and the saved item has an owner. *)
Theorem updateExistingItem_events {W} (H : Handler Cmd W)
  (this : ItemService) (existingItem : Item) (itemHash : ItemHash)
  (userUuid : string) (sessionUuid : option string) (w w' : W)
  (savedItem : Item) (log : list (Entry Cmd)) :
  exec H (updateExistingItem this existingItem itemHash userUuid sessionUuid)
    w
  = (Returned savedItem, (w', log)) ->
  exists updatedAt,
    collect clockReading log = [updatedAt]
    /\ collect saveAnswer log = [savedItem]
    /\ collect publishedEvent log
       = eventsAfterUpdate this existingItem itemHash updatedAt savedItem.
Proof.
  unfold eventsAfterUpdate.
  rewrite <- (assigned_wasMarkedAsDuplicate existingItem itemHash userUuid
                sessionUuid).
  rewrite <- (assigned_updatedAtTimestamp existingItem itemHash userUuid
                sessionUuid).
  unfold exec, updateExistingItem, collect.
  destruct (assignFromItemHash existingItem itemHash userUuid sessionUuid)
    as [wasMarkedAsDuplicate assigned].
  unfold call, publishWhen. simpl fst. simpl snd.
  repeat (unfold logging; simpl;
          first
            [ answer H
            | match goal with
              | |- context [if ?c then _ else _] =>
                  destruct c eqn:?; simpl
              end ]).
  all: intros Erun; try discriminate; injection Erun as <- _ <-; simpl.
  all: eexists; (split; [reflexivity |]); (split; [reflexivity |]).
  all: repeat match goal with
              | Hc : ?c = _ |- context [?c] => rewrite Hc
              end; simpl; try reflexivity.
  all: congruence.
Qed.

Lemma updateExistingItem_events_witness :
  let existingItem := Sample.note "A" "aaa" 60 1000 in
  let itemHash := Sample.contentHash "A" "new" (Some 1000) in
  exists savedItem w' log,
    exec (InMemory.handle Sample.service)
      (updateExistingItem Sample.service existingItem itemHash "alice"
         (Some "session"))
      (Sample.world 400000000 [existingItem])
    = (Returned savedItem, (w', log))
    /\ collect publishedEvent log
       = [ItemRevisionCreationRequested "A" "alice"]
    /\ exists updatedAt,
         collect clockReading log = [updatedAt]
         /\ collect saveAnswer log = [savedItem]
         /\ collect publishedEvent log
            = eventsAfterUpdate Sample.service existingItem itemHash updatedAt
                savedItem.
Proof.
  intros existingItem itemHash.
  eexists. eexists. eexists. split; [vm_compute; reflexivity |].
  split; [vm_compute; reflexivity |].
  eapply (updateExistingItem_events (InMemory.handle Sample.service)
            Sample.service existingItem itemHash "alice" (Some "session")
            (Sample.world 400000000 [existingItem])).
  vm_compute. reflexivity.
Defined.

(** X10: when [updateExistingItem] returns, it has told the user event
    service exactly what [GetSaveOperation] found: the removal of the
    user's events for an item added to a shared vault, the creation of an
    event for an item removed from one, and nothing for any other
    operation; the call names the requesting user, the saved item and the
    vault of the operation. *)
Theorem updateExistingItem_user_events {W} (H : Handler Cmd W)
  (this : ItemService) (existingItem : Item) (itemHash : ItemHash)
  (userUuid : string) (sessionUuid : option string) (w w' : W)
  (savedItem : Item) (log : list (Entry Cmd)) :
  exec H (updateExistingItem this existingItem itemHash userUuid sessionUuid)
    w
  = (Returned savedItem, (w', log)) ->
  let operation := op_type (GetSaveOperation this existingItem itemHash
                              userUuid) in
  let dto := userEventDTO this existingItem itemHash userUuid savedItem in
  collect removedUserEvents log
  = (if (operation =? "add-to-shared-vault")%string then [dto] else [])
  /\ collect createdUserEvent log
     = (if (operation =? "add-to-shared-vault")%string then []
        else if (operation =? "remove-from-shared-vault")%string then [dto]
             else []).
Proof.
  unfold userEventDTO, exec, updateExistingItem, collect.
  destruct (assignFromItemHash existingItem itemHash userUuid sessionUuid)
    as [wasMarkedAsDuplicate assigned].
  unfold call, publishWhen.
  repeat (unfold logging; simpl;
          first
            [ answer H
            | match goal with
              | |- context [if (?a =? ?b)%string then _ else _] =>
                  destruct (a =? b)%string eqn:?; simpl
              | |- context [if ?c then _ else _] =>
                  destruct c; simpl
              end ]).
  all: intros Erun; try discriminate; injection Erun as <- _ <-; simpl.
  all: split; reflexivity.
Qed.

Lemma updateExistingItem_user_events_witness :
  let existingItem := Sample.vaultNote "A" "aaa" "V" 60 1000 in
  let itemHash := Sample.contentHash "A" "new" (Some 1000) in
  exists savedItem w' log,
    exec (InMemory.handle Sample.service)
      (updateExistingItem Sample.service existingItem itemHash "alice"
         (Some "session"))
      (Sample.world 5000 [existingItem])
    = (Returned savedItem, (w', log))
    /\ op_type (GetSaveOperation Sample.service existingItem itemHash "alice")
       = "remove-from-shared-vault"
    /\ collect removedUserEvents log = []
    /\ collect createdUserEvent log
       = [{| ue_userUuid := "alice"; ue_itemUuid := "A";
             ue_sharedVaultUuid := Some "V" |}].
Proof.
  intros existingItem itemHash.
  eexists. eexists. eexists. split; [vm_compute; reflexivity |].
  split; [vm_compute; reflexivity |].
  destruct (updateExistingItem_user_events (InMemory.handle Sample.service)
              Sample.service existingItem itemHash "alice" (Some "session")
              (Sample.world 5000 [existingItem]) _ _ _
              ltac:(vm_compute; reflexivity)) as [Hremoved Hcreated].
  split; [rewrite Hremoved | rewrite Hcreated]; vm_compute; reflexivity.
Defined.

(** *** [saveNewItem] *)

(** X11: [saveNewItem] asks the factory once, for the user, the hash and
    the session it was given, and hands to the repository exactly what the
    factory built: at any end of the call the items passed to
    [itemRepository.save] are the items the factory answered with.  When it
    returns, it returns the repository's answer and has published, in this
    order, a revision request if the saved item is a note or a file with an
    owner, and a duplicate notification if it has a [duplicateOf] and an
    owner. *)
Theorem saveNewItem_persists_factory_item {W} (H : Handler Cmd W)
  (this : ItemService) (userUuid : string) (itemHash : ItemHash)
  (sessionUuid : option string) (w : W) :
  let outcome := exec H (saveNewItem this userUuid itemHash sessionUuid) w in
  let log := snd (snd outcome) in
  collect factoryCall log
  = [{| n_userUuid := userUuid; n_itemHash := itemHash;
        n_sessionUuid := sessionUuid |}]
  /\ savesOf log = collect factoryAnswer log
  /\ (forall savedItem,
         fst outcome = Returned savedItem ->
         collect saveAnswer log = [savedItem]
         /\ collect publishedEvent log = eventsAfterCreate savedItem).
Proof.
  unfold eventsAfterCreate, exec, saveNewItem, collect.
  unfold call, publishWhen.
  repeat (unfold logging; simpl;
          first
            [ answer H
            | match goal with
              | |- context [if ?c then _ else _] =>
                  destruct c eqn:?; simpl
              end ]).
  all: split; [reflexivity |]; split; [reflexivity |].
  all: intros savedItem Hret; try discriminate; injection Hret as <-.
  all: split; [reflexivity |].
  all: repeat match goal with
              | Hc : ?c = _ |- context [?c] => rewrite Hc
              end; reflexivity.
Qed.

Lemma saveNewItem_persists_factory_item_witness :
  let outcome :=
    exec (InMemory.handle Sample.service)
      (saveNewItem Sample.service "alice"
         (ItemHash.make "D" (Some "ddd") (Some "Note") None None None None
            None None None None None None None)
         (Some "session"))
      (Sample.world 5000 []) in
  exists savedItem,
    fst outcome = Returned savedItem
    /\ collect saveAnswer (snd (snd outcome)) = [savedItem]
    /\ collect publishedEvent (snd (snd outcome))
       = [ItemRevisionCreationRequested "D" "alice"].
Proof.
  intros outcome.
  destruct (saveNewItem_persists_factory_item (InMemory.handle Sample.service)
              Sample.service "alice"
              (ItemHash.make "D" (Some "ddd") (Some "Note") None None None
                 None None None None None None None None)
              (Some "session") (Sample.world 5000 []))
    as [_ [_ Hreturned]].
  eexists. split; [vm_compute; reflexivity |].
  split; [| vm_compute; reflexivity].
  apply Hreturned. vm_compute. reflexivity.
Defined.

End ItemFacts.

(** ** ItemService: reading *)

Module ReadFacts.
Import Effects Logs ItemService EffectsFacts SaveItemsFacts GetItemsFacts.
Import LoopFacts.

(** *** [frontLoadKeysItemsToTop] *)

(** [unshift] in a [forEach] puts the missing keys in front, last first. *)
Lemma unshift_missing (ids : list string) (itemsKeys acc : list Item) :
  fold_left
    (fun retrievedItems itemKey =>
       if existsb (String.eqb (Item.uuid itemKey)) ids
       then retrievedItems
       else itemKey :: retrievedItems)
    itemsKeys acc
  = rev (filter
           (fun itemKey =>
              negb (existsb (String.eqb (Item.uuid itemKey)) ids))
           itemsKeys)
    ++ acc.
Proof.
  revert acc. induction itemsKeys as [| k itemsKeys IH]; intros acc; simpl.
  - reflexivity.
  - rewrite IH.
    destruct (existsb (String.eqb (Item.uuid k)) ids); simpl.
    + reflexivity.
    + rewrite <- app_assoc. reflexivity.
Qed.

Lemma existsb_eqb_in (uuid : string) (ids : list string) :
  existsb (String.eqb uuid) ids = true <-> In uuid ids.
Proof.
  rewrite existsb_exists. split.
  - intros [x [Hx Hu]]. apply String.eqb_eq in Hu. subst. exact Hx.
  - intros Hin. exists uuid. split; [exact Hin | apply String.eqb_refl].
Qed.

Lemma missingKeys_in (itemsKeys retrievedItems : list Item) (k : Item) :
  In k (missingKeys itemsKeys retrievedItems)
  <-> In k itemsKeys /\ ~ In (Item.uuid k) (map Item.uuid retrievedItems).
Proof.
  unfold missingKeys. rewrite filter_In, negb_true_iff.
  rewrite <- existsb_eqb_in.
  destruct (existsb (String.eqb (Item.uuid k)) (map Item.uuid retrievedItems));
    intuition congruence.
Qed.

Lemma frontLoadKeysItemsToTop_run {W} (H : Handler Cmd W)
  (userUuid : string) (retrievedItems result : list Item) (w w' : W)
  (log : list (Entry Cmd)) :
  exec H (frontLoadKeysItemsToTop userUuid retrievedItems) w
  = (Returned result, (w', log)) ->
  exists itemsKeys,
    collect findAllAsked log = [itemsKeyQuery userUuid]
    /\ collect findAllAnswer log = [itemsKeys]
    /\ result = rev (missingKeys itemsKeys retrievedItems) ++ retrievedItems.
Proof.
  unfold exec, frontLoadKeysItemsToTop, call. simpl. unfold logging. simpl.
  destruct (H _ (ItemRepositoryFindAll (itemsKeyQuery userUuid)) w)
    as [[itemsKeys | e] w1]; simpl; [| discriminate].
  intros E. injection E as <- _ <-.
  exists itemsKeys. rewrite unshift_missing. repeat split.
Qed.

(** X12: [frontLoadKeysItemsToTop] asks the repository once, for the
    user's items keys, and returns the retrieved items unchanged and in
    their order, preceded by the items keys whose uuid was not among them
    (the last such key first); so every items key of the user is in the
    result. *)
Theorem frontLoadKeysItemsToTop_result {W} (H : Handler Cmd W)
  (userUuid : string) (retrievedItems result : list Item) (w w' : W)
  (log : list (Entry Cmd)) :
  exec H (frontLoadKeysItemsToTop userUuid retrievedItems) w
  = (Returned result, (w', log)) ->
  exists itemsKeys,
    collect findAllAsked log = [itemsKeyQuery userUuid]
    /\ collect findAllAnswer log = [itemsKeys]
    /\ result = rev (missingKeys itemsKeys retrievedItems) ++ retrievedItems
    /\ (forall itemKey,
           In itemKey itemsKeys ->
           In (Item.uuid itemKey) (map Item.uuid result)).
Proof.
  intros E.
  destruct (frontLoadKeysItemsToTop_run H _ _ _ _ _ _ E)
    as [itemsKeys [Hasked [Hanswer ->]]].
  exists itemsKeys. repeat split; try assumption.
  intros itemKey Hin. rewrite map_app, in_app_iff.
  destruct (in_dec string_dec (Item.uuid itemKey)
              (map Item.uuid retrievedItems)) as [Hthere | Hmissing].
  - right. exact Hthere.
  - left. apply in_map, in_rev. rewrite rev_involutive.
    apply missingKeys_in. split; assumption.
Qed.

Lemma frontLoadKeysItemsToTop_result_witness :
  let key := Item.set_contentType (Some ContentType_ItemsKey)
               (Sample.note "K" "k" 10 500) in
  let a := Sample.note "A" "aaa" 60 1000 in
  exists result w' log,
    exec (InMemory.handle Sample.service)
      (frontLoadKeysItemsToTop "alice" [a]) (Sample.world 5000 [key; a])
    = (Returned result, (w', log))
    /\ result = [key; a]
    /\ exists itemsKeys,
         collect findAllAsked log = [itemsKeyQuery "alice"]
         /\ collect findAllAnswer log = [itemsKeys]
         /\ result = rev (missingKeys itemsKeys [a]) ++ [a]
         /\ (forall itemKey,
                In itemKey itemsKeys ->
                In (Item.uuid itemKey) (map Item.uuid result)).
Proof.
  intros key a.
  eexists. eexists. eexists. split; [vm_compute; reflexivity |].
  split; [vm_compute; reflexivity |].
  eapply (frontLoadKeysItemsToTop_result (InMemory.handle Sample.service)
            "alice" [a] _ (Sample.world 5000 [key; a])).
  vm_compute. reflexivity.
Defined.

(** Leaving keys out keeps their uuids distinct. *)
Lemma missingKeys_distinct (itemsKeys retrievedItems : list Item) :
  NoDup (map Item.uuid itemsKeys) ->
  NoDup (map Item.uuid (missingKeys itemsKeys retrievedItems)).
Proof.
  intros Hkeys. induction itemsKeys as [| k itemsKeys IH]; [constructor |].
  inversion Hkeys as [| u us Hk Hrest]; subst.
  unfold missingKeys in *. simpl.
  destruct (existsb (String.eqb (Item.uuid k))
              (map Item.uuid retrievedItems)); simpl; [apply IH, Hrest |].
  constructor; [| apply IH, Hrest].
  intros Hin. apply Hk. apply in_map_iff in Hin.
  destruct Hin as [other [Hu Hin]]. apply filter_In in Hin.
  rewrite <- Hu. apply in_map, Hin.
Qed.

(** X13: [frontLoadKeysItemsToTop] adds no item twice: when neither the
    retrieved items nor the items keys the repository answered with repeat
    a uuid, the result repeats none. *)
Theorem frontLoadKeysItemsToTop_no_duplicates {W} (H : Handler Cmd W)
  (userUuid : string) (retrievedItems result itemsKeys : list Item)
  (w w' : W) (log : list (Entry Cmd)) :
  exec H (frontLoadKeysItemsToTop userUuid retrievedItems) w
  = (Returned result, (w', log)) ->
  collect findAllAnswer log = [itemsKeys] ->
  NoDup (map Item.uuid retrievedItems) ->
  NoDup (map Item.uuid itemsKeys) ->
  NoDup (map Item.uuid result).
Proof.
  intros E Hanswer Hretrieved Hkeys.
  destruct (frontLoadKeysItemsToTop_run H _ _ _ _ _ _ E)
    as [itemsKeys' [_ [Hanswer' ->]]].
  rewrite Hanswer in Hanswer'. injection Hanswer' as <-.
  rewrite map_app, map_rev.
  apply NoDup_app; [| exact Hretrieved |].
  - apply NoDup_rev, missingKeys_distinct, Hkeys.
  - intros uuid Hin Hthere. apply in_rev, in_map_iff in Hin.
    destruct Hin as [k [<- Hk]]. apply missingKeys_in in Hk. tauto.
Qed.

Lemma frontLoadKeysItemsToTop_no_duplicates_witness :
  let key := Item.set_contentType (Some ContentType_ItemsKey)
               (Sample.note "K" "k" 10 500) in
  let a := Sample.note "A" "aaa" 60 1000 in
  exists result w' log,
    exec (InMemory.handle Sample.service)
      (frontLoadKeysItemsToTop "alice" [key; a]) (Sample.world 5000 [key; a])
    = (Returned result, (w', log))
    /\ collect findAllAnswer log = [[key]]
    /\ NoDup (map Item.uuid result).
Proof.
  intros key a.
  eexists. eexists. eexists. split; [vm_compute; reflexivity |].
  split; [vm_compute; reflexivity |].
  eapply (frontLoadKeysItemsToTop_no_duplicates
            (InMemory.handle Sample.service) "alice" [key; a] _ [key]
            (Sample.world 5000 [key; a])).
  - vm_compute. reflexivity.
  - vm_compute. reflexivity.
  - repeat constructor; simpl; intuition discriminate.
  - repeat constructor; simpl; intuition discriminate.
Defined.

(** *** [getItems] *)

(** X14: [getItems] only reads: whatever the collaborators answer and
    however the call ends, it has called nothing but the shared vault user
    repository, the transfer calculator, and [findAll] and [countAll] of
    the item repository. *)
Theorem getItems_only_reads {W} (H : Handler Cmd W) (this : ItemService)
  (dto : GetItemsDTO) (w : W) :
  within isRead (snd (snd (exec H (getItems this dto) w))).
Proof.
  apply issuesOnly_exec. unfold getItems.
  destruct (getLastSyncTime this (g_syncToken dto) (g_cursorToken dto))
    as [lastSyncTime | e]; simpl; [| exact I].
  split; [exact I |]. intros sharedVaultUsers.
  split; [exact I |]. intros itemUuidsToFetch.
  apply issuesOnly_bind.
  - destruct (0 <? List.length itemUuidsToFetch)%nat; simpl;
      [split; [exact I | intros; exact I] | exact I].
  - intros items. simpl. split; [exact I |]. intros totalItemsCount.
    apply issuesOnly_bind; [| intros; exact I].
    destruct (totalItemsCount >? upperBoundLimit this dto); [| exact I].
    destruct (JS.last_element items); exact I.
Qed.

(** X15: a token that [getLastSyncTime] refuses stops [getItems] before it
    calls any collaborator: the call throws "Sync token is missing version
    part" and the log is empty. *)
Theorem getItems_refuses_token_first {W} (H : Handler Cmd W)
  (this : ItemService) (dto : GetItemsDTO) (w : W) (e : string) :
  getLastSyncTime this (g_syncToken dto) (g_cursorToken dto) = Thrown e ->
  exec H (getItems this dto) w = (Thrown MissingVersionPart, (w, [])).
Proof.
  intros Htoken. pose proof (getLastSyncTime_throws _ _ _ _ Htoken) as ->.
  unfold exec, getItems. rewrite Htoken. reflexivity.
Qed.

Lemma getItems_refuses_token_first_witness :
  exec (InMemory.handle Sample.service)
    (getItems Sample.service
       {| g_userUuid := "alice";
          g_syncToken := Some (JS.base64_encode "1700000000");
          g_cursorToken := None; g_limit := None; g_contentType := None;
          g_sharedVaultUuids := None |})
    (Sample.world 5000 [Sample.note "A" "aaa" 60 1000])
  = (Thrown MissingVersionPart,
     (Sample.world 5000 [Sample.note "A" "aaa" 60 1000], [])).
Proof.
  apply (getItems_refuses_token_first (InMemory.handle Sample.service)
           Sample.service _ _ MissingVersionPart).
  vm_compute. reflexivity.
Defined.

(** X16: when [getItems] returns, the items are what the repository
    answered for exactly the uuids the transfer calculator selected, asked
    for in ascending order of [updated_at_timestamp]; when the calculator
    selected nothing, the repository is not asked and no item is
    returned. *)
Theorem getItems_hydrates_selection {W} (H : Handler Cmd W)
  (this : ItemService) (dto : GetItemsDTO) (w w' : W)
  (result : GetItemsResult) (log : list (Entry Cmd)) :
  exec H (getItems this dto) w = (Returned result, (w', log)) ->
  exists selected,
    collect selectionAnswer log = [selected]
    /\ match selected with
       | [] => collect findAllAsked log = [] /\ items result = []
       | _ =>
           collect findAllAsked log = [hydrationQuery selected]
           /\ collect findAllAnswer log = [items result]
       end.
Proof.
  unfold exec, getItems, collect.
  destruct (getLastSyncTime this (g_syncToken dto) (g_cursorToken dto))
    as [lastSyncTime | e]; unfold call; simpl; [| discriminate].
  repeat (unfold logging; simpl;
          first
            [ answer H
            | match goal with
              | |- context [(0 <? List.length ?l)%nat] =>
                  destruct l; simpl
              | |- context [if ?c then _ else _] => destruct c; simpl
              | |- context [match JS.last_element ?l with _ => _ end] =>
                  destruct (JS.last_element l) eqn:?; simpl
              end ]).
  all: intros Hrun; try discriminate.
  all: injection Hrun as <- _ <-; simpl.
  all: eexists; (split; [reflexivity |]); simpl; split; reflexivity.
Qed.

Lemma getItems_hydrates_selection_witness :
  exists result w' log,
    exec (InMemory.handle Sample.service)
      (getItems Sample.service (Sample.getRequest (Some 2)))
      (Sample.world 5000 [Sample.note "A" "a" 10 1000;
                          Sample.note "B" "b" 10 2000;
                          Sample.note "C" "c" 10 3000])
    = (Returned result, (w', log))
    /\ collect findAllAsked log = [hydrationQuery ["A"; "B"]]
    /\ exists selected,
         collect selectionAnswer log = [selected]
         /\ match selected with
            | [] => collect findAllAsked log = [] /\ items result = []
            | _ =>
                collect findAllAsked log = [hydrationQuery selected]
                /\ collect findAllAnswer log = [items result]
            end.
Proof.
  eexists. eexists. eexists. split; [vm_compute; reflexivity |].
  split; [vm_compute; reflexivity |].
  eapply (getItems_hydrates_selection (InMemory.handle Sample.service)
            Sample.service (Sample.getRequest (Some 2))
            (Sample.world 5000 [Sample.note "A" "a" 10 1000;
                                Sample.note "B" "b" 10 2000;
                                Sample.note "C" "c" 10 3000])).
  vm_compute. reflexivity.
Defined.

Lemma itemQuery_withinMemberships (this : ItemService) (dto : GetItemsDTO)
  (lastSyncTime : option Z) (memberships : list SharedVaultUser) :
  withinMemberships memberships (g_sharedVaultUuids dto)
    (itemQuery this dto lastSyncTime memberships).
Proof.
  unfold withinMemberships, itemQuery.
  destruct (g_sharedVaultUuids dto) as [vaults |]; simpl.
  - split; [reflexivity |]. eexists. split; [reflexivity |].
    intros vault. rewrite filter_In, existsb_eqb_in. reflexivity.
  - split; reflexivity.
Qed.

(** X17: the item queries of [getItems] never reach beyond the vaults of
    the user: every query sent to the transfer calculator or to [countAll]
    is for the requesting user, and its vaults are, when the request names
    vaults, those of them the shared vault user repository listed as the
    user's, and all the listed ones when it names none. *)
Theorem getItems_vault_scope {W} (H : Handler Cmd W) (this : ItemService)
  (dto : GetItemsDTO) (w : W) :
  let log := snd (snd (exec H (getItems this dto) w)) in
  forall memberships,
    In memberships (collect membershipsAnswer log) ->
    Forall
      (fun q =>
         q_userUuid q = Some (g_userUuid dto)
         /\ withinMemberships memberships (g_sharedVaultUuids dto) q)
      (itemQueriesOf log).
Proof.
  unfold exec, getItems, collect.
  destruct (getLastSyncTime this (g_syncToken dto) (g_cursorToken dto))
    as [lastSyncTime | e]; unfold call; simpl; [| intros ? []].
  walk_getItems H.
  all: intros memberships Hin;
    repeat destruct Hin as [<- | Hin]; try contradiction.
  all: repeat first [apply Forall_nil | apply Forall_cons].
  all: split; [reflexivity | apply itemQuery_withinMemberships].
Qed.

Lemma getItems_vault_scope_witness :
  let w :=
    {| InMemory.now := 5000;
       InMemory.rows := [Sample.vaultNote "A" "a" "V" 10 1000];
       InMemory.sharedVaultUsers :=
         [{| sv_userUuid := "alice"; sv_sharedVaultUuid := "V" |}];
       InMemory.published := []; InMemory.userEventsRemoved := [];
       InMemory.userEventsCreated := []; InMemory.errors := [];
       InMemory.unwritable := [] |} in
  let dto :=
    {| g_userUuid := "alice"; g_syncToken := None; g_cursorToken := None;
       g_limit := None; g_contentType := None;
       g_sharedVaultUuids := Some ["V"; "X"] |} in
  let log :=
    snd (snd (exec (InMemory.handle Sample.service)
                (getItems Sample.service dto) w)) in
  map q_exclusiveSharedVaultUuids (itemQueriesOf log)
  = [Some ["V"]; Some ["V"]]
  /\ Forall
       (fun q =>
          q_userUuid q = Some "alice"
          /\ withinMemberships
               [{| sv_userUuid := "alice"; sv_sharedVaultUuid := "V" |}]
               (Some ["V"; "X"]) q)
       (itemQueriesOf log).
Proof.
  intros w dto log. split; [vm_compute; reflexivity |].
  apply (getItems_vault_scope (InMemory.handle Sample.service)
           Sample.service dto w).
  vm_compute. left. reflexivity.
Defined.

End ReadFacts.

(** ** ItemService: tokens *)

Module TokenFacts.
Import Effects ItemService.

Lemma list_ascii_of_string_app (a b : string) :
  list_ascii_of_string (a +++ b)
  = list_ascii_of_string a ++ list_ascii_of_string b.
Proof.
  induction a as [| c a IH]; simpl; [reflexivity |].
  rewrite IH. reflexivity.
Qed.

Lemma noColon_app (a b : string) :
  noColon a -> noColon b -> noColon (a +++ b).
Proof.
  unfold noColon. rewrite list_ascii_of_string_app, in_app_iff. tauto.
Qed.

Lemma noColon_uint (d : Decimal.uint) : noColon (NilEmpty.string_of_uint d).
Proof.
  unfold noColon.
  induction d; simpl; [intros [] | ..];
    (intros [Hc | Hin]; [discriminate | auto]).
Qed.

Lemma noColon_decimal (z : Z) : noColon (JS.decimal z).
Proof.
  unfold JS.decimal, NilZero.string_of_int, NilZero.string_of_uint.
  destruct (Z.to_int z) as [d | d].
  - destruct d; try apply noColon_uint.
    unfold noColon. simpl. intros [Hc | []]. discriminate.
  - change (String "-" ?s) with ("-" +++ s).
    apply (noColon_app "-").
    + unfold noColon. simpl. intros [Hc | []]. discriminate.
    + destruct d; try apply noColon_uint.
      unfold noColon. simpl. intros [Hc | []]. discriminate.
Qed.

Lemma strip_trailing_zeros_rev_incl (digits : list ascii) (c : ascii) :
  In c (JS.strip_trailing_zeros_rev digits) -> In c digits.
Proof.
  induction digits as [| d digits IH]; simpl; [tauto |].
  destruct d as [[|] [|] [|] [|] [|] [|] [|] [|]]; simpl; tauto.
Qed.

Lemma noColon_strip_trailing_zeros (s : string) :
  noColon s -> noColon (JS.strip_trailing_zeros s).
Proof.
  unfold noColon, JS.strip_trailing_zeros.
  rewrite list_ascii_of_string_of_list_ascii.
  intros Hs Hin. apply Hs.
  apply in_rev, strip_trailing_zeros_rev_incl in Hin.
  apply in_rev. exact Hin.
Qed.

Lemma noColon_zeros (n : nat) : noColon (JS.zeros n).
Proof.
  induction n as [| n IH]; simpl.
  - intros [].
  - apply (noColon_app "0"); [| exact IH].
    unfold noColon. simpl. intros [Hc | []]. discriminate.
Qed.

Lemma noColon_seconds_text (micros : Z) : noColon (JS.seconds_text micros).
Proof.
  assert (Hdot : noColon ".")
    by (unfold noColon; simpl; intros [Hc | []]; discriminate).
  assert (Hminus : noColon "-")
    by (unfold noColon; simpl; intros [Hc | []]; discriminate).
  unfold JS.seconds_text.
  assert (Hunsigned :
            noColon
              (if Z.abs micros mod JS.MicrosecondsInASecond =? 0
               then JS.decimal (Z.abs micros / JS.MicrosecondsInASecond)
               else JS.decimal (Z.abs micros / JS.MicrosecondsInASecond)
                    +++ "."
                    +++ JS.strip_trailing_zeros
                          (JS.pad_left 6
                             (JS.decimal
                                (Z.abs micros mod JS.MicrosecondsInASecond))))).
  { destruct (Z.abs micros mod JS.MicrosecondsInASecond =? 0).
    - apply noColon_decimal.
    - apply noColon_app; [apply noColon_decimal |].
      apply noColon_app; [exact Hdot |].
      apply noColon_strip_trailing_zeros. unfold JS.pad_left.
      apply noColon_app; [apply noColon_zeros | apply noColon_decimal]. }
  destruct (micros <? 0); [apply noColon_app; assumption | exact Hunsigned].
Qed.

Lemma split_colon_noColon (s : string) :
  noColon s -> JS.split_colon s = [s].
Proof.
  unfold noColon. induction s as [| c s IH]; simpl; [reflexivity |].
  intros Hs. destruct (Ascii.eqb_spec c ":"%char) as [-> | Hc].
  - exfalso. apply Hs. left. reflexivity.
  - rewrite IH by tauto. reflexivity.
Qed.

Lemma split_colon_app (a b : string) :
  noColon a -> JS.split_colon (a +++ String ":" b) = a :: JS.split_colon b.
Proof.
  unfold noColon. induction a as [| c a IH]; simpl; [reflexivity |].
  intros Ha. destruct (Ascii.eqb_spec c ":"%char) as [-> | Hc].
  - exfalso. apply Ha. left. reflexivity.
  - rewrite IH by tauto. reflexivity.
Qed.

Lemma tokenText_parts (micros : Z) :
  JS.split_colon (tokenText micros) = ["2"; JS.seconds_text micros].
Proof.
  unfold tokenText.
  change (JS.split_colon ("2" +++ String ":" (JS.seconds_text micros))
          = ["2"; JS.seconds_text micros]).
  rewrite split_colon_app
    by (unfold noColon; simpl; intros [Hc | []]; discriminate).
  rewrite split_colon_noColon by apply noColon_seconds_text.
  reflexivity.
Qed.

Lemma encodeToken_truthy (micros : Z) :
  JS.truthy_string (Some (encodeToken micros)) = true.
Proof.
  unfold encodeToken, JS.base64_encode.
  change (JS.decimal SYNC_TOKEN_VERSION) with "2".
  simpl list_ascii_of_string. simpl map.
  destruct (map N_of_ascii (list_ascii_of_string (JS.seconds_text micros)))
    as [| c rest]; reflexivity.
Qed.

(** X18: a token written by the service is read back by the service.
    Wherever [Buffer] decodes the base64 of the token text back to that
    text and the number parsing reads the decimal seconds back as the
    microseconds they were printed from, [getLastSyncTime] returns for the
    token of [micros] (as sync token, or as cursor token whatever sync
    token comes with it) exactly [micros]. *)
Theorem getLastSyncTime_reads_encodeToken (this : ItemService) (micros : Z) :
  Buffer_from_base64 this (encodeToken micros) = tokenText micros ->
  Number_times_MicrosecondsInASecond this (Some (JS.seconds_text micros))
  = Some micros ->
  getLastSyncTime this (Some (encodeToken micros)) None
  = Returned (Some micros)
  /\ forall syncToken,
       getLastSyncTime this syncToken (Some (encodeToken micros))
       = Returned (Some micros).
Proof.
  intros Hbuffer Hnumber.
  assert (Hread : forall syncToken,
             getLastSyncTime this syncToken (Some (encodeToken micros))
             = Returned (Some micros)).
  { intros syncToken. unfold getLastSyncTime.
    rewrite encodeToken_truthy. cbn [negb].
    rewrite Hbuffer, tokenText_parts. cbn [hd_error tl option_is].
    change ("2" =? "1")%string with false.
    change ("2" =? "2")%string with true.
    cbv iota. rewrite Hnumber. reflexivity. }
  split; [| exact Hread].
  exact (Hread (Some (encodeToken micros))).
Qed.

Lemma getLastSyncTime_reads_encodeToken_witness :
  getLastSyncTime Sample.service (Some (encodeToken 1700000000123456)) None
  = Returned (Some 1700000000123456)
  /\ forall syncToken,
       getLastSyncTime Sample.service syncToken
         (Some (encodeToken 1700000000123456))
       = Returned (Some 1700000000123456).
Proof.
  apply (getLastSyncTime_reads_encodeToken Sample.service 1700000000123456);
    vm_compute; reflexivity.
Defined.

End TokenFacts.

(** ** The transition runner: phases and stores *)

Module RunnerFacts.
Import Effects Logs Transition EffectsFacts SaveItemsFacts LoopFacts.

(** Decompose a program into its calls, one obligation per call. *)
Ltac stays :=
  repeat
    (simpl;
     match goal with
     | |- True => exact I
     | |- _ = _ => reflexivity
     | |- _ /\ _ => split
     | |- forall _, _ => intro
     | |- issuesOnly _ (bind _ _) => apply issuesOnly_bind
     | |- issuesOnly _ (for_of _ _ _) => apply issuesOnly_for_of
     | |- issuesOnly _ (for_of_return _ _) => apply issuesOnly_for_of_return
     | |- issuesOnly _ (if ?c then _ else _) => destruct c
     | |- issuesOnly _ (match ?x with Some _ => _ | None => _ end) =>
         destruct x
     | |- issuesOnly _ (match ?x with inl _ => _ | inr _ => _ end) =>
         destruct x
     end).

Lemma migrateItem_isItemCall (this : UseCase) (userUuid : string)
  (item : Item) :
  issuesOnly isItemCall (migrateItem this userUuid item).
Proof.
  unfold migrateItem, allowForPrimaryDatabaseToCatchUp, call. stays.
Qed.

Lemma checkItem_isItemCall (this : UseCase) (userUuid : string)
  (item : Item) :
  issuesOnly isItemCall (checkItem this userUuid item).
Proof.
  unfold checkItem, call. stays.
Qed.

Lemma issuesOnly_weaken {Cmd : Type -> Type} (Q Q' : forall X, Cmd X -> Prop)
  {A} (p : Prog Cmd A) :
  (forall X c, Q X c -> Q' X c) -> issuesOnly Q p -> issuesOnly Q' p.
Proof.
  intros Himpl.
  induction p as [A a | A e | A X c k IH | A C body IHbody handler IHh k IHk];
    simpl; auto.
  - intros [Hc Hk]. split; [apply Himpl, Hc | intros x; apply IH, Hk].
  - intros [Hbody [Hh Hk]]. repeat split; auto.
Qed.

Lemma isItemCall_respectsStores X (c : Cmd X) :
  isItemCall X c -> respectsStores X c.
Proof.
  destruct c; simpl; try tauto; destruct repository; tauto.
Qed.

Lemma isItemCall_isPhaseCall X (c : Cmd X) : isItemCall X c -> isPhaseCall X c.
Proof.
  destruct c; simpl; tauto.
Qed.

Lemma migrateItemsForUser_issues (Q : forall X, Cmd X -> Prop)
  (this : UseCase) (userUuid : string) (timestamp : Z) :
  (forall X c, isItemCall X c -> Q X c) ->
  (forall X (c : Cmd X),
      match c with
      | TransitionRepositoryGetPagingProgress _ => True
      | TransitionRepositorySetPagingProgress _ _ => True
      | ItemRepositoryCountAll Secondary _ => True
      | ItemRepositoryFindAll Secondary _ => True
      | DomainEventPublisherPublish event => e_status event = InProgress
      | _ => False
      end -> Q X c) ->
  issuesOnly Q (migrateItemsForUser this userUuid timestamp).
Proof.
  intros Hitem Hpage.
  unfold migrateItemsForUser, migratePage, updateTransitionStatus, call.
  stays.
  all: try (apply Hitem; exact I).
  all: try (apply (Hpage _ (TransitionRepositoryGetPagingProgress _)); exact I).
  all: try (apply (Hpage _ (TransitionRepositorySetPagingProgress _ _));
            exact I).
  all: try (apply (Hpage _ (ItemRepositoryCountAll Secondary _)); exact I).
  all: try (apply (Hpage _ (ItemRepositoryFindAll Secondary _)); exact I).
  all: try (apply (Hpage _ (DomainEventPublisherPublish _)); reflexivity).
  all: apply (issuesOnly_weaken isItemCall); [exact Hitem |];
    apply migrateItem_isItemCall.
Qed.

Lemma checkIntegrity_issues (Q : forall X, Cmd X -> Prop)
  (this : UseCase) (userUuid : string) :
  (forall X c, isItemCall X c -> Q X c) ->
  (forall X (c : Cmd X),
      match c with
      | TransitionRepositoryGetIntegrityProgress _ => True
      | TransitionRepositorySetIntegrityProgress _ _ => True
      | ItemRepositoryCountAll _ _ => True
      | ItemRepositoryFindAll Secondary _ => True
      | _ => False
      end -> Q X c) ->
  issuesOnly Q
    (checkIntegrityBetweenPrimaryAndSecondaryDatabase this userUuid).
Proof.
  intros Hitem Hpage.
  unfold checkIntegrityBetweenPrimaryAndSecondaryDatabase, checkPage, call.
  stays.
  all: try (apply Hitem; exact I).
  all: try (apply (Hpage _ (TransitionRepositoryGetIntegrityProgress _));
            exact I).
  all: try (apply (Hpage _ (TransitionRepositorySetIntegrityProgress _ _));
            exact I).
  all: try (apply (Hpage _ (ItemRepositoryCountAll _ _)); exact I).
  all: try (apply (Hpage _ (ItemRepositoryFindAll Secondary _)); exact I).
  all: apply (issuesOnly_weaken isItemCall); [exact Hitem |];
    apply checkItem_isItemCall.
Qed.

Lemma migrateItemsForUser_respectsStores (this : UseCase)
  (userUuid : string) (timestamp : Z) :
  issuesOnly respectsStores (migrateItemsForUser this userUuid timestamp).
Proof.
  apply migrateItemsForUser_issues.
  - apply isItemCall_respectsStores.
  - intros X c; destruct c; simpl; tauto.
Qed.

Lemma checkIntegrity_respectsStores (this : UseCase) (userUuid : string) :
  issuesOnly respectsStores
    (checkIntegrityBetweenPrimaryAndSecondaryDatabase this userUuid).
Proof.
  apply checkIntegrity_issues.
  - apply isItemCall_respectsStores.
  - intros X c; destruct c; simpl; tauto.
Qed.

Local Opaque migrateItemsForUser
  checkIntegrityBetweenPrimaryAndSecondaryDatabase.

(** X19: [execute] keeps to the division of labour between the stores,
    whatever the collaborators answer and however it ends: every
    [removeByUuid] and every [save] goes to the primary repository, and the
    only bulk deletion goes to the secondary one; the items of the source
    are never written one by one. *)
Theorem execute_respects_stores {W} (H : Handler Cmd W) (this : UseCase)
  (dto : DTO) (w : W) :
  within respectsStores (snd (snd (exec H (execute this dto) w))).
Proof.
  apply issuesOnly_exec.
  unfold execute, isAlreadyMigrated, updateTransitionStatus,
    allowForPrimaryDatabaseToCatchUp, deleteItemsForUser, call.
  pose proof (migrateItemsForUser_respectsStores this) as Hmigrate.
  pose proof (checkIntegrity_respectsStores this) as Hcheck.
  stays.
  all: try apply Hmigrate; try apply Hcheck.
Qed.

Local Transparent migrateItemsForUser
  checkIntegrityBetweenPrimaryAndSecondaryDatabase.

(** *** Results and statuses *)

Lemma statuses_collect (log : list (Entry Cmd)) :
  statuses log = collect statusOf log.
Proof.
  induction log as [| e log IH]; [reflexivity |].
  unfold collect in *. simpl. destruct (statusOf e); simpl; congruence.
Qed.

Lemma statuses_app (l1 l2 : list (Entry Cmd)) :
  statuses (l1 ++ l2) = statuses l1 ++ statuses l2.
Proof.
  rewrite !statuses_collect. apply collect_app.
Qed.

(** The copy and the verification loops publish [InProgress] only and
    clean nothing up. *)
Lemma phase_log (log : list (Entry Cmd)) :
  within isPhaseCall log ->
  Forall (fun status => status = InProgress) (statuses log)
  /\ collect cleanupOf log = [].
Proof.
  intros Hlog. induction Hlog as [| e log He _ [IH1 IH2]].
  - split; [constructor | reflexivity].
  - destruct e as [X c o]. unfold collect in *. simpl in *.
    destruct c; simpl in *; try (split; assumption); try contradiction.
    split; [constructor; assumption | assumption].
Qed.

Lemma migrateItemsForUser_isPhaseCall (this : UseCase) (userUuid : string)
  (timestamp : Z) :
  issuesOnly isPhaseCall (migrateItemsForUser this userUuid timestamp).
Proof.
  apply migrateItemsForUser_issues.
  - apply isItemCall_isPhaseCall.
  - intros X c; destruct c; simpl; tauto.
Qed.

Lemma checkIntegrity_isPhaseCall (this : UseCase) (userUuid : string) :
  issuesOnly isPhaseCall
    (checkIntegrityBetweenPrimaryAndSecondaryDatabase this userUuid).
Proof.
  apply checkIntegrity_issues.
  - apply isItemCall_isPhaseCall.
  - intros X c; destruct c; simpl; tauto.
Qed.

(** A [try] whose [catch] returns and that is followed by nothing
    returns, whatever happens inside. *)
Lemma tryCatch_returns {W} (H : Handler Cmd W) {B}
  (body : Prog Cmd B) (handler : string -> B) (w : W) :
  exists result w',
    run H (TryCatch body (fun e => Ret (handler e)) Ret) w
    = (Returned result, w').
Proof.
  change (run H (TryCatch body (fun e => Ret (handler e)) Ret) w)
    with (match run H body w with
          | (Returned b, w') => run H (Ret b) w'
          | (Thrown e, w') => run H (Ret (handler e)) w'
          end).
  destruct (run H body w) as [[b | e] w1]; simpl; eexists; eexists;
    reflexivity.
Qed.

Lemma migrateItemsForUser_returns {W} (H : Handler Cmd W) (this : UseCase)
  (userUuid : string) (timestamp : Z) (w : W) :
  exists result w',
    run H (migrateItemsForUser this userUuid timestamp) w
    = (Returned result, w').
Proof.
  unfold migrateItemsForUser. apply tryCatch_returns.
Qed.

Lemma checkIntegrity_returns {W} (H : Handler Cmd W) (this : UseCase)
  (userUuid : string) (w : W) :
  exists result w',
    run H (checkIntegrityBetweenPrimaryAndSecondaryDatabase this userUuid) w
    = (Returned result, w').
Proof.
  unfold checkIntegrityBetweenPrimaryAndSecondaryDatabase.
  apply tryCatch_returns.
Qed.

(** What a phase adds to the log. *)
Lemma phase_frame {W} (H : Handler Cmd W) {A} (p : Prog Cmd A) (w w' : W)
  (o : Outcome A) (log0 log : list (Entry Cmd)) :
  issuesOnly isPhaseCall p ->
  run (logging H) p (w, log0) = (o, (w', log)) ->
  exists more,
    log = log0 ++ more
    /\ Forall (fun status => status = InProgress) (statuses more)
    /\ collect cleanupOf more = [].
Proof.
  intros Hp E. apply exec_frame in E. destruct E as [more [E ->]].
  exists more. split; [reflexivity |]. apply phase_log.
  pose proof (issuesOnly_exec H isPhaseCall p w Hp) as Hlog.
  rewrite E in Hlog. exact Hlog.
Qed.

(** Ask the next collaborator and record the answer in the log. *)
Ltac ask H :=
  match goal with
  | |- context [logging H ?X ?c (?w, ?l)] =>
      let E := fresh "E" in
      destruct (H X c w) as [[? | ?] ?] eqn:E;
      [ rewrite (TransitionFacts.logging_returned H c _ _ _ l E)
      | rewrite (TransitionFacts.logging_thrown H c _ _ _ l E) ];
      simpl
  end.

(** Run the next phase as a whole. *)
Ltac phase H :=
  match goal with
  | |- context [run (logging H) (bind ?p ?k) ?wl] =>
      let E := fresh "Ephase" in
      rewrite (run_bind (logging H) p k wl);
      destruct (run (logging H) p wl) as [[? | ?] [? ?]] eqn:E;
      simpl
  end.

Ltac frames H this :=
  repeat match goal with
         | E : run (logging H) (migrateItemsForUser _ _ _) _ = _ |- _ =>
             apply (phase_frame H _ _ _ _ _ _
                      (migrateItemsForUser_isPhaseCall this _ _)) in E;
             destruct E as [? [-> [? ?]]]
         | E : run (logging H)
                 (checkIntegrityBetweenPrimaryAndSecondaryDatabase _ _) _ = _
           |- _ =>
             apply (phase_frame H _ _ _ _ _ _
                      (checkIntegrity_isPhaseCall this _)) in E;
             destruct E as [? [-> [? ?]]]
         end.

Lemma Forall_InProgress_not_in (l : list Status) (status : Status) :
  Forall (fun s => s = InProgress) l -> status <> InProgress -> ~ In status l.
Proof.
  intros Hall Hneq Hin. rewrite Forall_forall in Hall.
  apply Hneq, Hall, Hin.
Qed.

Local Opaque migrateItemsForUser
  checkIntegrityBetweenPrimaryAndSecondaryDatabase.

(** X20: the result of [execute] and the statuses it has published agree
    in both directions that matter to a caller: when it returns a failure,
    it has published no [Verified] and has asked for no cleanup; when it
    returns success, the last status it has published is [Verified]. *)
Theorem execute_result_matches_status {W} (H : Handler Cmd W)
  (this : UseCase) (dto : DTO) (w : W) :
  let outcome := exec H (execute this dto) w in
  (forall error,
      fst outcome = Returned (Fail error) ->
      ~ In Verified (statuses (snd (snd outcome)))
      /\ collect cleanupOf (snd (snd outcome)) = [])
  /\ (fst outcome = Returned Ok ->
      exists before, statuses (snd (snd outcome)) = before ++ [Verified]).
Proof.
  intros outcome. subst outcome.
  unfold exec, execute, isAlreadyMigrated, updateTransitionStatus,
    allowForPrimaryDatabaseToCatchUp, deleteItemsForUser, call.
  simpl.
  repeat first
    [ ask H
    | match goal with
      | |- context [if negb ?c then _ else _] => destruct c; simpl
      | |- context [match Uuid_create ?t ?u with _ => _ end] =>
          destruct (Uuid_create t u); simpl
      | |- context [if ?n >? 0 then _ else _] => destruct (n >? 0); simpl
      | |- context [if ?n =? 0 then _ else _] => destruct (n =? 0); simpl
      end
    | phase H
    | match goal with
      | |- context [if isFailed ?r then _ else _] => destruct r; simpl
      end ].
  all: frames H this.
  all: split; [intros failure Hfail | intros Hok]; try discriminate.
  all: rewrite ?statuses_app, ?collect_app; simpl.
  all: repeat match goal with
              | Hc : collect cleanupOf _ = [] |- _ => rewrite Hc
              end; simpl.
  all: try (exists []; reflexivity).
  all: try (eexists; reflexivity).
  all: split; [| reflexivity].
  all: repeat match goal with
              | Hall : Forall _ (statuses ?l) |- _ =>
                  apply (fun Hall =>
                           Forall_InProgress_not_in _ Verified Hall
                             ltac:(discriminate)) in Hall
              end.
  all: rewrite ?in_app_iff; simpl; intuition discriminate.
Qed.

Lemma execute_result_matches_status_witness :
  let refused :=
    exec InMemory.handle
      (execute (Sample.strict Sample.useCase) Sample.request)
      (Sample.world [] [Sample.item "A" "a" 1]) in
  let accepted :=
    exec InMemory.handle (execute Sample.useCase Sample.request)
      (Sample.world [] [Sample.item "A" "a" 1]) in
  (fst refused = Returned (Fail "Given value is not a valid uuid: alice")
   /\ ~ In Verified (statuses (snd (snd refused)))
   /\ collect cleanupOf (snd (snd refused)) = [])
  /\ (fst accepted = Returned Ok
      /\ exists before, statuses (snd (snd accepted)) = before ++ [Verified]).
Proof.
  intros refused accepted.
  destruct (execute_result_matches_status InMemory.handle
              (Sample.strict Sample.useCase) Sample.request
              (Sample.world [] [Sample.item "A" "a" 1])) as [Hfail _].
  destruct (execute_result_matches_status InMemory.handle Sample.useCase
              Sample.request (Sample.world [] [Sample.item "A" "a" 1]))
    as [_ Hok].
  split.
  - split; [vm_compute; reflexivity |].
    apply (Hfail "Given value is not a valid uuid: alice").
    vm_compute. reflexivity.
  - split; [vm_compute; reflexivity |].
    apply Hok. vm_compute. reflexivity.
Defined.

(** *** Exceptions *)

Ltac impossible H Hunfailing :=
  destruct Hunfailing as [[Hinfo [Hclock Hpublish]]
                            [Herror [Hsleep [Hpaging Hintegrity]]]];
  match goal with
  | E : H _ (LoggerInfo ?m) ?w = (Thrown _, _) |- _ =>
      destruct (Hinfo m w) as [? E']; rewrite E' in E; discriminate
  | E : H _ (LoggerError ?m) ?w = (Thrown _, _) |- _ =>
      destruct (Herror m w) as [? E']; rewrite E' in E; discriminate
  | E : H _ TimerGetTimestampInMicroseconds ?w = (Thrown _, _) |- _ =>
      destruct (Hclock w) as [? [? E']]; rewrite E' in E; discriminate
  | E : H _ (TimerSleep ?m) ?w = (Thrown _, _) |- _ =>
      destruct (Hsleep m w) as [? E']; rewrite E' in E; discriminate
  | E : H _ (DomainEventPublisherPublish ?m) ?w = (Thrown _, _) |- _ =>
      destruct (Hpublish m w) as [? E']; rewrite E' in E; discriminate
  | E : H _ (TransitionRepositorySetPagingProgress ?u ?p) ?w = (Thrown _, _)
    |- _ =>
      destruct (Hpaging u p w) as [? E']; rewrite E' in E; discriminate
  | E : H _ (TransitionRepositorySetIntegrityProgress ?u ?p) ?w
        = (Thrown _, _) |- _ =>
      destruct (Hintegrity u p w) as [? E']; rewrite E' in E; discriminate
  | E : run (logging H) (migrateItemsForUser ?t ?u ?ts) ?wl = (Thrown _, _)
    |- _ =>
      destruct (migrateItemsForUser_returns (logging H) t u ts wl)
        as [? [? E']]; rewrite E' in E; discriminate
  | E : run (logging H)
          (checkIntegrityBetweenPrimaryAndSecondaryDatabase ?t ?u) ?wl
        = (Thrown _, _) |- _ =>
      destruct (checkIntegrity_returns (logging H) t u wl)
        as [? [? E']]; rewrite E' in E; discriminate
  end.

(** X21: the only exception that leaves [execute] is that of the first
    count on the secondary repository, the one call on a store made
    outside every [try].  With a logger, a timer, a publisher and progress
    setters that answer, an [execute] that throws has done nothing but log
    its first line and ask for that count; every other failure of a
    repository comes back as a [Result]. *)
Theorem execute_throws_only_at_precondition {W} (H : Handler Cmd W)
  (this : UseCase) (dto : DTO) (w : W) (e : string) :
  Unfailing H ->
  fst (exec H (execute this dto) w) = Thrown e ->
  exists userUuidValue,
    Uuid_create this (userUuid dto) = inr userUuidValue
    /\ snd (snd (exec H (execute this dto) w))
       = [entry unit
            (LoggerInfo ("[" +++ userUuid dto +++ "] Transitioning items"))
            (Returned tt);
          entry Z
            (ItemRepositoryCountAll Secondary (userQuery userUuidValue))
            (Thrown e)].
Proof.
  intros Hunfailing.
  unfold exec, execute, isAlreadyMigrated, updateTransitionStatus,
    allowForPrimaryDatabaseToCatchUp, deleteItemsForUser, call.
  simpl.
  repeat first
    [ ask H
    | match goal with
      | |- context [if negb ?c then _ else _] => destruct c; simpl
      | |- context [match Uuid_create ?t ?u with _ => _ end] =>
          destruct (Uuid_create t u) eqn:?; simpl
      | |- context [if ?n >? 0 then _ else _] => destruct (n >? 0); simpl
      | |- context [if ?n =? 0 then _ else _] => destruct (n =? 0); simpl
      end
    | phase H
    | match goal with
      | |- context [if isFailed ?r then _ else _] => destruct r; simpl
      end ].
  all: intros Hthrown; try discriminate.
  all: try (impossible H Hunfailing).
  all: injection Hthrown as ->.
  all: destruct a. 
  all: eexists; split; reflexivity.
Qed.

Lemma unreachableSource_unfailing : Unfailing Sample.unreachableSource.
Proof.
  repeat split; intros; simpl; repeat eexists.
Qed.

Lemma execute_throws_only_at_precondition_witness :
  fst (exec Sample.unreachableSource (execute Sample.useCase Sample.request)
         (Sample.world [] [Sample.item "A" "a" 1]))
  = Thrown "ECONNREFUSED"
  /\ exists userUuidValue,
       Uuid_create Sample.useCase (userUuid Sample.request)
       = inr userUuidValue
       /\ snd (snd (exec Sample.unreachableSource
                      (execute Sample.useCase Sample.request)
                      (Sample.world [] [Sample.item "A" "a" 1])))
          = [entry unit
               (LoggerInfo
                  ("[" +++ userUuid Sample.request +++ "] Transitioning items"))
               (Returned tt);
             entry Z
               (ItemRepositoryCountAll Secondary (userQuery userUuidValue))
               (Thrown "ECONNREFUSED")].
Proof.
  split; [vm_compute; reflexivity |].
  apply (execute_throws_only_at_precondition Sample.unreachableSource
           Sample.useCase Sample.request
           (Sample.world [] [Sample.item "A" "a" 1]) "ECONNREFUSED").
  - exact unreachableSource_unfailing.
  - vm_compute. reflexivity.
Defined.

Local Transparent migrateItemsForUser
  checkIntegrityBetweenPrimaryAndSecondaryDatabase.

End RunnerFacts.

(** ** The transition runner: the copy loop *)

Module CopyFacts.
Import Effects Logs Transition EffectsFacts SaveItemsFacts LoopFacts.
Import RunnerFacts.

(** *** One item *)

Ltac walk_item H :=
  repeat first
    [ ask H
    | match goal with
      | |- context [match ?found with Some _ => _ | None => _ end] =>
          destruct found; simpl
      | |- context [if ?a >? ?b then _ else _] =>
          destruct (a >? b) eqn:?; simpl
      | |- context [if isIdenticalTo ?t ?a ?b then _ else _] =>
          destruct (isIdenticalTo t a b) eqn:?; simpl
      end ].


Lemma migrateItem_writes_item {W} (H : Handler Cmd W) (this : UseCase)
  (userUuid : string) (item : Item) (w : W) :
  forall write,
    In write
      (collect targetWrite
         (snd (snd (exec H (migrateItem this userUuid item) w)))) ->
    write = Saved item \/ write = Removed (Item.uuid item).
Proof.
  unfold exec, migrateItem, allowForPrimaryDatabaseToCatchUp, call, collect.
  simpl. walk_item H.
  all: simpl; intros write Hin.
  all: repeat destruct Hin as [<- | Hin]; try contradiction; tauto.
Qed.

(** An item whose copy fails is logged and left behind. *)
Lemma migrateItem_returns {W} (H : Handler Cmd W) (this : UseCase)
  (userUuid : string) (item : Item) (w : W) :
  (forall message w, exists w', H _ (LoggerError message) w = (Returned tt, w')) ->
  exists w', run H (migrateItem this userUuid item) w = (Returned tt, w').
Proof.
  intros Herror.
  unfold migrateItem, allowForPrimaryDatabaseToCatchUp, call. simpl.
  repeat first
    [ match goal with
      | |- context [H unit (LoggerError ?m) ?w] =>
          let E := fresh "E" in
          destruct (Herror m w) as [? E]; rewrite E; simpl
      end
    | answer H
    | match goal with
      | |- context [match ?found with Some _ => _ | None => _ end] =>
          destruct found; simpl
      | |- context [if ?c then _ else _] => destruct c; simpl
      end ].
  all: repeat match goal with u : unit |- _ => destruct u end.
  all: eexists; reflexivity.
Qed.

(** *** What the item calls and the announcements leave out *)

Lemma isItemCall_no_page (log : list (Entry Cmd)) :
  within isItemCall log ->
  collect sourcePage log = [] /\ collect sourceQuery log = []
  /\ collect pagingProgressSet log = []
  /\ collect integrityProgressSet log = [].
Proof.
  intros Hlog.
  repeat split; (eapply (within_collect_nil isItemCall); [| exact Hlog]).
  all: intros [X c o]; destruct c; simpl; try tauto;
    try (destruct repository; tauto).
Qed.

Lemma isAnnouncement_nothing (log : list (Entry Cmd)) :
  within isAnnouncement log ->
  collect sourcePage log = [] /\ collect sourceQuery log = []
  /\ collect pagingProgressSet log = []
  /\ collect targetWrite log = [] /\ collect targetLookup log = [].
Proof.
  intros Hlog.
  repeat split; (eapply (within_collect_nil isAnnouncement); [| exact Hlog]).
  all: intros [X c o]; destruct c; simpl; tauto.
Qed.

(** *** One page *)

Lemma itemsLoop_log {W} (H : Handler Cmd W) (this : UseCase)
  (userUuid : string) (items : list Item) (w : W) :
  let log :=
    snd (snd (exec H
                (for_of items (fun item _ => migrateItem this userUuid item)
                   tt) w)) in
  within isItemCall log
  /\ forall write,
       In write (collect targetWrite log) ->
       exists item,
         In item items
         /\ (write = Saved item \/ write = Removed (Item.uuid item)).
Proof.
  intros log. split.
  - apply issuesOnly_exec, issuesOnly_for_of. intros item _.
    apply migrateItem_isItemCall.
  - subst log. unfold exec.
    destruct (run (logging H)
                (for_of items (fun item _ => migrateItem this userUuid item)
                   tt) (w, [])) as [o [w' log]] eqn:E.
    simpl. revert E.
    apply (for_of_log H
             (fun log =>
                forall write,
                  In write (collect targetWrite log) ->
                  exists item,
                    In item items
                    /\ (write = Saved item
                        \/ write = Removed (Item.uuid item)))).
    + intros item [] w0 log0 o0 w0' log0' Hitem Hlog0 Estep.
      apply exec_frame in Estep. destruct Estep as [more [Estep ->]].
      intros write. rewrite collect_app, in_app_iff.
      intros [Hin | Hin]; [apply Hlog0, Hin |].
      exists item. split; [exact Hitem |].
      pose proof (migrateItem_writes_item H this userUuid item w0 write)
        as Hwrite.
      rewrite Estep in Hwrite. apply Hwrite, Hin.
    + intros write [].
Qed.

(** The log of a page: an announcement every tenth of the way, the page
    number stored, the page fetched, and then the items. *)
Lemma migratePage_log {W} (H : Handler Cmd W) (this : UseCase)
  (userUuid : string) (timestamp totalPages currentPage : Z) (w w' : W)
  (o : Outcome unit) (log : list (Entry Cmd)) :
  exec H (migratePage this userUuid timestamp totalPages currentPage) w
  = (o, (w', log)) ->
  (exists e,
      o = Thrown e
      /\ collect targetWrite log = [] /\ collect sourcePage log = [])
  \/ (exists announce items w1 itemsLog,
         within isAnnouncement announce
         /\ log
            = announce
              ++ [entry unit
                    (TransitionRepositorySetPagingProgress userUuid
                       currentPage) (Returned tt);
                  entry (list Item)
                    (ItemRepositoryFindAll Secondary
                       (pageQuery this userUuid currentPage))
                    (Returned items)]
              ++ itemsLog
         /\ exec H
              (for_of items (fun item _ => migrateItem this userUuid item) tt)
              w1
            = (o, (w', itemsLog))).
Proof.
  unfold exec, migratePage, updateTransitionStatus, call.
  match goal with
  | |- context [if ?c then _ else _] => destruct c
  end; simpl.
  all: repeat ask H.
  all: try (intros Erun; injection Erun as <- _ <-; left; eexists;
            repeat split; reflexivity).
  all: rewrite run_logging_frame.
  all: match goal with
       | |- context [run ?L ?p (?w1, [])] =>
           destruct (run L p (w1, [])) as [o1 [wEnd itemsLog]] eqn:Ei
       end.
  all: intros Erun; injection Erun as <- <- <-; right.
  all: repeat match goal with u : unit |- _ => destruct u end.
  - eexists [_; _]. eexists. eexists. eexists.
    split; [| split; [reflexivity | exact Ei]].
    repeat constructor.
  - exists []. eexists. eexists. eexists.
    split; [| split; [reflexivity | exact Ei]].
    constructor.
Qed.

Lemma copiesSource_app (l1 l2 : list (Entry Cmd)) :
  copiesSource l1 -> copiesSource l2 -> copiesSource (l1 ++ l2).
Proof.
  unfold copiesSource, fromSource. intros H1 H2 write.
  rewrite !collect_app, in_app_iff.
  intros [Hin | Hin];
    [destruct (H1 _ Hin) as [page [item [Hpage Hrest]]]
    | destruct (H2 _ Hin) as [page [item [Hpage Hrest]]]];
    exists page, item; rewrite in_app_iff; tauto.
Qed.

Lemma migratePage_copiesSource {W} (H : Handler Cmd W) (this : UseCase)
  (userUuid : string) (timestamp totalPages currentPage : Z) (w w' : W)
  (o : Outcome unit) (log : list (Entry Cmd)) :
  exec H (migratePage this userUuid timestamp totalPages currentPage) w
  = (o, (w', log)) ->
  copiesSource log.
Proof.
  intros E. apply migratePage_log in E.
  destruct E as [[e [_ [Hwrites _]]]
                | [announce [items [w1 [itemsLog [Hannounce [-> Eitems]]]]]]].
  - intros write. rewrite Hwrites. intros [].
  - destruct (isAnnouncement_nothing _ Hannounce)
      as [_ [_ [_ [Hnowrite _]]]].
    pose proof (itemsLoop_log H this userUuid items w1) as [_ Hitems].
    rewrite Eitems in Hitems. simpl in Hitems.
    unfold copiesSource, fromSource.
    intros write. rewrite !collect_app, Hnowrite. simpl.
    intros Hin. destruct (Hitems _ Hin) as [item [Hitem Hwrite]].
    exists items, item. rewrite !in_app_iff. simpl. tauto.
Qed.

(** *** The whole phase *)

(** The log of [migrateItemsForUser]: the progress read, a log line, the
    count, and then the pages. *)
Lemma migrateItemsForUser_log {W} (H : Handler Cmd W) (this : UseCase)
  (userUuid : string) (timestamp : Z) (w w' : W) (o : Outcome Result)
  (log : list (Entry Cmd)) :
  exec H (migrateItemsForUser this userUuid timestamp) w = (o, (w', log)) ->
  (exists e,
      o = Returned (Fail e)
      /\ collect targetWrite log = [] /\ collect sourcePage log = [])
  \/ (exists initialPage message total w1 o1 pagesLog,
         log
         = [entry Z (TransitionRepositoryGetPagingProgress userUuid)
              (Returned initialPage);
            entry unit (LoggerInfo message) (Returned tt);
            entry Z (ItemRepositoryCountAll Secondary (userQuery userUuid))
              (Returned total)]
           ++ pagesLog
         /\ exec H
              (for_of (pages initialPage
                         (ceilDiv total (Z.pos (pageSize this))))
                 (fun currentPage _ =>
                    migratePage this userUuid timestamp
                      (ceilDiv total (Z.pos (pageSize this))) currentPage)
                 tt) w1
            = (o1, (w', pagesLog))
         /\ o = match o1 with
                | Returned _ => Returned Ok
                | Thrown e => Returned (Fail e)
                end).
Proof.
  unfold exec, migrateItemsForUser, call. simpl.
  repeat ask H.
  all: try (intros Erun; injection Erun as <- _ <-; left; eexists;
            repeat split; reflexivity).
  rewrite run_bind, run_logging_frame.
  match goal with
  | |- context [run (logging H) ?p (?w1, [])] =>
      destruct (run (logging H) p (w1, [])) as [o1 [wEnd pagesLog]] eqn:Ep
  end.
  repeat match goal with u : unit |- _ => destruct u end.
  destruct o1 as [[] | e]; simpl; intros Erun; injection Erun as <- <- <-;
    right;
    do 6 eexists; (split; [reflexivity |]); (split; [exact Ep | reflexivity]).
Qed.

(** X23: the copy phase writes to the target store nothing but the items
    of the pages it has fetched from the source, as they were delivered:
    whatever the collaborators answer and however the phase ends, every
    [save] on the primary repository is of an item from a fetched page, and
    every [removeByUuid] is of the uuid of such an item. *)
Theorem migrateItemsForUser_copies_source {W} (H : Handler Cmd W)
  (this : UseCase) (userUuid : string) (timestamp : Z) (w : W) :
  copiesSource
    (snd (snd (exec H (migrateItemsForUser this userUuid timestamp) w))).
Proof.
  destruct (exec H (migrateItemsForUser this userUuid timestamp) w)
    as [o [w' log]] eqn:E.
  apply migrateItemsForUser_log in E. simpl.
  destruct E as [[e [_ [Hwrites _]]]
                | [initialPage [message [total [w1 [o1 [pagesLog
                    [-> [Epages _]]]]]]]]].
  - intros write. rewrite Hwrites. intros [].
  - apply copiesSource_app; [intros write [] |].
    unfold exec in Epages. revert Epages.
    apply (for_of_log H copiesSource); [| intros write []].
    intros currentPage [] w0 log0 o0 w0' log0' _ Hlog0 Estep.
    apply exec_frame in Estep. destruct Estep as [more [Estep ->]].
    apply copiesSource_app; [exact Hlog0 |].
    apply (migratePage_copiesSource H _ _ _ _ _ _ _ _ _ Estep).
Qed.

(** X24: a write that fails does not fail the copy phase.  With a logger, a
    publisher, a paging progress and a source (count and pages) that
    answer, [migrateItemsForUser] returns success whatever the lookups,
    the removals, the saves and the pauses on the way do: the failure of an
    item is logged and the loop goes on. *)
Theorem migrateItemsForUser_survives_item_failures {W} (H : Handler Cmd W)
  (this : UseCase) (userUuid : string) (timestamp : Z) (w : W) :
  CopyLoopAnswers H ->
  exists w',
    run H (migrateItemsForUser this userUuid timestamp) w = (Returned Ok, w').
Proof.
  intros [Hinfo [Herror [Hpublish [Hget [Hset [Hcount Hfind]]]]]].
  unfold migrateItemsForUser, call. simpl.
  destruct (Hget userUuid w) as [initialPage [w1 ->]].
  match goal with
  | |- context [H unit (LoggerInfo ?m) w1] =>
      destruct (Hinfo m w1) as [w2 ->]
  end.
  destruct (Hcount (userQuery userUuid) w2) as [total [w3 ->]].
  rewrite run_bind.
  destruct (for_of_returns H
              (pages initialPage (ceilDiv total (Z.pos (pageSize this))))
              (fun currentPage _ =>
                 migratePage this userUuid timestamp
                   (ceilDiv total (Z.pos (pageSize this))) currentPage))
    with (s := tt) (w := w3) as [[] [w4 ->]].
  - intros currentPage [] w0.
    unfold migratePage, updateTransitionStatus, call.
    match goal with
    | |- context [if ?c then _ else _] => destruct c
    end; simpl.
    + match goal with
      | |- context [H unit (LoggerInfo ?m) w0] =>
          destruct (Hinfo m w0) as [w5 ->]
      end.
      match goal with
      | |- context [H unit (DomainEventPublisherPublish ?m) w5] =>
          destruct (Hpublish m w5) as [w6 ->]
      end.
      destruct (Hset userUuid currentPage w6) as [w7 ->].
      destruct (Hfind (pageQuery this userUuid currentPage) w7)
        as [items [w8 ->]].
      apply for_of_returns. intros item [] w9.
      destruct (migrateItem_returns H this userUuid item w9 Herror)
        as [w10 ->].
      exists tt, w10. reflexivity.
    + destruct (Hset userUuid currentPage w0) as [w7 ->].
      destruct (Hfind (pageQuery this userUuid currentPage) w7)
        as [items [w8 ->]].
      apply for_of_returns. intros item [] w9.
      destruct (migrateItem_returns H this userUuid item w9 Herror)
        as [w10 ->].
      exists tt, w10. reflexivity.
  - simpl. exists w4. reflexivity.
Qed.

Lemma readOnlyTarget_answers : CopyLoopAnswers Sample.readOnlyTarget.
Proof.
  repeat split; intros; simpl; repeat eexists.
Qed.

Lemma migrateItemsForUser_survives_item_failures_witness :
  exists w',
    run Sample.readOnlyTarget (migrateItemsForUser Sample.useCase "alice" 42)
      (Sample.world [] [Sample.item "A" "a" 1; Sample.item "B" "b" 2])
    = (Returned Ok, w')
    /\ InMemory.primary w' = []
    /\ List.length (InMemory.errors w') = 2%nat.
Proof.
  destruct (migrateItemsForUser_survives_item_failures Sample.readOnlyTarget
              Sample.useCase "alice" 42
              (Sample.world [] [Sample.item "A" "a" 1; Sample.item "B" "b" 2])
              readOnlyTarget_answers) as [w' Hrun].
  eexists. split; [vm_compute; reflexivity |].
  split; vm_compute; reflexivity.
Defined.

(** *** Progress *)

Lemma migratePage_progress {W} (H : Handler Cmd W) (this : UseCase)
  (userUuid : string) (timestamp totalPages currentPage : Z) (w w' : W)
  (log : list (Entry Cmd)) :
  exec H (migratePage this userUuid timestamp totalPages currentPage) w
  = (Returned tt, (w', log)) ->
  collect pagingProgressSet log = [currentPage]
  /\ collect sourceQuery log = [pageQuery this userUuid currentPage].
Proof.
  intros E. apply migratePage_log in E.
  destruct E as [[e [E _]]
                | [announce [items [w1 [itemsLog [Hannounce [-> Eitems]]]]]]];
    [discriminate |].
  destruct (isAnnouncement_nothing _ Hannounce) as [_ [Hq [Hset _]]].
  pose proof (itemsLoop_log H this userUuid items w1) as [Hitems _].
  rewrite Eitems in Hitems. simpl in Hitems.
  destruct (isItemCall_no_page _ Hitems) as [_ [Hq' [Hset' _]]].
  rewrite !collect_app, Hq, Hset, Hq', Hset'. split; reflexivity.
Qed.

Lemma isItemCall_isLoopCall X (c : Cmd X) : isItemCall X c -> isLoopCall X c.
Proof.
  destruct c; simpl; tauto.
Qed.

Lemma isLoopCall_nothing_read (log : list (Entry Cmd)) :
  within isLoopCall log ->
  collect pagingProgressAnswer log = []
  /\ collect integrityProgressAnswer log = []
  /\ collect (countOf Secondary) log = []
  /\ collect (countOf Primary) log = [].
Proof.
  intros Hlog.
  repeat split; (eapply (within_collect_nil isLoopCall); [| exact Hlog]).
  all: intros [X c o]; destruct c; simpl; tauto.
Qed.

Lemma migratePage_isLoopCall (this : UseCase) (userUuid : string)
  (timestamp totalPages currentPage : Z) :
  issuesOnly isLoopCall
    (migratePage this userUuid timestamp totalPages currentPage).
Proof.
  unfold migratePage, updateTransitionStatus, call. stays.
Qed.

(** X25: a copy phase that returns success has gone through the pages in
    order, from the page the paging progress named to the last page of the
    count the source gave, one page size at a time: the page numbers it
    has stored as paging progress are exactly these, and the queries it has
    sent to the source are the page queries of these numbers (offset
    [(page - 1) * pageSize], limit [pageSize], by creation time). *)
Theorem migrateItemsForUser_pages_in_order {W} (H : Handler Cmd W)
  (this : UseCase) (userUuid : string) (timestamp : Z) (w w' : W)
  (log : list (Entry Cmd)) :
  exec H (migrateItemsForUser this userUuid timestamp) w
  = (Returned Ok, (w', log)) ->
  exists initialPage total,
    collect pagingProgressAnswer log = [initialPage]
    /\ collect (countOf Secondary) log = [total]
    /\ collect pagingProgressSet log
       = pages initialPage (ceilDiv total (Z.pos (pageSize this)))
    /\ collect sourceQuery log
       = map (pageQuery this userUuid)
           (pages initialPage (ceilDiv total (Z.pos (pageSize this)))).
Proof.
  intros E. apply migrateItemsForUser_log in E.
  destruct E as [[e [E _]]
                | [initialPage [message [total [w1 [o1 [pagesLog
                    [-> [Epages Eo]]]]]]]]];
    [discriminate |].
  destruct o1 as [[] | e]; [| discriminate].
  exists initialPage, total.
  pose proof
    (for_of_returned H
       (fun processed (_ : unit) log =>
          collect pagingProgressSet log = processed
          /\ collect sourceQuery log = map (pageQuery this userUuid) processed)
       (pages initialPage (ceilDiv total (Z.pos (pageSize this))))
       (fun currentPage _ =>
          migratePage this userUuid timestamp
            (ceilDiv total (Z.pos (pageSize this))) currentPage)) as Hinv.
  simpl in Hinv.
  assert (Hloop :
            collect pagingProgressSet pagesLog
            = pages initialPage (ceilDiv total (Z.pos (pageSize this)))
            /\ collect sourceQuery pagesLog
               = map (pageQuery this userUuid)
                   (pages initialPage
                      (ceilDiv total (Z.pos (pageSize this))))).
  { apply (fun Hstep => Hinv Hstep [] tt w1 tt w' [] pagesLog);
      [| split; reflexivity | exact Epages].
    intros processed currentPage [] w0 log0 [] w0' more [Hs Hq] Estep.
    destruct (migratePage_progress H _ _ _ _ _ _ _ _ Estep) as [Hs' Hq'].
    rewrite !collect_app, Hs, Hq, Hs', Hq', map_app. split; reflexivity. }
  destruct Hloop as [Hset Hqueries].
  assert (Hquiet : within isLoopCall pagesLog).
  { change pagesLog with (snd (snd (Returned tt, (w', pagesLog)))).
    rewrite <- Epages.
    apply issuesOnly_exec, issuesOnly_for_of.
    intros currentPage _. apply migratePage_isLoopCall. }
  destruct (isLoopCall_nothing_read _ Hquiet) as [Hget [_ [Hcount _]]].
  rewrite !collect_app, Hset, Hqueries, Hget, Hcount.
  repeat split; reflexivity.
Qed.

Lemma migrateItemsForUser_pages_in_order_witness :
  exists w' log,
    exec InMemory.handle (migrateItemsForUser Sample.useCase "alice" 42)
      (Sample.world []
         [Sample.item "A" "a" 1; Sample.item "B" "b" 2; Sample.item "C" "c" 3])
    = (Returned Ok, (w', log))
    /\ collect pagingProgressSet log = [1; 2]
    /\ exists initialPage total,
         collect pagingProgressAnswer log = [initialPage]
         /\ collect (countOf Secondary) log = [total]
         /\ collect pagingProgressSet log
            = pages initialPage
                (ceilDiv total (Z.pos (pageSize Sample.useCase)))
         /\ collect sourceQuery log
            = map (pageQuery Sample.useCase "alice")
                (pages initialPage
                   (ceilDiv total (Z.pos (pageSize Sample.useCase)))).
Proof.
  eexists. eexists. split; [vm_compute; reflexivity |].
  split; [vm_compute; reflexivity |].
  eapply (migrateItemsForUser_pages_in_order InMemory.handle Sample.useCase
            "alice" 42
            (Sample.world []
               [Sample.item "A" "a" 1; Sample.item "B" "b" 2;
                Sample.item "C" "c" 3])).
  vm_compute. reflexivity.
Defined.

(** *** Pages and items *)

Lemma pages_in (initialPage totalPages page : Z) :
  In page (pages initialPage totalPages)
  <-> initialPage <= page <= totalPages.
Proof.
  unfold pages. rewrite in_map_iff. split.
  - intros [i [<- Hi]]. apply in_seq in Hi. lia.
  - intros Hpage. exists (Z.to_nat (page - initialPage)). split; [lia |].
    apply in_seq. lia.
Qed.

Lemma ceilDiv_covers (count size : Z) :
  0 < size -> count <= size * ceilDiv count size.
Proof.
  intros Hsize. unfold ceilDiv.
  pose proof (Z.div_mod (- count) size ltac:(lia)) as Hdm.
  pose proof (Z.mod_pos_bound (- count) size Hsize) as Hmod.
  nia.
Qed.

(** X26: the pages of the loop leave no item out and visit none twice.  For
    a source that holds [count] items, every item index from the offset of
    the initial page up to [count - 1] lies on exactly one of the pages
    [initialPage .. ceil(count / pageSize)]; starting from page 1, that is
    every item. *)
Theorem pages_cover_items (this : UseCase) (initialPage count index : Z) :
  1 <= initialPage ->
  (initialPage - 1) * Z.pos (pageSize this) <= index < count ->
  exists page,
    In page (pages initialPage (ceilDiv count (Z.pos (pageSize this))))
    /\ onPage this page index
    /\ forall other, onPage this other index -> other = page.
Proof.
  intros Hinitial [Hlow Hhigh].
  set (size := Z.pos (pageSize this)) in *.
  assert (Hsize : 0 < size) by (subst size; lia).
  exists (index / size + 1).
  pose proof (Z.div_mod index size ltac:(lia)) as Hdm.
  pose proof (Z.mod_pos_bound index size Hsize) as Hmod.
  pose proof (ceilDiv_covers count size Hsize) as Hceil.
  split; [| split].
  - apply pages_in. split.
    + assert (initialPage - 1 <= index / size); [| lia].
      apply Z.div_le_lower_bound; lia.
    + assert (index / size < ceilDiv count size); [| lia].
      apply Z.div_lt_upper_bound; lia.
  - unfold onPage. fold size. nia.
  - unfold onPage. fold size. intros other [Ho1 Ho2].
    assert (other - 1 = index / size); [| lia].
    apply (Z.div_unique index size (other - 1) (index - (other - 1) * size));
      lia.
Qed.

Lemma pages_cover_items_witness :
  exists page,
    In page (pages 1 (ceilDiv 5 (Z.pos (pageSize Sample.useCase))))
    /\ onPage Sample.useCase page 4
    /\ forall other, onPage Sample.useCase other 4 -> other = page.
Proof.
  apply (pages_cover_items Sample.useCase 1 5 4); simpl; lia.
Defined.

End CopyFacts.

(** ** The transition runner: the integrity check *)

Module CheckFacts.
Import Effects Logs Transition EffectsFacts SaveItemsFacts LoopFacts.
Import RunnerFacts CopyFacts.

(** *** One item *)

Ltac walk_check H :=
  repeat first
    [ ask H
    | match goal with
      | |- context [match ?found with Some _ => _ | None => _ end] =>
          destruct found; simpl
      | |- context [if ?a >? ?b then _ else _] =>
          destruct (Z.gtb_spec a b); simpl
      | |- context [if isIdenticalTo ?t ?a ?b then _ else _] =>
          destruct (isIdenticalTo t a b) eqn:?; simpl
      end ].

Lemma checkItem_passed {W} (H : Handler Cmd W) (this : UseCase)
  (userUuid : string) (item : Item) (w w' : W) (more : list (Entry Cmd)) :
  exec H (checkItem this userUuid item) w = (Returned None, (w', more)) ->
  exists found,
    collect targetLookup more = [(Item.uuid item, found)]
    /\ passesCheck this item found.
Proof.
  unfold exec, checkItem, call, collect. simpl. walk_check H.
  all: intros Erun; try discriminate; injection Erun as _ <-; simpl.
  all: eexists; (split; [reflexivity |]); simpl; auto.
  left. lia.
Qed.

Lemma checkItem_fails {W} (H : Handler Cmd W) (this : UseCase)
  (userUuid : string) (item : Item) (w w' : W) (result : Result) :
  run H (checkItem this userUuid item) w = (Returned (Some result), w') ->
  isFailed result = true.
Proof.
  unfold checkItem, call. simpl.
  repeat first
    [ answer H
    | match goal with
      | |- context [match ?found with Some _ => _ | None => _ end] =>
          destruct found; simpl
      | |- context [if ?c then _ else _] => destruct c; simpl
      end ].
  all: intros Erun; try discriminate; injection Erun as <- _; reflexivity.
Qed.

Lemma checkPage_fails {W} (H : Handler Cmd W) (this : UseCase)
  (userUuid : string) (currentPage : Z) (w w' : W) (result : Result) :
  run H (checkPage this userUuid currentPage) w
  = (Returned (Some result), w') ->
  isFailed result = true.
Proof.
  unfold checkPage, call. simpl.
  repeat answer H; try discriminate.
  apply (for_of_return_result H (fun r => isFailed r = true)).
  intros ? ? ? ?. apply checkItem_fails.
Qed.

(** *** One page *)

Lemma allChecked_app (this : UseCase) (l1 l2 : list (Entry Cmd)) :
  allChecked this l1 -> allChecked this l2 -> allChecked this (l1 ++ l2).
Proof.
  unfold allChecked. intros H1 H2 page item.
  rewrite !collect_app, in_app_iff.
  intros [Hpage | Hpage] Hitem;
    [destruct (H1 _ _ Hpage Hitem) as [found [Hfound Hpass]]
    | destruct (H2 _ _ Hpage Hitem) as [found [Hfound Hpass]]];
    exists found; rewrite in_app_iff; tauto.
Qed.

Lemma checkItems_passed {W} (H : Handler Cmd W) (this : UseCase)
  (userUuid : string) (items : list Item) (w w' : W)
  (log : list (Entry Cmd)) :
  exec H (for_of_return items (checkItem this userUuid)) w
  = (Returned None, (w', log)) ->
  within isItemCall log
  /\ forall item,
       In item items ->
       exists found,
         In (Item.uuid item, found) (collect targetLookup log)
         /\ passesCheck this item found.
Proof.
  intros E. split.
  - change log with (snd (snd (@Returned (option Result) None, (w', log)))).
    rewrite <- E.
    apply issuesOnly_exec, issuesOnly_for_of_return.
    intros item. apply checkItem_isItemCall.
  - pose proof
      (for_of_return_finished H
         (fun processed log =>
            forall item,
              In item processed ->
              exists found,
                In (Item.uuid item, found) (collect targetLookup log)
                /\ passesCheck this item found)
         items (checkItem this userUuid)) as Hinv.
    simpl in Hinv.
    apply (fun Hstep => Hinv Hstep [] w w' [] log);
      [| intros item [] | exact E].
    intros processed item w0 log0 w0' more Hlog0 Estep other.
    rewrite in_app_iff, collect_app. intros [Hin | [<- | []]].
    + destruct (Hlog0 _ Hin) as [found [Hfound Hpass]].
      exists found. rewrite in_app_iff. tauto.
    + destruct (checkItem_passed H _ _ _ _ _ _ Estep)
        as [found [Hfound Hpass]].
      exists found. rewrite in_app_iff, Hfound. simpl. tauto.
Qed.

Lemma checkPage_passed {W} (H : Handler Cmd W) (this : UseCase)
  (userUuid : string) (currentPage : Z) (w w' : W) (log : list (Entry Cmd)) :
  exec H (checkPage this userUuid currentPage) w
  = (Returned None, (w', log)) ->
  collect integrityProgressSet log = [currentPage]
  /\ collect sourceQuery log = [pageQuery this userUuid currentPage]
  /\ allChecked this log.
Proof.
  unfold exec, checkPage, call. simpl.
  repeat ask H; try discriminate.
  rewrite run_logging_frame.
  match goal with
  | |- context [run ?L ?p (?w1, [])] =>
      destruct (run L p (w1, [])) as [o1 [wEnd itemsLog]] eqn:Ei
  end.
  intros Erun. injection Erun as -> <- <-.
  destruct (checkItems_passed H _ _ _ _ _ _ Ei) as [Hcalls Hitems].
  destruct (isItemCall_no_page _ Hcalls) as [Hpage [Hq [_ Hset]]].
  unfold allChecked, collect in *. simpl. rewrite Hq, Hset, Hpage.
  repeat split.
  intros page item [<- | []] Hin.
  destruct (Hitems _ Hin) as [found [Hfound Hpass]].
  exists found. split; [exact Hfound | exact Hpass].
Qed.

Lemma checkPage_isLoopCall (this : UseCase) (userUuid : string)
  (currentPage : Z) :
  issuesOnly isLoopCall (checkPage this userUuid currentPage).
Proof.
  unfold checkPage, call. stays.
Qed.

(** *** The whole check *)

(** X27: the integrity check passes only on evidence.  When
    [checkIntegrityBetweenPrimaryAndSecondaryDatabase] returns success, the
    primary repository has counted at least as many items of the user as
    the secondary one, the pages from the stored integrity progress to the
    last page of the primary count have been fetched from the source in
    order, and every item of every fetched page has been looked up in the
    primary repository and found there newer or identical. *)
Theorem checkIntegrity_passes_on_evidence {W} (H : Handler Cmd W)
  (this : UseCase) (userUuid : string) (w w' : W) (log : list (Entry Cmd)) :
  exec H (checkIntegrityBetweenPrimaryAndSecondaryDatabase this userUuid) w
  = (Returned Ok, (w', log)) ->
  exists initialPage inSecondary inPrimary,
    collect integrityProgressAnswer log = [initialPage]
    /\ collect (countOf Secondary) log = [inSecondary]
    /\ collect (countOf Primary) log = [inPrimary]
    /\ inSecondary <= inPrimary
    /\ collect integrityProgressSet log
       = pages initialPage (ceilDiv inPrimary (Z.pos (pageSize this)))
    /\ collect sourceQuery log
       = map (pageQuery this userUuid)
           (pages initialPage (ceilDiv inPrimary (Z.pos (pageSize this))))
    /\ allChecked this log.
Proof.
  unfold exec, checkIntegrityBetweenPrimaryAndSecondaryDatabase, call.
  simpl. repeat ask H; try discriminate.
  match goal with
  | |- context [if ?a <? ?b then _ else _] => destruct (Z.ltb_spec a b)
  end; simpl; [discriminate |].
  rewrite run_bind, run_logging_frame.
  match goal with
  | |- context [run ?L ?p (?w1, [])] =>
      destruct (run L p (w1, [])) as [[[result |] | e] [wEnd pagesLog]] eqn:Ep
  end; simpl; intros Erun; try discriminate.
  - injection Erun as -> _ _.
    apply (for_of_return_result (logging H) (fun r => isFailed r = true))
      in Ep; [discriminate |].
    intros ? ? ? ?. apply checkPage_fails.
  - injection Erun as <- <-.
    match type of Ep with
    | run _ (for_of_return ?xs ?body) (?w1, _) = _ =>
        pose proof
          (for_of_return_finished H
             (fun processed log =>
                collect integrityProgressSet log = processed
                /\ collect sourceQuery log
                   = map (pageQuery this userUuid) processed
                /\ allChecked this log)
             xs body) as Hinv;
        simpl in Hinv;
        assert (Hloop :
                  collect integrityProgressSet pagesLog = xs
                  /\ collect sourceQuery pagesLog
                     = map (pageQuery this userUuid) xs
                  /\ allChecked this pagesLog)
          by (apply (fun Hstep => Hinv Hstep [] w1 wEnd [] pagesLog);
              [ intros processed currentPage w5 log0 w5' more
                  [Hs [Hq Hall]] Estep;
                destruct (checkPage_passed H _ _ _ _ _ _ Estep)
                  as [Hs' [Hq' Hall']];
                rewrite !collect_app, Hs, Hq, Hs', Hq', map_app;
                repeat split; apply allChecked_app; assumption
              | repeat split; intros page item []
              | exact Ep ])
    end.
    destruct Hloop as [Hset [Hqueries Hall]].
    assert (Hquiet : within isLoopCall pagesLog).
    { change pagesLog
        with (snd (snd (@Returned (option Result) None, (wEnd, pagesLog)))).
      rewrite <- Ep.
      apply issuesOnly_exec, issuesOnly_for_of_return.
      intros currentPage. apply checkPage_isLoopCall. }
    destruct (isLoopCall_nothing_read _ Hquiet) as [_ [Hget [Hcs Hcp]]].
    do 3 eexists.
    match goal with
    | |- context [?e1 :: ?e2 :: ?e3 :: ?e4 :: pagesLog] =>
        change (e1 :: e2 :: e3 :: e4 :: pagesLog)
          with ([e1; e2; e3; e4] ++ pagesLog)
    end.
    rewrite !collect_app, Hset, Hqueries, Hget, Hcs, Hcp.
    split; [reflexivity |]. split; [reflexivity |]. split; [reflexivity |].
    split; [lia |]. split; [reflexivity |]. split; [reflexivity |].
    apply (allChecked_app this [_; _; _; _] pagesLog); [| exact Hall].
    intros page item [].
Qed.

Lemma checkIntegrity_passes_on_evidence_witness :
  let stored :=
    [Sample.item "A" "a" 1; Sample.item "B" "b" 2; Sample.item "C" "c" 3] in
  exists w' log,
    exec InMemory.handle
      (checkIntegrityBetweenPrimaryAndSecondaryDatabase Sample.useCase "alice")
      (Sample.world stored stored)
    = (Returned Ok, (w', log))
    /\ collect integrityProgressSet log = [1; 2]
    /\ List.length (collect targetLookup log) = 3%nat
    /\ allChecked Sample.useCase log.
Proof.
  intros stored.
  eexists. eexists. split; [vm_compute; reflexivity |].
  split; [vm_compute; reflexivity |]. split; [vm_compute; reflexivity |].
  destruct (checkIntegrity_passes_on_evidence InMemory.handle Sample.useCase
              "alice" (Sample.world stored stored) _ _
              ltac:(vm_compute; reflexivity))
    as [initialPage [inSecondary [inPrimary [_ [_ [_ [_ [_ [_ Hall]]]]]]]]].
  exact Hall.
Defined.

(** X28: the integrity check changes no item: whatever the collaborators
    answer and however it ends, it calls neither [save] nor [removeByUuid]
    nor the bulk deletion, on either repository. *)
Theorem checkIntegrity_writes_nothing {W} (H : Handler Cmd W)
  (this : UseCase) (userUuid : string) (w : W) :
  within leavesItems
    (snd (snd (exec H
                 (checkIntegrityBetweenPrimaryAndSecondaryDatabase this
                    userUuid) w))).
Proof.
  apply issuesOnly_exec.
  unfold checkIntegrityBetweenPrimaryAndSecondaryDatabase, checkPage,
    checkItem, call.
  stays.
Qed.

End CheckFacts.

(** ** Scenarios *)

Module Scenarios.
Import Effects.

(** The token Node produces for 1.000001 seconds. *)
Example encodeToken_example :
  ItemService.encodeToken 1000001 = "MjoxLjAwMDAwMQ==".
Proof. vm_compute. reflexivity. Qed.

(** A token written by [calculateSyncToken] is read back by
    [getLastSyncTime]. *)
Example getLastSyncTime_reads_sync_token :
  ItemService.getLastSyncTime ItemService.Sample.service
    (Some (fst (ItemService.calculateSyncToken 1700000000123455 []))) None
  = Returned (Some 1700000000123456).
Proof. vm_compute. reflexivity. Qed.

(** A token without a version is refused. *)
Example getLastSyncTime_refuses_unversioned_token :
  ItemService.getLastSyncTime ItemService.Sample.service
    (Some (JS.base64_encode "1700000000")) None
  = Thrown ItemService.MissingVersionPart.
Proof. vm_compute. reflexivity. Qed.

(** Section 8, scenario c: a write based on a stale read is a conflict. *)
Example stale_write_is_a_conflict :
  let stored := ItemService.Sample.note "X" "x" 10 1000 in
  exists result w',
    run (ItemService.InMemory.handle ItemService.Sample.service)
      (ItemService.saveItems ItemService.Sample.service
         (ItemService.Sample.saveRequest
            [ItemService.Sample.contentHash "X" "y" (Some 900)]))
      (ItemService.Sample.world 5000 [stored])
    = (Returned result, w')
    /\ ItemService.savedItems result = []
    /\ map ItemService.type (ItemService.conflicts result)
       = [ItemService.ConflictType.ConflictingData]
    /\ map ItemService.serverItem (ItemService.conflicts result)
       = [Some stored].
Proof.
  intros stored. eexists. eexists. split; [vm_compute; reflexivity |].
  repeat split; vm_compute; reflexivity.
Qed.

(** Section 8, scenario a: an initial sync hides tombstones. *)
Example initial_sync_hides_tombstones :
  let live := ItemService.Sample.note "A" "a" 10 1000 in
  let tombstone :=
    ItemService.Item.set_deleted true (ItemService.Sample.note "B" "" 0 2000)
  in
  exists result w',
    run (ItemService.InMemory.handle ItemService.Sample.service)
      (ItemService.getItems ItemService.Sample.service
         (ItemService.Sample.getRequest (Some 10)))
      (ItemService.Sample.world 5000 [live; tombstone])
    = (Returned result, w')
    /\ ItemService.items result = [live]
    /\ ItemService.cursorToken result = None.
Proof.
  intros live tombstone. eexists. eexists. split; [vm_compute; reflexivity |].
  split; vm_compute; reflexivity.
Qed.

(** A transition that goes through: three items on two pages are copied,
    verified and removed from the source. *)
Example transition_goes_through :
  let outcome :=
    exec Transition.InMemory.handle
      (Transition.execute Transition.Sample.useCase Transition.Sample.request)
      (Transition.Sample.world []
         [Transition.Sample.item "A" "a" 1; Transition.Sample.item "B" "b" 2;
          Transition.Sample.item "C" "c" 3]) in
  fst outcome = Returned Transition.Ok
  /\ Transition.statuses (snd (snd outcome))
     = [Transition.InProgress; Transition.InProgress; Transition.Verified]
  /\ map Transition.Item.uuid (Transition.InMemory.primary (fst (snd outcome)))
     = ["A"; "B"; "C"]
  /\ Transition.InMemory.secondary (fst (snd outcome)) = [].
Proof.
  intros outcome. repeat split; vm_compute; reflexivity.
Qed.

End Scenarios.
